(** * OptionsTrader: decision core of the options agent

    A shallow embedding of the decision logic of [agent.py],
    [signal_engine.py], [insider_tracker.py] and [catalyst_scanner.py],
    of the scoring of [congress_tracker.py] and of the trade statistics
    of [report.py], with the properties of it that the specification
    states and further ones read off the code.

    Conventions of the embedding.
    - Python [float]s are exact rationals ([Q]); a value that pandas may
      deliver as NaN is an [option Q] ([None] is NaN, every comparison
      with it is false). Thresholds are compared exactly, so the worked
      scenarios keep their numbers away from the thresholds, where the
      rounding of binary floating point could decide otherwise.
    - Python [int]s are [Z].
    - [dict]s keyed by strings are [gmap string _].
    - Everything the code reads from the outside world (the clock, the
      broker, the market data, the pandas kernels) is an explicit
      argument; an exception is the [None] of an [option].
    - A formatted log or reason string is a constructor that carries the
      interpolated values. *)

From Stdlib Require Import ZArith QArith Qround Qabs Qminmax Lqa Lia Bool List.
From Stdlib Require Import Ascii String Permutation.
From stdpp Require Import base option list sorting gmap strings.
Import ListNotations.

Local Open Scope Z_scope.
Local Open Scope Q_scope.

(** ** Python numerics *)

Module PyNum.

(** [a < b], [a <= b], [a == b] on floats. *)
Definition Qltb (a b : Q) : bool := negb (Qle_bool b a).
Definition Qleb (a b : Q) : bool := Qle_bool a b.
Definition Qeqb (a b : Q) : bool := Qeq_bool a b.

(** Python [int(x)] on a float: truncation toward zero. *)
Definition py_int (x : Q) : Z := Z.quot (Qnum x) (Zpos (Qden x)).

(** Python [round(x)]: nearest integer, ties to the even one. *)
Definition py_round (x : Q) : Z :=
  let f := Qfloor x in
  let r := x - inject_Z f in
  if Qltb r (1#2) then f
  else if Qltb (1#2) r then (f + 1)%Z
  else if Z.even f then f else (f + 1)%Z.

(** Python [round(x, 1)] and [round(x, 2)]. *)
Definition py_round1 (x : Q) : Q := inject_Z (py_round (x * 10)) / 10.
Definition py_round2 (x : Q) : Q := inject_Z (py_round (x * 100)) / 100.

End PyNum.
Import PyNum.


(** ** Shared vocabulary *)

(** A float that pandas may deliver as NaN. *)
Definition float := option Q.

Definition flt (a b : float) : bool :=
  match a, b with Some x, Some y => Qltb x y | _, _ => false end.
Definition fle (a b : float) : bool :=
  match a, b with Some x, Some y => Qleb x y | _, _ => false end.
Definition fgt (a b : float) : bool := flt b a.

(** ["CALL"] and ["PUT"]; Python's [None] direction is the [None] of
    [option Direction]. *)
Inductive Direction := CALL | PUT.

#[global] Instance Direction_eq_dec : EqDecision Direction.
Proof. solve_decision. Defined.

(** The three values [_market_regime] returns. *)
Inductive Regime := bull | bear | neutral.

#[global] Instance Regime_eq_dec : EqDecision Regime.
Proof. solve_decision. Defined.

(** The human-readable justification strings, one constructor per
    f-string template, carrying the interpolated values. *)
Inductive Reason :=
  | R_rsi_strong (label : string) (rsi : float)
  | R_rsi_bullish (label : string) (rsi : float)
  | R_rsi_oversold (label : string) (rsi : float)
  | R_rsi_bearish (label : string) (rsi : float)
  | R_macd_accel_bullish (label : string)
  | R_macd_bullish (label : string)
  | R_macd_accel_bearish (label : string)
  | R_macd_bearish (label : string)
  | R_squeeze_breakout (label : string) (d : Direction) (strength : float)
  | R_squeeze_building (label : string)
  | R_volume_massive_rising (label : string) (surge : float)
  | R_volume_massive_falling (label : string) (surge : float)
  | R_volume_surge (label : string) (surge : float)
  | R_vwap_above (label : string) (dev : float)
  | R_vwap_below (label : string) (dev : float)
  | R_all_timeframes_agree
  | R_regime_aligned (r : Regime) (d : option Direction)
  | R_insider_bought (val : Q)
  | R_insiders_same_stock (n : Z)
  | R_insider_massive_buy (val : Q)
  | R_insider_large_buy (val : Q)
  | R_insider_role_buying (role : string)
  | R_earnings_today
  | R_earnings_tomorrow
  | R_earnings_building (days : Z)
  | R_earnings_in (days : Z)
  | R_gap_massive (gap vol : Q) (volume_confirmed : bool)
  | R_gap_large (gap vol : Q) (volume_confirmed : bool)
  | R_gap_plain (gap : Q) (volume_confirmed : bool).

(** ** Python containers *)

Module PyList.

(** [list(dict.fromkeys(l))]: duplicates removed, first occurrences kept
    in order. *)
Fixpoint dedup_from (seen : list string) (l : list string) : list string :=
  match l with
  | [] => []
  | x :: l' =>
      if bool_decide (x ∈ seen) then dedup_from seen l'
      else x :: dedup_from (x :: seen) l'
  end.

Definition dedup_first (l : list string) : list string := dedup_from [] l.

(** [l.sort(key=..., reverse=True)]: a stable descending sort; [lt x y]
    says that the key of [x] is strictly below the key of [y]. *)
Fixpoint insert_desc {A} (lt : A -> A -> bool) (x : A) (l : list A) : list A :=
  match l with
  | [] => [x]
  | y :: l' => if lt x y then y :: insert_desc lt x l' else x :: y :: l'
  end.

Definition sort_reverse {A} (lt : A -> A -> bool) (l : list A) : list A :=
  foldr (insert_desc lt) [] l.

(** [needle in hay] on strings. *)
Fixpoint contains (needle hay : string) : bool :=
  String.prefix needle hay ||
  match hay with
  | EmptyString => false
  | String _ hay' => contains needle hay'
  end.

(** [{key(x): x for x in l}]: later entries overwrite earlier ones. *)
Definition dict_by {A} (key : A -> string) (l : list A) : gmap string A :=
  foldl (fun m x => <[key x := x]> m) ∅ l.

End PyList.
Import PyList.

(** ** insider_tracker.py *)

Module InsiderTracker.

Definition CSUITE : list string :=
  ["CEO"; "CFO"; "COO"; "CTO"; "PRESIDENT"; "CHAIRMAN";
   "CHIEF EXECUTIVE"; "CHIEF FINANCIAL"; "DIRECTOR"; "FOUNDER"; "EVP"; "SVP"]%string.
Definition MIN_BUY_VALUE : Q := 50000.
Definition MAX_RESULTS : nat := 20.

(** One value of the [aggregated] dict built from the day's filings
    (the raw [buys] list is not read by the scoring). [roles] is the
    set in its iteration order. *)
Record Aggregated := {
  a_ticker : string;
  a_total_buy_value : Q;
  a_filing_count : Z;
  a_roles : list string
}.

(** One entry of the ranked list. *)
Record InsiderBuy := {
  ib_ticker : string;
  ib_score : Z;
  ib_total_buy_value : Q;
  ib_filing_count : Z;
  ib_roles : list string;
  ib_reasons : list Reason;
  ib_direction : Direction
}.

(** The first role that contains a C-suite word, as the [for ... break]
    loop finds it. *)
Definition first_csuite_role (roles : list string) : option string :=
  List.find (fun role => existsb (fun t => contains t role) CSUITE) roles.

(** The body of the "Score and rank" loop of [get_todays_insider_buys]. *)
Definition score_insider (d : Aggregated) : InsiderBuy :=
  let val := a_total_buy_value d in
  let score := 2%Z in
  let reasons := [R_insider_bought val] in
  let '(score, reasons) :=
    if (2 <=? a_filing_count d)%Z
    then ((score + 1)%Z, reasons ++ [R_insiders_same_stock (a_filing_count d)])
    else (score, reasons) in
  let '(score, reasons) :=
    if Qleb 500000 val then ((score + 2)%Z, reasons ++ [R_insider_massive_buy val])
    else if Qleb 100000 val then ((score + 1)%Z, reasons ++ [R_insider_large_buy val])
    else (score, reasons) in
  let '(score, reasons) :=
    match first_csuite_role (a_roles d) with
    | Some role => ((score + 1)%Z, reasons ++ [R_insider_role_buying role])
    | None => (score, reasons)
    end in
  {| ib_ticker := a_ticker d;
     ib_score := Z.min score 5;
     ib_total_buy_value := val;
     ib_filing_count := a_filing_count d;
     ib_roles := a_roles d;
     ib_reasons := reasons;
     ib_direction := CALL |}.

(** The sort key [(score, total_buy_value)], compared as tuples. *)
Definition rank_lt (x y : InsiderBuy) : bool :=
  (ib_score x <? ib_score y)%Z
  || ((ib_score x =? ib_score y)%Z
      && Qltb (ib_total_buy_value x) (ib_total_buy_value y)).

(** [get_todays_insider_buys], from the aggregated filings of the day
    (the dict's values in insertion order). The day's cache holds a
    value this function returned earlier. *)
Definition get_todays_insider_buys (aggregated : list Aggregated) : list InsiderBuy :=
  take MAX_RESULTS (sort_reverse rank_lt (map score_insider aggregated)).

End InsiderTracker.

(** ** catalyst_scanner.py *)

Module CatalystScanner.

(** [score_earnings]: the [score] and [reason] of the returned dict. *)
Definition score_earnings (days_until : option Z) : Z * option Reason :=
  match days_until with
  | None => (0%Z, None)
  | Some d =>
      if (7 <? d)%Z || (d <? 0)%Z then (0%Z, None)
      else if (d =? 0)%Z then (4%Z, Some R_earnings_today)
      else if (d =? 1)%Z then (3%Z, Some R_earnings_tomorrow)
      else if (d <=? 3)%Z then (2%Z, Some (R_earnings_building d))
      else (1%Z, Some (R_earnings_in d))
  end.

(** One value of the dict [get_premarket_gaps] returns. *)
Record GapData := {
  gap_pct : Q;
  prev_close : Q;
  current : Q;
  vol_ratio : Q;
  gap_direction : Direction
}.

(** The gap record [get_premarket_gaps] builds from a quote: previous
    close, last price and the volume ratio of the day. *)
Definition make_gap_data (prev_close current vol_ratio : Q) : option GapData :=
  if Qleb prev_close 0 || Qleb current 0 then None
  else
    let gap_pct := (current - prev_close) / prev_close * 100 in
    Some {| gap_pct := gap_pct;
            prev_close := prev_close;
            current := current;
            vol_ratio := vol_ratio;
            gap_direction := if Qltb 0 gap_pct then CALL else PUT |}.

(** [get_premarket_gaps] for one ticker, from the quote the data
    provider delivers ([None]: no quote or an exception). *)
Definition get_premarket_gaps (quotes : string -> option (Q * Q * Q))
    (ticker : string) : option GapData :=
  '(prev_close, current, vol_ratio) ← quotes ticker;
  make_gap_data prev_close current vol_ratio.

(** [score_gap]: the [score], [reason] and [direction] of the returned
    dict. *)
Definition score_gap (gap_data : option GapData) : Z * option Reason * option Direction :=
  match gap_data with
  | None => (0%Z, None, None)
  | Some g =>
      let abs_gap := Qabs (gap_pct g) in
      if Qltb abs_gap 2 then (0%Z, None, None)
      else
        let confirmed := Qleb 2 (vol_ratio g) in
        let tier : Z * (bool -> Reason) :=
          if Qleb 8 abs_gap then (3%Z, R_gap_massive (gap_pct g) (vol_ratio g))
          else if Qleb 5 abs_gap then (2%Z, R_gap_large (gap_pct g) (vol_ratio g))
          else (1%Z, R_gap_plain (gap_pct g)) in
        let '(score, reason) := tier in
        let bump := confirmed && (0 <? score)%Z in
        let score := if bump then (score + 1)%Z else score in
        (Z.min score 3, Some (reason bump), Some (gap_direction g))
  end.

(** One value of the dict [scan] returns, with its ticker. *)
Record Catalyst := {
  c_ticker : string;
  c_earnings_score : Z;
  c_gap_score : Z;
  c_total_bonus : Z;
  c_direction_bias : option Direction;
  c_gap_pct : Q;
  c_days_to_earnings : option Z;
  c_reasons : list Reason
}.

Section Scan.
(** What [get_earnings_dates] and [get_premarket_gaps] deliver for a
    ticker. *)
Variable earnings_dates : string -> option Z.
Variable gap_data : string -> option GapData.

(** The body of the loop of [scan]. *)
Definition scan_ticker (ticker : string) : Catalyst :=
  let '(e_score, e_reason) := score_earnings (earnings_dates ticker) in
  let '(g_score, g_reason, g_direction) := score_gap (gap_data ticker) in
  let total := (e_score + g_score)%Z in
  let reasons := option_list e_reason ++ option_list g_reason in
  let direction_bias := if (2 <=? g_score)%Z then g_direction else None in
  {| c_ticker := ticker;
     c_earnings_score := e_score;
     c_gap_score := g_score;
     c_total_bonus := Z.min total 6;
     c_direction_bias := direction_bias;
     c_gap_pct := match gap_data ticker with Some g => gap_pct g | None => 0 end;
     c_days_to_earnings := earnings_dates ticker;
     c_reasons := reasons |}.

(** [scan]: the dict as the list of its values in insertion order. *)
Definition scan (tickers : list string) : list Catalyst :=
  map scan_ticker (dedup_first tickers).

Definition universe : list string :=
  ["AAPL";"MSFT";"NVDA";"AMZN";"META";"GOOGL";"TSLA";
   "AMD";"INTC";"QCOM";"MU";"AVGO";"AMAT";"KLAC";"LRCX";
   "MRVL";"ON";"SMCI";"ARM";"ASML";"TSM";"NXPI";"TXN";
   "COIN";"MSTR";"HOOD";"PLTR";"RBLX";"SNAP";"UBER";"LYFT";
   "SHOP";"ABNB";"DASH";"PTON";"RIVN";"LCID";"NIO";"XPEV";
   "NFLX";"SPOT";"PINS";"TWLO";"ZM";"DOCN";"GTLB";"BILL";
   "ORCL";"CRM";"NOW";"SNOW";"DDOG";"MDB";"NET";"ZS";
   "CRWD";"S";"PANW";"OKTA";"HUBS";"CFLT";"AI";"SOUN";
   "PYPL";"AFRM";"SOFI";"UPST";"LC";"NU";"MELI";
   "GS";"MS";"JPM";"BAC";"C";"WFC";"SCHW";"IBKR";
   "MRNA";"BNTX";"NVAX";"BIIB";"GILD";"REGN";"VRTX";
   "LLY";"PFE";"ABBV";"BMY";"AMGN";"ILMN";"INCY";"EXAS";
   "TGT";"WMT";"COST";"LULU";"NKE";"DKNG";"MGM";"WYNN";
   "XOM";"CVX";"OXY";"SLB";"FSLR";"ENPH";"PLUG";"BE";
   "GME";"AMC";"BBAI";"MVIS";
   "SPY";"QQQ";"IWM";"GLD";"SLV";"XLF";"XLE";
   "TQQQ";"SOXL";"SPXL";"LABU";"UVXY";"ARKK";
   "DIS";"BA";"GE";"CAT";"LMT";"RTX";"XYZ"]%string.

Definition bonus_lt (x y : Catalyst) : bool :=
  (c_total_bonus x <? c_total_bonus y)%Z.

(** [get_top_catalyst_tickers]. *)
Definition get_top_catalyst_tickers (min_bonus : Z) : list Catalyst :=
  sort_reverse bonus_lt
    (filter (fun v => (min_bonus <= c_total_bonus v)%Z) (scan universe)).

End Scan.

End CatalystScanner.

(** ** signal_engine.py *)

Module SignalEngine.

(** One OHLCV row of a [DataFrame]; the frame is the list of its rows. *)
Record Bar := { Open : Q; High : Q; Low : Q; Close : Q; Volume : Q }.
Definition DataFrame := list Bar.

(** [s.iloc[-k]] for [k >= 1]; [None] is the [IndexError]. *)
Definition iloc_neg {A} (k : nat) (s : list A) : option A :=
  match k with
  | O => None
  | S k' => rev s !! k'
  end.

(** The return value of [_detect_squeeze]. *)
Record SqueezeInfo := {
  in_squeeze : bool;
  breakout : bool;
  sq_direction : Direction;
  strength : float
}.

(** The pandas kernels of the class. They are floating-point series
    computations (exponential and rolling windows, standard
    deviations); the scoring logic below only reads their last
    samples, so it is stated for any kernels. [None] is a raised
    exception. *)
Record Kernels := {
  _fetch : string -> string -> string -> option DataFrame;
  _rsi : list Q -> list float;
  _macd_histogram : list Q -> list float;
  _detect_squeeze : list Q -> list Q -> list Q -> list Q -> option SqueezeInfo;
  _obv : list Q -> list Q -> list float;
  _atr : DataFrame -> list float;
  _vwap : DataFrame -> list float;
  rolling_mean : nat -> list float -> list float
}.

(** The dict [_score_timeframe] returns; the short-history result has
    no vote counts. *)
Record TimeframeScore := {
  tf_score : Z;
  tf_direction : option Direction;
  tf_votes : option (nat * nat);
  tf_reasons : list Reason
}.

(** The running [score], [directions], [reasons] of [_score_timeframe]. *)
Record Tally := {
  t_score : Z;
  t_directions : list Direction;
  t_reasons : list Reason
}.

(** [score += n; directions.append(d); reasons.append(r)] *)
Definition vote (n : Z) (d : Direction) (r : Reason) (t : Tally) : Tally :=
  {| t_score := (t_score t + n)%Z;
     t_directions := t_directions t ++ [d];
     t_reasons := t_reasons t ++ [r] |}.

(** [score += n; reasons.append(r)] *)
Definition award (n : Z) (r : Reason) (t : Tally) : Tally :=
  {| t_score := (t_score t + n)%Z;
     t_directions := t_directions t;
     t_reasons := t_reasons t ++ [r] |}.

Definition count_dir (d : Direction) (l : list Direction) : nat :=
  length (filter (fun x => x = d) l).

(** [a if a_votes > b_votes else b if ... else None] *)
Definition majority (call_votes put_votes : nat) : option Direction :=
  if (put_votes <? call_votes)%nat then Some CALL
  else if (call_votes <? put_votes)%nat then Some PUT
  else None.

(** What the bonus providers see of the outside world in one call of
    [get_top_signals]. *)
Record Feeds := {
  insider_aggregated : list InsiderTracker.Aggregated;
  _has_liquid_options : string -> bool;
  earnings_dates : string -> option Z;
  gap_quotes : string -> option (Q * Q * Q)
}.

(** The insider buys of the day that have liquid options, and the dict
    of them by ticker. *)
Definition insider_buys_today (F : Feeds) : list InsiderTracker.InsiderBuy :=
  filter (fun b => _has_liquid_options F (InsiderTracker.ib_ticker b) = true)
    (InsiderTracker.get_todays_insider_buys (insider_aggregated F)).

Abbreviation insider_scores F := (dict_by InsiderTracker.ib_ticker (insider_buys_today F)).

(** The catalyst tickers with a bonus of at least 2, and the dict of
    them by ticker. *)
Definition catalyst_top (F : Feeds) : list CatalystScanner.Catalyst :=
  CatalystScanner.get_top_catalyst_tickers (earnings_dates F)
    (CatalystScanner.get_premarket_gaps (gap_quotes F)) 2.

Abbreviation catalyst_scores F := (dict_by CatalystScanner.c_ticker (catalyst_top F)).

Section Scoring.
Variable K : Kernels.

Definition tally_rsi (label : string) (rsi rsi_prev : float) (t : Tally) : Tally :=
  if fgt rsi (Some 70) && fgt rsi rsi_prev then vote 3 CALL (R_rsi_strong label rsi) t
  else if fgt rsi (Some 60) then vote 2 CALL (R_rsi_bullish label rsi) t
  else if flt rsi (Some 30) && flt rsi rsi_prev then vote 3 PUT (R_rsi_oversold label rsi) t
  else if flt rsi (Some 40) then vote 2 PUT (R_rsi_bearish label rsi) t
  else t.

Definition tally_macd (label : string) (hist_now hist_prev hist_prev2 : float)
    (t : Tally) : Tally :=
  if fgt hist_now (Some 0) && (fgt hist_now hist_prev && fgt hist_prev hist_prev2)
  then vote 3 CALL (R_macd_accel_bullish label) t
  else if fgt hist_now (Some 0) && fgt hist_now hist_prev
  then vote 2 CALL (R_macd_bullish label) t
  else if flt hist_now (Some 0) && (flt hist_now hist_prev && flt hist_prev hist_prev2)
  then vote 3 PUT (R_macd_accel_bearish label) t
  else if flt hist_now (Some 0) && flt hist_now hist_prev
  then vote 2 PUT (R_macd_bearish label) t
  else t.

Definition tally_squeeze (label : string) (squeeze : SqueezeInfo) (t : Tally) : Tally :=
  if breakout squeeze && fgt (strength squeeze) (Some (1#2))
  then vote 3 (sq_direction squeeze)
         (R_squeeze_breakout label (sq_direction squeeze) (strength squeeze)) t
  else if in_squeeze squeeze then award 1 (R_squeeze_building label) t
  else t.

Definition tally_volume (label : string) (surge : float) (obv_trend : bool)
    (t : Tally) : Tally :=
  if fgt surge (Some 2) && obv_trend
  then vote 3 CALL (R_volume_massive_rising label surge) t
  else if fgt surge (Some 2) && negb obv_trend
  then vote 3 PUT (R_volume_massive_falling label surge) t
  else if fgt surge (Some (3#2))
  then vote 2 (if obv_trend then CALL else PUT) (R_volume_surge label surge) t
  else t.

Definition tally_vwap (label : string) (vwap_dev : float) (t : Tally) : Tally :=
  if fgt vwap_dev (Some (3#2)) then vote 1 CALL (R_vwap_above label vwap_dev) t
  else if flt vwap_dev (Some (-(3#2))) then vote 1 PUT (R_vwap_below label vwap_dev) t
  else t.

(** [SignalEngine._score_timeframe]. [None] is a raised exception. *)
Definition _score_timeframe (df : DataFrame) (label : string)
    : option TimeframeScore :=
  if bool_decide (df = []) || (length df <? 30)%nat then
    Some {| tf_score := 0; tf_direction := None; tf_votes := None; tf_reasons := [] |}
  else
    let close := map Close df in
    let high := map High df in
    let low := map Low df in
    let volume := map Volume df in
    let t := {| t_score := 0; t_directions := []; t_reasons := [] |} in
    (* 1. RSI *)
    rsi ← iloc_neg 1 (_rsi K close);
    rsi_prev ← iloc_neg 2 (_rsi K close);
    let t := tally_rsi label rsi rsi_prev t in
    (* 2. MACD histogram *)
    let hist := _macd_histogram K close in
    hist_now ← iloc_neg 1 hist;
    hist_prev ← iloc_neg 2 hist;
    hist_prev2 ← iloc_neg 3 hist;
    let t := tally_macd label hist_now hist_prev hist_prev2 t in
    (* 3. Bollinger squeeze *)
    squeeze ← _detect_squeeze K close high low volume;
    let t := tally_squeeze label squeeze t in
    (* 4. Volume + OBV *)
    avg_vol ← iloc_neg 1 (rolling_mean K 20 (map Some volume));
    cur_vol ← iloc_neg 1 volume;
    let surge : float :=
      if fgt avg_vol (Some 0)
      then match avg_vol with Some a => Some (cur_vol / a) | None => None end
      else Some 1 in
    let obv := _obv K close volume in
    obv_last ← iloc_neg 1 obv;
    obv_avg ← iloc_neg 1 (rolling_mean K 10 obv);
    let obv_trend := fgt obv_last obv_avg in
    let t := tally_volume label surge obv_trend t in
    (* 5. VWAP position *)
    vwap ← iloc_neg 1 (_vwap K df);
    price ← iloc_neg 1 close;
    let vwap_dev : float :=
      match vwap with Some v => Some ((price - v) / v * 100) | None => None end in
    let t := tally_vwap label vwap_dev t in
    (* consensus direction *)
    let call_votes := count_dir CALL (t_directions t) in
    let put_votes := count_dir PUT (t_directions t) in
    Some {| tf_score := t_score t;
            tf_direction := majority call_votes put_votes;
            tf_votes := Some (call_votes, put_votes);
            tf_reasons := t_reasons t |}.

(** The dict [score_ticker] returns; [insider_bonus] and
    [catalyst_bonus] are the keys [get_top_signals] adds. *)
Record Signal := {
  sig_ticker : string;
  sig_direction : option Direction;
  sig_score : Q;
  sig_price : Q;
  sig_confluence : Z;
  sig_regime_aligned : bool;
  sig_vol_pct : float;
  sig_timeframe_scores : Z * Z * Z;
  sig_reasons : list Reason;
  sig_insider_bonus : option Z;
  sig_catalyst_bonus : option Z
}.

(** The confluence bonus of [score_ticker], from the three
    per-timeframe results. *)
Definition confluence_score (s1h s15m s5m : TimeframeScore) : Z :=
  let directions := omap tf_direction [s1h; s15m; s5m] in
  let call_tfs := count_dir CALL directions in
  let put_tfs := count_dir PUT directions in
  if (call_tfs =? 3)%nat then 4
  else if (put_tfs =? 3)%nat then 4
  else if (call_tfs =? 2)%nat then 2
  else if (put_tfs =? 2)%nat then 2
  else 0.

Definition final_direction (s1h s15m s5m : TimeframeScore) : option Direction :=
  let directions := omap tf_direction [s1h; s15m; s5m] in
  majority (count_dir CALL directions) (count_dir PUT directions).

Definition regime_score (regime : Regime) (final : option Direction) : Z :=
  if bool_decide (regime = bull) && bool_decide (final = Some CALL) then 2
  else if bool_decide (regime = bear) && bool_decide (final = Some PUT) then 2
  else if bool_decide (regime = neutral) then 1
  else 0.

Definition vol_score (vol_pct : float) : Z :=
  if fle (Some 1) vol_pct && fle vol_pct (Some 4) then 2
  else if fle (Some (1#2)) vol_pct && flt vol_pct (Some 1) then 1
  else 0.

(** The part of [score_ticker] after the three timeframes are scored:
    the blend of the scores, the bonuses and the returned dict.
    Prices are positive, so [price_1h] is not a zero divisor. *)
Definition blend (ticker : string) (regime : Regime)
    (s1h s15m s5m : TimeframeScore) (atr_1h : float) (price_1h : Q) : Signal :=
  let confluence := confluence_score s1h s15m s5m in
  let final := final_direction s1h s15m s5m in
  let regime_sc := regime_score regime final in
  let vol_pct : float :=
    match atr_1h with Some a => Some (a / price_1h * 100) | None => None end in
  let total_score :=
    inject_Z (tf_score s1h) * (4#10) +
    inject_Z (tf_score s15m) * (35#100) +
    inject_Z (tf_score s5m) * (25#100) +
    inject_Z confluence + inject_Z regime_sc + inject_Z (vol_score vol_pct) in
  let all_reasons := tf_reasons s1h ++ tf_reasons s15m ++ tf_reasons s5m in
  let all_reasons :=
    if (4 <=? confluence)%Z then R_all_timeframes_agree :: all_reasons else all_reasons in
  let all_reasons :=
    if (regime_sc =? 2)%Z then R_regime_aligned regime final :: all_reasons
    else all_reasons in
  {| sig_ticker := ticker;
     sig_direction := final;
     sig_score := py_round1 total_score;
     sig_price := price_1h;
     sig_confluence := confluence;
     sig_regime_aligned := (regime_sc =? 2)%Z;
     sig_vol_pct := match vol_pct with Some v => Some (py_round2 v) | None => None end;
     sig_timeframe_scores := (tf_score s1h, tf_score s15m, tf_score s5m);
     sig_reasons := all_reasons;
     sig_insider_bonus := None;
     sig_catalyst_bonus := None |}.

(** [SignalEngine.score_ticker]. [None] is the returned [None], also the
    one of the [except] branch. A one-row frame makes
    [df["Close"].squeeze()] a scalar, and [.iloc] on it raises. *)
Definition score_ticker (ticker : string) (regime : Regime) : option Signal :=
  df_1h ← _fetch K ticker "1h" "3mo";
  df_15m ← _fetch K ticker "15m" "5d";
  df_5m ← _fetch K ticker "5m" "2d";
  if bool_decide (df_1h = []) || bool_decide (df_15m = []) || bool_decide (df_5m = [])
  then None
  else
    s1h ← _score_timeframe df_1h "1H";
    s15m ← _score_timeframe df_15m "15M";
    s5m ← _score_timeframe df_5m "5M";
    atr_1h ← iloc_neg 1 (_atr K df_1h);
    price_1h ← (if (length df_1h =? 1)%nat then None else iloc_neg 1 (map Close df_1h));
    Some (blend ticker regime s1h s15m s5m atr_1h price_1h).

(** [close.ewm(span=span, adjust=False).mean().iloc[-1]] on a series
    without NaN. *)
Fixpoint ewm_from (alpha y : Q) (l : list Q) : Q :=
  match l with
  | [] => y
  | x :: l' => ewm_from alpha ((1 - alpha) * y + alpha * x) l'
  end.

Definition ewm_last (span : Z) (l : list Q) : option Q :=
  match l with
  | [] => None
  | x :: l' => Some (ewm_from (2 / (inject_Z span + 1)) x l')
  end.

(** [SignalEngine._market_regime]; every exception yields ["neutral"]. *)
Definition _market_regime : Regime :=
  match _fetch K "SPY" "1d" "3mo" with
  | None => neutral
  | Some spy =>
      let close := map Close spy in
      if (length close <=? 1)%nat then neutral
      else
        match ewm_last 20 close, ewm_last 50 close, iloc_neg 1 close with
        | Some ema20, Some ema50, Some price =>
            if Qltb ema20 price && Qltb ema50 ema20 then bull
            else if Qltb price ema20 && Qltb ema20 ema50 then bear
            else neutral
        | _, _, _ => neutral
        end
  end.

Definition WATCHLIST : list string :=
  ["TSLA"; "NVDA"; "COIN"; "MSTR"; "AMD";
   "TQQQ"; "SOXL"; "PLTR"; "HOOD"; "RBLX";
   "SPY"; "QQQ"; "SPXL"; "LABU"; "META";
   "AMZN"; "GOOGL"; "MSFT"; "AAPL"; "IWM"]%string.

(** The body of the [if sig and sig["direction"]] branch of the scan
    loop of [get_top_signals]: the bonus merge. *)
Definition merge_bonus
    (insider_scores : gmap string InsiderTracker.InsiderBuy)
    (catalyst_scores : gmap string CatalystScanner.Catalyst)
    (ticker : string) (sig : Signal) : Signal :=
  let insider_data := insider_scores !! ticker in
  let insider_bonus := from_option InsiderTracker.ib_score 0%Z insider_data in
  let insider_reasons := from_option InsiderTracker.ib_reasons [] insider_data in
  let direction :=
    if bool_decide (is_Some insider_data) && bool_decide (sig_direction sig = None)
    then Some CALL else sig_direction sig in
  let cat_data := catalyst_scores !! ticker in
  let cat_bonus := from_option CatalystScanner.c_total_bonus 0%Z cat_data in
  let cat_reasons := from_option CatalystScanner.c_reasons [] cat_data in
  let cat_dir_bias := cat_data ≫= CatalystScanner.c_direction_bias in
  let direction :=
    match cat_dir_bias with
    | Some bias => if (2 <=? cat_bonus)%Z then Some bias else direction
    | None => direction
    end in
  let total_bonus := (insider_bonus + cat_bonus)%Z in
  {| sig_ticker := sig_ticker sig;
     sig_direction := direction;
     sig_score := py_round1 (sig_score sig + inject_Z total_bonus);
     sig_price := sig_price sig;
     sig_confluence := sig_confluence sig;
     sig_regime_aligned := sig_regime_aligned sig;
     sig_vol_pct := sig_vol_pct sig;
     sig_timeframe_scores := sig_timeframe_scores sig;
     sig_reasons := insider_reasons ++ cat_reasons ++ sig_reasons sig;
     sig_insider_bonus := Some insider_bonus;
     sig_catalyst_bonus := Some cat_bonus |}.

(** One turn of the scan loop: the signal appended to [signals], if any. *)
Definition scan_one
    (insider_scores : gmap string InsiderTracker.InsiderBuy)
    (catalyst_scores : gmap string CatalystScanner.Catalyst)
    (regime : Regime) (min_score : Q) (ticker : string) : option Signal :=
  match score_ticker ticker regime with
  | Some sig =>
      if bool_decide (is_Some (sig_direction sig)) then
        let sig' := merge_bonus insider_scores catalyst_scores ticker sig in
        if Qleb min_score (sig_score sig') then Some sig' else None
      else None
  | None => None
  end.

(** The sort key [(confluence, score)], compared as tuples. *)
Definition signal_lt (x y : Signal) : bool :=
  (sig_confluence x <? sig_confluence y)%Z
  || ((sig_confluence x =? sig_confluence y)%Z && Qltb (sig_score x) (sig_score y)).

(** [SignalEngine.get_top_signals]; the regime stored in
    [self.last_regime] is the first component. *)
Definition get_top_signals (F : Feeds) (min_score : Q) : Regime * list Signal :=
  let regime := _market_regime in
  let insider_tickers := map InsiderTracker.ib_ticker (insider_buys_today F) in
  let catalyst_tickers := map CatalystScanner.c_ticker (catalyst_top F) in
  let combined_watchlist :=
    dedup_first (WATCHLIST ++ insider_tickers ++ catalyst_tickers) in
  let signals :=
    omap (scan_one (insider_scores F) (catalyst_scores F) regime min_score)
      combined_watchlist in
  (regime, sort_reverse signal_lt signals).

End Scoring.

End SignalEngine.


(** ** config.py *)

Record Config := {
  sandbox : bool;
  capital_limit : Q;
  max_trade_size : option Q;
  min_capital_to_trade : Q;
  max_contract_price : Q;
  min_days_to_expiry : Z;
  min_signal_score : Q
}.

Definition CONFIG : Config :=
  {| sandbox := true;
     capital_limit := 500;
     max_trade_size := Some 125;
     min_capital_to_trade := 20;
     max_contract_price := 3;
     min_days_to_expiry := 0;
     min_signal_score := 13 |}.

(** ** agent.py *)

Module Agent.
Import SignalEngine.

(** [s.lower()] on ASCII. *)
Definition lower_ascii (c : ascii) : ascii :=
  let n := nat_of_ascii c in
  if (65 <=? n)%nat && (n <=? 90)%nat then ascii_of_nat (n + 32) else c.

Fixpoint lower (s : string) : string :=
  match s with
  | EmptyString => EmptyString
  | String c s' => String (lower_ascii c) (lower s')
  end.

Definition direction_name (d : Direction) : string :=
  match d with CALL => "CALL" | PUT => "PUT" end.

(** The group of [re.match(r'^([A-Z]+)', s)]: the leading capitals. *)
Fixpoint leading_capitals (s : string) : string :=
  match s with
  | EmptyString => EmptyString
  | String c s' =>
      let n := nat_of_ascii c in
      if (65 <=? n)%nat && (n <=? 90)%nat then String c (leading_capitals s')
      else EmptyString
  end.

Definition match_ticker (s : string) : option string :=
  match leading_capitals s with
  | EmptyString => None
  | t => Some t
  end.

(** *** What the broker answers *)

(** One entry of an option chain whose numbers parse (an entry that
    does not is skipped by the selection loop). [o_delta] is
    [greeks.delta] as delivered, signed. *)
Record OptionQuote := {
  o_option_type : string;
  o_symbol : string;
  o_strike : Q;
  o_ask : Q;
  o_bid : Q;
  o_delta : Q
}.

(** The [balances] dict of [get_account_balances]; an absent key is
    [None]. *)
Record Balances := {
  total_equity : option Q;
  total_cash : option Q;
  cash_available : option Q
}.

Inductive BalancesResp :=
  | Bal_error
  | Bal_not_dict
  | Bal_dict (b : Balances).

Record Position := {
  p_symbol : string;
  p_quantity : Z;
  p_cost_basis : Q
}.

(** The answer of [get_positions]: an exception, not a dict, the
    string ["null"] (or nothing) under ["positions"], or the list of
    positions (a single dict is a one-element list). *)
Inductive PositionsResp :=
  | Pos_error
  | Pos_not_dict
  | Pos_null
  | Pos_list (l : list Position).

(** The outside world at one call. Dates are day numbers; the ISO
    strings of the source order the same way. *)
Record World := {
  today : Z;
  hour : Z;
  minute : Z;
  balances : BalancesResp;
  positions : PositionsResp;
  expirations : string -> option (list Z);
  options_chain : string -> Z -> option (list OptionQuote);
  quote_bid : string -> option Q;
  place_order_ok : string -> bool
}.

(** *** OptionsSelector *)

(** The dict [select_contract] returns. *)
Record TradeCandidate := {
  tc_ticker : string;
  tc_direction : option Direction;
  tc_option_symbol : string;
  tc_strike : Q;
  tc_expiry : Z;
  tc_ask : Q;
  tc_bid : Q;
  tc_delta : Q;
  tc_contracts : Z;
  tc_total_cost : Q;
  tc_signal : Signal
}.

Section WithConfig.
Variable cfg : Config.

(** [OptionsSelector.get_nearest_expiry]. *)
Definition get_nearest_expiry (W : World) (ticker : string) (days_out : Z) : option Z :=
  exps ← expirations W ticker;
  List.find (fun exp => (days_out <=? exp - today W)%Z) (merge_sort Z.le exps).

(** One turn of the selection loop: [acc] is [(best, best_diff)], with
    [None] before the first admissible contract ([best_diff] infinite). *)
Definition consider (target_strike : Q) (acc : option (OptionQuote * Q))
    (opt : OptionQuote) : option (OptionQuote * Q) :=
  let strike := o_strike opt in
  let ask := o_ask opt in
  let bid := o_bid opt in
  let delta := Qabs (o_delta opt) in
  if Qleb ask 0 || Qltb (max_contract_price cfg) ask then acc
  else if Qltb delta (2#10) || Qltb (7#10) delta then acc
  else
    let mid := (ask + bid) / 2 in
    if Qltb 0 mid && Qltb (2#10) ((ask - bid) / mid) then acc
    else
      let diff := Qabs (strike - target_strike) in
      match acc with
      | None => Some (opt, diff)
      | Some (_, best_diff) => if Qltb diff best_diff then Some (opt, diff) else acc
      end.

(** The position sizing at the end of [select_contract]: the contract
    count and the total cost. *)
Definition size_position (ask_price capital : Q) : Z * Q :=
  let max_spend := Qmin capital (default capital (max_trade_size cfg)) in
  let contracts := Z.max 1 (py_int (max_spend / (ask_price * 100))) in
  let total_cost := inject_Z contracts * ask_price * 100 in
  if Qltb capital total_cost then
    let contracts := Z.max 1 (contracts - 1) in
    (contracts, inject_Z contracts * ask_price * 100)
  else (contracts, total_cost).

(** [OptionsSelector.select_contract]. [None] is the returned [None],
    also the one of the [except] branch (a signal without direction
    makes [direction.lower()] raise). *)
Definition select_contract (W : World) (signal : Signal) (capital : Q)
    : option TradeCandidate :=
  let ticker := sig_ticker signal in
  let direction := sig_direction signal in
  let current_price := sig_price signal in
  if (hour W =? 15)%Z && (30 <=? minute W)%Z then None
  else
    let strike_offset := if bool_decide (direction = Some CALL) then 102#100 else 98#100 in
    let target_strike := inject_Z (py_round (current_price * strike_offset / 5) * 5) in
    expiry ← get_nearest_expiry W ticker (min_days_to_expiry cfg);
    options ← options_chain W ticker expiry;
    if bool_decide (options = []) then None
    else
      d ← direction;
      let side_options :=
        filter (fun o => lower (o_option_type o) = lower (direction_name d)) options in
      if bool_decide (side_options = []) then None
      else
        '(best, _) ← foldl (consider target_strike) None side_options;
        let ask_price := o_ask best in
        let '(contracts, total_cost) := size_position ask_price capital in
        Some {| tc_ticker := ticker;
                tc_direction := direction;
                tc_option_symbol := o_symbol best;
                tc_strike := o_strike best;
                tc_expiry := expiry;
                tc_ask := ask_price;
                tc_bid := o_bid best;
                tc_delta := o_delta best;
                tc_contracts := contracts;
                tc_total_cost := total_cost;
                tc_signal := signal |}.

(** *** RiskManager *)

(** The three attributes of a [RiskManager]. *)
Record RiskState := {
  _start_of_day_capital : option Q;
  _last_reset_date : option Z;
  _killed_today : bool
}.

(** The state [__init__] sets. *)
Definition risk_init : RiskState :=
  {| _start_of_day_capital := None; _last_reset_date := None; _killed_today := false |}.

(** The reason strings of [check_daily_loss_limit] and [can_trade]. *)
Inductive RiskReason :=
  | OK
  | KILL_SWITCH_ACTIVE
  | KILL_SWITCH_FIRED (daily_loss daily_loss_pct limit : Q)
  | Insufficient_capital (available : Q)
  | Max_positions_reached (open_positions : Z)
  | Trade_cost_above_available (total_cost available : Q)
  | Trade_exceeds_dynamic_capital_limit (limit : Q)
  | Blocked_CALL_in_BEAR (score : Q)
  | Blocked_PUT_in_BULL (score : Q).

(** The two reasons that announce the kill switch. *)
Definition kill_switch_reason (r : RiskReason) : bool :=
  match r with
  | KILL_SWITCH_ACTIVE | KILL_SWITCH_FIRED _ _ _ => true
  | _ => false
  end.

(** [RiskManager.get_account_balance]. *)
Definition get_account_balance (W : World) : Q :=
  if sandbox cfg then capital_limit cfg
  else
    match balances W with
    | Bal_dict b =>
        match total_equity b, total_cash b, cash_available b with
        | Some total, _, _ => total
        | None, Some total, _ => total
        | None, None, Some total => total
        | None, None, None => capital_limit cfg
        end
    | Bal_not_dict | Bal_error => capital_limit cfg
    end.

(** Base capital + 50% of gains above initial capital, as a function of
    the base and the balance. *)
Definition capital_limit_for (base balance : Q) : Q :=
  let gains := Qmax 0 (balance - base) in
  base + gains * (1#2).

(** [RiskManager._dynamic_capital_limit]. *)
Definition _dynamic_capital_limit (W : World) : Q :=
  capital_limit_for (capital_limit cfg) (get_account_balance W).

(** The step function of [_dynamic_max_positions] on the balance. *)
Definition max_positions_for (balance : Q) : Z :=
  if Qleb 5000 balance then 5
  else if Qleb 2500 balance then 4
  else 3.

(** [RiskManager._dynamic_max_positions]. *)
Definition _dynamic_max_positions (W : World) : Z :=
  max_positions_for (get_account_balance W).

(** [RiskManager._dynamic_daily_loss_limit]. *)
Definition _dynamic_daily_loss_limit (W : World) : Q :=
  py_round2 (get_account_balance W * (14#100)).

(** [RiskManager.get_open_position_count]. *)
Definition get_open_position_count (W : World) : Z :=
  match positions W with
  | Pos_list l => Z.of_nat (length l)
  | Pos_error | Pos_not_dict | Pos_null => 0
  end.

(** [RiskManager._reset_if_new_day]. *)
Definition _reset_if_new_day (W : World) (st : RiskState) (current_capital : Q)
    : RiskState :=
  if bool_decide (_last_reset_date st <> Some (today W)) then
    {| _start_of_day_capital := Some current_capital;
       _last_reset_date := Some (today W);
       _killed_today := false |}
  else st.

(** [RiskManager.check_daily_loss_limit]: the new state and the
    returned pair. *)
Definition check_daily_loss_limit (W : World) (st : RiskState) (current_capital : Q)
    : RiskState * (bool * RiskReason) :=
  let portfolio_value := get_account_balance W in
  let portfolio_value :=
    if Qeqb portfolio_value (capital_limit cfg) && sandbox cfg
    then current_capital else portfolio_value in
  let st := _reset_if_new_day W st portfolio_value in
  if _killed_today st then (st, (true, KILL_SWITCH_ACTIVE))
  else
    match _start_of_day_capital st with
    | None => (st, (false, OK))
    | Some start =>
        let daily_loss := start - portfolio_value in
        let daily_loss_pct := if Qltb 0 start then daily_loss / start * 100 else 0 in
        if Qleb (_dynamic_daily_loss_limit W) daily_loss then
          ({| _start_of_day_capital := _start_of_day_capital st;
              _last_reset_date := _last_reset_date st;
              _killed_today := true |},
           (true, KILL_SWITCH_FIRED daily_loss daily_loss_pct (_dynamic_daily_loss_limit W)))
        else (st, (false, OK))
    end.

(** [RiskManager.can_trade]: the new state and the returned pair. *)
Definition can_trade (W : World) (st : RiskState) (trade : TradeCandidate)
    (available_capital : Q) (regime : Regime) : RiskState * (bool * RiskReason) :=
  let '(st, (killed, reason)) := check_daily_loss_limit W st available_capital in
  if killed then (st, (false, reason))
  else if Qltb available_capital (min_capital_to_trade cfg)
  then (st, (false, Insufficient_capital available_capital))
  else
    let open_positions := get_open_position_count W in
    if (_dynamic_max_positions W <=? open_positions)%Z
    then (st, (false, Max_positions_reached open_positions))
    else if Qltb available_capital (tc_total_cost trade)
    then (st, (false, Trade_cost_above_available (tc_total_cost trade) available_capital))
    else if Qltb (_dynamic_capital_limit W) (tc_total_cost trade)
    then (st, (false, Trade_exceeds_dynamic_capital_limit (_dynamic_capital_limit W)))
    else
      let direction := sig_direction (tc_signal trade) in
      let score := sig_score (tc_signal trade) in
      if bool_decide (regime = bear) && bool_decide (direction = Some CALL)
         && Qltb score 16
      then (st, (false, Blocked_CALL_in_BEAR score))
      else if bool_decide (regime = bull) && bool_decide (direction = Some PUT)
              && Qltb score 16
      then (st, (false, Blocked_PUT_in_BULL score))
      else (st, (true, OK)).

(** *** PositionMonitor *)

(** The attributes of a [PositionMonitor]. [entry_prices] also holds
    the entry scores, under the keys [symbol + "_score"]. *)
Record Monitor := {
  entry_prices : gmap string Q;
  peak_prices : gmap string Q;
  recently_closed : gset string;
  daily_realized_pnl : Q
}.

(** What [check_and_exit] logs and orders, in order. *)
Inductive Event :=
  | TRAILING_STOP (symbol : string) (peak_pnl_pct pullback trail_pct : Q)
  | TAKE_PROFIT (symbol : string) (pnl_pct : Q)
  | STOP_LOSS (symbol : string) (pnl_pct : Q)
  | Position_held (symbol : string) (pnl_pct : Q)
  | Close_order_placed (symbol : string) (qty : Z) (price : Q)
  | Close_failed (symbol : string).

(** [PositionMonitor.record_entry]. *)
Definition record_entry (m : Monitor) (option_symbol : string) (entry_price score : Q)
    : Monitor :=
  {| entry_prices :=
       <[(option_symbol +:+ "_score") := score]>
         (<[option_symbol := entry_price]> (entry_prices m));
     peak_prices := <[option_symbol := entry_price]> (peak_prices m);
     recently_closed := recently_closed m;
     daily_realized_pnl := daily_realized_pnl m |}.

(** [PositionMonitor._dynamic_tp_sl]. *)
Definition _dynamic_tp_sl (signal_score : Q) : Q * Q :=
  if Qleb 16 signal_score then (45, 33)
  else if Qleb 14 signal_score then (42, 33)
  else (38, 33).

(** The trail distance chosen once the peak gain is at least 20%. *)
Definition trail_pct_for (peak_pnl_pct : Q) : Q :=
  if Qleb 45 peak_pnl_pct then 7
  else if Qleb 30 peak_pnl_pct then 10
  else 15.

(** [PositionMonitor._close_position]. *)
Definition _close_position (W : World) (m : Monitor) (option_symbol : string)
    (qty : Z) (bid : Q) : Monitor * list Event :=
  if place_order_ok W option_symbol then
    let entry_price := default bid (entry_prices m !! option_symbol) in
    let total_pnl := (bid - entry_price) * 100 * inject_Z qty in
    ({| entry_prices :=
          delete (option_symbol +:+ "_score") (delete option_symbol (entry_prices m));
        peak_prices := delete option_symbol (peak_prices m);
        recently_closed :=
          match match_ticker option_symbol with
          | Some t => {[ t ]} ∪ recently_closed m
          | None => recently_closed m
          end;
        daily_realized_pnl := daily_realized_pnl m + total_pnl |},
     [Close_order_placed option_symbol qty (py_round2 (bid * (98#100)))])
  else (m, [Close_failed option_symbol]).

(** The peak stored for the position after the update with the
    current bid. *)
Definition updated_peak (m : Monitor) (symbol : string) (entry_price current_bid : Q) : Q :=
  let peak := default entry_price (peak_prices m !! symbol) in
  if Qltb peak current_bid then current_bid else peak.

(** The entry price [check_and_exit] derives from a broker position. *)
Definition entry_price_of (pos : Position) : Q :=
  if (0 <? p_quantity pos)%Z
  then p_cost_basis pos / (inject_Z (p_quantity pos) * 100) else 0.

(** The body of the loop of [check_and_exit] for one position. [None]
    is an exception of the quote request, which ends the whole loop. *)
Definition check_position (W : World) (m : Monitor) (pos : Position)
    : option (Monitor * list Event) :=
  let symbol := p_symbol pos in
  let qty := p_quantity pos in
  let entry_price := entry_price_of pos in
  current_bid ← quote_bid W symbol;
  if Qleb entry_price 0 || Qleb current_bid 0 then Some (m, [])
  else
    let pnl_pct := (current_bid - entry_price) / entry_price * 100 in
    let sig_score := default 13 (entry_prices m !! (symbol +:+ "_score")) in
    let '(tp_pct, sl_pct) := _dynamic_tp_sl sig_score in
    let peak := updated_peak m symbol entry_price current_bid in
    let m := {| entry_prices := entry_prices m;
                peak_prices := <[symbol := peak]> (peak_prices m);
                recently_closed := recently_closed m;
                daily_realized_pnl := daily_realized_pnl m |} in
    let peak_pnl_pct := (peak - entry_price) / entry_price * 100 in
    let trail_pct := trail_pct_for peak_pnl_pct in
    let pullback_from_peak := (peak - current_bid) / peak * 100 in
    if Qleb 20 peak_pnl_pct && Qleb trail_pct pullback_from_peak then
      let '(m, evs) := _close_position W m symbol qty current_bid in
      Some (m, TRAILING_STOP symbol peak_pnl_pct pullback_from_peak trail_pct :: evs)
    else if Qleb tp_pct pnl_pct then
      let '(m, evs) := _close_position W m symbol qty current_bid in
      Some (m, TAKE_PROFIT symbol pnl_pct :: evs)
    else if Qleb pnl_pct (- sl_pct) then
      let '(m, evs) := _close_position W m symbol qty current_bid in
      Some (m, STOP_LOSS symbol pnl_pct :: evs)
    else Some (m, [Position_held symbol pnl_pct]).

(** The [for pos in positions] loop; an exception keeps what was done
    so far. *)
Fixpoint check_positions (W : World) (m : Monitor) (l : list Position)
    : Monitor * list Event :=
  match l with
  | [] => (m, [])
  | pos :: l' =>
      match check_position W m pos with
      | None => (m, [])
      | Some (m', evs) =>
          let '(m'', evs') := check_positions W m' l' in (m'', evs ++ evs')
      end
  end.

(** [PositionMonitor.check_and_exit]. *)
Definition check_and_exit (W : World) (m : Monitor) : Monitor * list Event :=
  match positions W with
  | Pos_list l => check_positions W m l
  | Pos_error | Pos_not_dict | Pos_null => (m, [])
  end.

End WithConfig.

End Agent.

Import SignalEngine Agent.

(** * Vocabulary of the properties *)

(** How many of the given directions are the vote [d]. *)
Definition agreeing (d : Direction) (ds : list (option Direction)) : nat :=
  length (filter (fun x => x = Some d) ds).

(** An event that is not a trailing stop. *)
Definition not_trailing (e : Event) : Prop :=
  match e with TRAILING_STOP _ _ _ _ => False | _ => True end.

(** An event that only reports the closing order. *)
Definition closing (e : Event) : Prop :=
  match e with Close_order_placed _ _ _ | Close_failed _ => True | _ => False end.

(** A call of one of the two checking methods of the risk manager. *)
Inductive RiskCall :=
  | CheckDailyLoss (W : World) (current_capital : Q)
  | CanTrade (W : World) (trade : TradeCandidate) (available_capital : Q) (regime : Regime).

Definition call_day (c : RiskCall) : Z :=
  match c with
  | CheckDailyLoss W _ => today W
  | CanTrade W _ _ _ => today W
  end.

Definition run_call (cfg : Config) (st : RiskState) (c : RiskCall)
    : RiskState * (bool * RiskReason) :=
  match c with
  | CheckDailyLoss W capital => check_daily_loss_limit cfg W st capital
  | CanTrade W trade capital regime => can_trade cfg W st trade capital regime
  end.

(** A sequence of calls on one risk manager, with what each returns. *)
Fixpoint run_calls (cfg : Config) (st : RiskState) (cs : list RiskCall)
    : RiskState * list (bool * RiskReason) :=
  match cs with
  | [] => (st, [])
  | c :: cs' =>
      let '(st', r) := run_call cfg st c in
      let '(st'', rs) := run_calls cfg st' cs' in
      (st'', r :: rs)
  end.

(** The denial with the kill-switch reason: [check_daily_loss_limit]
    reports it as [killed = True], [can_trade] as [False]. *)
Definition kill_switch_denial (c : RiskCall) (r : bool * RiskReason) : Prop :=
  match c with
  | CheckDailyLoss _ _ => r = (true, KILL_SWITCH_ACTIVE)
  | CanTrade _ _ _ _ => r = (false, KILL_SWITCH_ACTIVE)
  end.

(** * Worked scenarios *)

Module Scenario.

(** A liquid TSLA call, slightly out of the money. *)
Definition tsla_call : OptionQuote :=
  {| o_option_type := "call"; o_symbol := "TSLA250117C00255000";
     o_strike := 255; o_ask := 1; o_bid := 95#100; o_delta := 4#10 |}.

(** A mid-morning world on day 1: a broker without balances, no open
    positions, expiries today and in a week, the call in the chain. *)
Definition morning : World :=
  {| today := 1; hour := 10; minute := 0;
     balances := Bal_error;
     positions := Pos_list [];
     expirations := fun _ => Some [8; 1]%Z;
     options_chain := fun _ _ => Some [tsla_call];
     quote_bid := fun _ => Some (27#10);
     place_order_ok := fun _ => true |}.

(** A live account (not the sandbox). *)
Definition live : Config :=
  {| sandbox := false; capital_limit := 500; max_trade_size := Some 125;
     min_capital_to_trade := 20; max_contract_price := 3;
     min_days_to_expiry := 0; min_signal_score := 13 |}.

(** The world of a live account on [day] with total equity [equity]. *)
Definition with_equity (day : Z) (equity : Q) : World :=
  {| today := day; hour := 10; minute := 0;
     balances := Bal_dict {| total_equity := Some equity; total_cash := None;
                             cash_available := None |};
     positions := Pos_list [];
     expirations := fun _ => None;
     options_chain := fun _ _ => None;
     quote_bid := fun _ => None;
     place_order_ok := fun _ => true |}.

(** A CALL signal on TSLA at 250 with the given composite score. *)
Definition call_signal (score : Q) : Signal :=
  {| sig_ticker := "TSLA"; sig_direction := Some CALL; sig_score := score;
     sig_price := 250; sig_confluence := 4; sig_regime_aligned := false;
     sig_vol_pct := Some 2; sig_timeframe_scores := (10, 10, 10)%Z;
     sig_reasons := []; sig_insider_bonus := None; sig_catalyst_bonus := None |}.

(** The one-contract candidate for that signal. *)
Definition one_call (score : Q) : TradeCandidate :=
  {| tc_ticker := "TSLA"; tc_direction := Some CALL;
     tc_option_symbol := "TSLA250117C00255000"; tc_strike := 255; tc_expiry := 1;
     tc_ask := 1; tc_bid := 95#100; tc_delta := 4#10;
     tc_contracts := 1; tc_total_cost := 100; tc_signal := call_signal score |}.

(** A manager that took its snapshot of 1000 on day 1. *)
Definition day1_from_1000 : RiskState :=
  {| _start_of_day_capital := Some 1000; _last_reset_date := Some 1%Z;
     _killed_today := false |}.

(** A position entered at 2.00 on a score of 17 whose bid has peaked at
    3.00, a peak gain of 50%, well inside the tightest trail tier. *)
Definition after_peak : Monitor :=
  {| entry_prices := <[("TSLA250117C00255000_score")%string := 17]>
                       (<[("TSLA250117C00255000")%string := 2]> ∅);
     peak_prices := <[("TSLA250117C00255000")%string := 3]> ∅;
     recently_closed := ∅;
     daily_realized_pnl := 0 |}.

Definition held_call : Position :=
  {| p_symbol := "TSLA250117C00255000"; p_quantity := 1; p_cost_basis := 200 |}.

(** Kernels that see thirty equal bars of TSLA and nothing else, with a
    rising RSI and an accelerating histogram. *)
Definition flat_bar : Bar :=
  {| Open := 250; High := 250; Low := 250; Close := 250; Volume := 1000 |}.

Definition tsla_only : Kernels :=
  {| _fetch := fun ticker _ _ =>
       if bool_decide (ticker = "TSLA"%string) then Some (repeat flat_bar 30) else None;
     _rsi := fun _ => [Some 65; Some 72];
     _macd_histogram := fun _ => [Some 1; Some 2; Some 3];
     _detect_squeeze := fun _ _ _ _ =>
       Some {| in_squeeze := false; breakout := false; sq_direction := CALL;
               strength := Some 0 |};
     _obv := fun _ _ => [Some 1];
     _atr := fun _ => [Some 5];
     _vwap := fun _ => [Some 250];
     rolling_mean := fun _ s => s |}.

(** One large insider purchase of TSLA by its CEO and earnings
    tomorrow. *)
Definition tsla_news : Feeds :=
  {| insider_aggregated :=
       [{| InsiderTracker.a_ticker := "TSLA";
           InsiderTracker.a_total_buy_value := 600000;
           InsiderTracker.a_filing_count := 2;
           InsiderTracker.a_roles := ["CEO"%string] |}];
     _has_liquid_options := fun _ => true;
     earnings_dates := fun ticker =>
       if bool_decide (ticker = "TSLA"%string) then Some 1%Z else None;
     gap_quotes := fun _ => None |}.

End Scenario.

(** * Further parts of the code *)

(** ** agent.py: available capital, open tickers, the trading cycle *)

Module Cycle.

(** The ["cash"] entry of the balances dict: absent, a dict with or
    without ["cash_available"], or something that is not a dict. *)
Inductive CashField :=
  | Cash_absent
  | Cash_dict (cash_available : option Q)
  | Cash_other.

(** [RiskManager.get_available_capital]. An absent ["cash"] entry is
    read as the empty dict, whose [get] gives the capital limit. *)
Definition get_available_capital (cfg : Config) (W : World) (cash : CashField) : Q :=
  if sandbox cfg then capital_limit cfg
  else
    match balances W with
    | Bal_dict b =>
        match cash with
        | Cash_absent => capital_limit cfg
        | Cash_dict c => default (capital_limit cfg) c
        | Cash_other =>
            match total_cash b with
            | Some total => total
            | None => default 0 (Agent.cash_available b)
            end
        end
    | Bal_not_dict | Bal_error => capital_limit cfg
    end.

(** [RiskManager.get_open_tickers]. *)
Definition get_open_tickers (W : World) : gset string :=
  match positions W with
  | Pos_list l => list_to_set (omap (fun p => match_ticker (p_symbol p)) l)
  | Pos_error | Pos_not_dict | Pos_null => ∅
  end.

(** The attributes of an [OptionsAgent] that a cycle changes. *)
Record AgentState := {
  ag_risk : RiskState;
  ag_monitor : Monitor;
  ag_trades_today : list TradeCandidate;
  ag_ticker_cooldown : gmap string Q
}.

(** What the agent meets during one cycle: the broker's answer at each
    request (they may differ from one request to the next), the market
    data and the clock. [closed_at] is the timestamp at which the
    cooldown of a closed ticker is set, [now_ts] the one taken before
    the contract selection. *)
Record CycleWorld := {
  at_monitor : World;
  closed_at : string -> Q;
  at_capital : World;
  cash_field : CashField;
  at_limit : World;
  kernels : Kernels;
  feeds : Feeds;
  at_open_tickers : World;
  now_ts : Q;
  at_select : World;
  at_risk : World;
  at_order : World
}.

(** How a cycle ends. *)
Inductive Outcome :=
  | Not_enough_capital
  | No_signals
  | No_contract
  | Risk_blocked (reason : RiskReason)
  | Order_submitted (trade : TradeCandidate)
  | Order_failed (trade : TradeCandidate).

(** Step 1b of [run_once]: the cooldown of every ticker closed in this
    cycle. *)
Definition apply_cooldown (closed_at : string -> Q) (closed : gset string)
    (cooldown : gmap string Q) : gmap string Q :=
  foldr (fun ticker m => <[ticker := closed_at ticker + 400]> m) cooldown (elements closed).

(** Step 4 of [run_once]: the first signal that is neither open nor
    cooling down and for which a contract is found. *)
Fixpoint pick_trade (cfg : Config) (W : World) (open_tickers : gset string)
    (cooldown : gmap string Q) (now_ts effective_capital : Q) (sigs : list Signal)
    : option (TradeCandidate * Signal) :=
  match sigs with
  | [] => None
  | sig :: rest =>
      let ticker := sig_ticker sig in
      if bool_decide (ticker ∈ open_tickers)
      then pick_trade cfg W open_tickers cooldown now_ts effective_capital rest
      else if Qltb now_ts (default 0 (cooldown !! ticker))
      then pick_trade cfg W open_tickers cooldown now_ts effective_capital rest
      else
        match select_contract cfg W sig effective_capital with
        | Some t => Some (t, sig)
        | None => pick_trade cfg W open_tickers cooldown now_ts effective_capital rest
        end
  end.

(** The effective capital of a cycle: the smaller of the available
    capital and the dynamic capital limit. *)
Definition effective_capital (cfg : Config) (C : CycleWorld) : Q :=
  Qmin (get_available_capital cfg (at_capital C) (cash_field C))
       (_dynamic_capital_limit cfg (at_limit C)).

(** [OptionsAgent.run_once]: the new state, what the position monitor
    logged and how the cycle ended. *)
Definition run_once (cfg : Config) (C : CycleWorld) (a : AgentState)
    : AgentState * list Event * Outcome :=
  (* 1. monitor existing positions *)
  let '(m, evs) := check_and_exit (at_monitor C) (ag_monitor a) in
  (* 1b. cooldown for recently closed tickers *)
  let cooldown := apply_cooldown (closed_at C) (recently_closed m) (ag_ticker_cooldown a) in
  let m := {| entry_prices := entry_prices m;
              peak_prices := peak_prices m;
              recently_closed := ∅;
              daily_realized_pnl := daily_realized_pnl m |} in
  let a1 := {| ag_risk := ag_risk a; ag_monitor := m;
               ag_trades_today := ag_trades_today a;
               ag_ticker_cooldown := cooldown |} in
  (* 2. available capital *)
  let effective_capital := effective_capital cfg C in
  if Qltb effective_capital (min_capital_to_trade cfg) then (a1, evs, Not_enough_capital)
  else
    (* 3. scan for signals *)
    let '(regime, top_signals) :=
      get_top_signals (kernels C) (feeds C) (min_signal_score cfg) in
    if bool_decide (top_signals = []) then (a1, evs, No_signals)
    else
      (* 4. select the best contract *)
      let open_tickers := get_open_tickers (at_open_tickers C) in
      match pick_trade cfg (at_select C) open_tickers cooldown (now_ts C)
              effective_capital top_signals with
      | None => (a1, evs, No_contract)
      | Some (trade, best_signal) =>
          (* 5. risk check *)
          let '(risk, (ok, reason)) :=
            can_trade cfg (at_risk C) (ag_risk a) trade effective_capital regime in
          let a2 := {| ag_risk := risk; ag_monitor := m;
                       ag_trades_today := ag_trades_today a;
                       ag_ticker_cooldown := cooldown |} in
          if negb ok then (a2, evs, Risk_blocked reason)
          else
            (* 6. execute *)
            if place_order_ok (at_order C) (tc_option_symbol trade) then
              ({| ag_risk := risk;
                  ag_monitor := record_entry m (tc_option_symbol trade) (tc_ask trade)
                                  (sig_score best_signal);
                  ag_trades_today := ag_trades_today a ++ [trade];
                  ag_ticker_cooldown := cooldown |},
               evs, Order_submitted trade)
            else (a2, evs, Order_failed trade)
      end.

(** Cycle after cycle, as [run_loop] runs them. *)
Fixpoint run_cycles (cfg : Config) (Cs : list CycleWorld) (a : AgentState)
    : AgentState * list Outcome :=
  match Cs with
  | [] => (a, [])
  | C :: Cs' =>
      let '(a', _, o) := run_once cfg C a in
      let '(a'', os) := run_cycles cfg Cs' a' in
      (a'', o :: os)
  end.

(** The state [OptionsAgent.__init__] sets, for a monitor that loaded
    no entry prices. *)
Definition agent_init : AgentState :=
  {| ag_risk := risk_init;
     ag_monitor := {| entry_prices := ∅; peak_prices := ∅;
                      recently_closed := ∅; daily_realized_pnl := 0 |};
     ag_trades_today := [];
     ag_ticker_cooldown := ∅ |}.

(** A string of the capitals A to Z only. *)
Fixpoint all_capitals (s : string) : bool :=
  match s with
  | EmptyString => true
  | String c s' =>
      let n := nat_of_ascii c in
      (65 <=? n)%nat && (n <=? 90)%nat && all_capitals s'
  end.

(** Whether a string starts with a capital. *)
Definition starts_with_capital (s : string) : bool :=
  match s with
  | EmptyString => false
  | String c _ => let n := nat_of_ascii c in (65 <=? n)%nat && (n <=? 90)%nat
  end.

(** The [market_open] test of [run_loop]. *)
Definition market_open (hour minute : Z) : bool :=
  ((hour =? 9)%Z && (30 <=? minute)%Z)
  || ((10 <=? hour)%Z && (hour <=? 14)%Z)
  || ((hour =? 15)%Z && (minute <=? 45)%Z).

(** What one turn of [run_loop] does at a given Eastern weekday
    (Monday is 0) and time. *)
Inductive LoopAction := Sleep_weekend | Sleep_closed | Run_cycle.

Definition loop_action (weekday hour minute : Z) : LoopAction :=
  if (5 <=? weekday)%Z then Sleep_weekend
  else if negb (market_open hour minute) then Sleep_closed
  else Run_cycle.

End Cycle.

(** Cycles of the worked scenarios. *)
Module CycleScenario.
Import Cycle.

(** A calm mid-morning cycle: TSLA is the one signal, nothing is open. *)
Definition calm : CycleWorld :=
  {| at_monitor := Scenario.morning;
     closed_at := fun _ => 1000;
     at_capital := Scenario.morning;
     cash_field := Cash_absent;
     at_limit := Scenario.morning;
     kernels := Scenario.tsla_only;
     feeds := Scenario.tsla_news;
     at_open_tickers := Scenario.morning;
     now_ts := 1001;
     at_select := Scenario.morning;
     at_risk := Scenario.morning;
     at_order := Scenario.morning |}.

(** The broker reports the TSLA call as the one open position. *)
Definition holding : World :=
  {| today := 1; hour := 10; minute := 0;
     balances := Bal_error;
     positions := Pos_list [Scenario.held_call];
     expirations := fun _ => Some [8; 1]%Z;
     options_chain := fun _ _ => Some [Scenario.tsla_call];
     quote_bid := fun _ => Some (27#10);
     place_order_ok := fun _ => true |}.

(** A cycle that starts with that position, which the trailing stop
    closes; afterwards the broker reports no position. *)
Definition closing_cycle : CycleWorld :=
  {| at_monitor := holding;
     closed_at := fun _ => 1000;
     at_capital := Scenario.morning;
     cash_field := Cash_absent;
     at_limit := Scenario.morning;
     kernels := Scenario.tsla_only;
     feeds := Scenario.tsla_news;
     at_open_tickers := Scenario.morning;
     now_ts := 1001;
     at_select := Scenario.morning;
     at_risk := Scenario.morning;
     at_order := Scenario.morning |}.

(** The agent that holds the position entered at 2.00 with peak 3.00. *)
Definition holder : AgentState :=
  {| ag_risk := risk_init;
     ag_monitor := Scenario.after_peak;
     ag_trades_today := [];
     ag_ticker_cooldown := ∅ |}.

End CycleScenario.


(** ** Vocabulary of the further properties *)

Module CycleProps.
Import Cycle.

(** The risk states a sandbox agent is in between cycles: not latched,
    and a morning snapshot, if taken, equal to the capital limit. *)
Definition sandbox_risk (cfg : Config) (st : RiskState) : Prop :=
  _killed_today st = false /\
  forall start, _start_of_day_capital st = Some start -> start == capital_limit cfg.

(** A cycle that did not end on the kill switch. *)
Definition not_killed (o : Outcome) : Prop :=
  match o with
  | Risk_blocked reason => kill_switch_reason reason = false
  | _ => True
  end.

End CycleProps.

(** The vocabulary of the scoring. *)
Module SignalProps.

(** One indicator of [_score_timeframe] seen as a step on the tally: it
    adds at most [n] points and at most one vote, and a vote comes with
    at least one point. *)
Definition indicator_step (n : Z) (t t' : Tally) : Prop :=
  (t_score t <= t_score t' <= t_score t + n)%Z /\
  (t_directions t' = t_directions t \/
   exists d, t_directions t' = t_directions t ++ [d] /\ (t_score t + 1 <= t_score t')%Z).

(** The sort key of [get_top_signals]: [x] ranks at least as high as
    [y]. *)
Definition ranks_above (x y : Signal) : Prop := signal_lt x y = false.

(** A series of closes that rises, or falls, from each bar to the
    next. *)
Fixpoint rising_from (x : Q) (l : list Q) : Prop :=
  match l with
  | [] => True
  | y :: l' => x < y /\ rising_from y l'
  end.

Fixpoint falling_from (x : Q) (l : list Q) : Prop :=
  match l with
  | [] => True
  | y :: l' => y < x /\ falling_from y l'
  end.

End SignalProps.

(** The vocabulary of the contract selection. *)
Module SelectorProps.

(** The strike [select_contract] aims at: 2% out of the money, rounded
    to a multiple of 5. *)
Definition target_strike (signal : Signal) : Q :=
  let strike_offset :=
    if bool_decide (sig_direction signal = Some CALL) then 102#100 else 98#100 in
  inject_Z (py_round (sig_price signal * strike_offset / 5) * 5).

(** A contract none of the three filters of the selection loop skips. *)
Definition admissible (cfg : Config) (opt : OptionQuote) : Prop :=
  let mid := (o_ask opt + o_bid opt) / 2 in
  (0 < o_ask opt /\ o_ask opt <= max_contract_price cfg) /\
  (2#10 <= Qabs (o_delta opt) /\ Qabs (o_delta opt) <= 7#10) /\
  (0 < mid -> (o_ask opt - o_bid opt) / mid <= 2#10).

(** A contract of the side of the direction. *)
Definition on_side (d : Direction) (opt : OptionQuote) : Prop :=
  lower (o_option_type opt) = lower (direction_name d).

(** The distance of a strike to the target. *)
Definition strike_distance (signal : Signal) (opt : OptionQuote) : Q :=
  Qabs (o_strike opt - target_strike signal).

End SelectorProps.

(** SPY over three rising days. *)
Module RegimeScenario.

Definition day (close : Q) : Bar :=
  {| Open := close; High := close; Low := close; Close := close; Volume := 1000 |}.

Definition spy_rising : Kernels :=
  {| _fetch := fun ticker _ _ =>
       if bool_decide (ticker = "SPY"%string) then Some [day 500; day 505; day 512]
       else None;
     _rsi := fun _ => [];
     _macd_histogram := fun _ => [];
     _detect_squeeze := fun _ _ _ _ => None;
     _obv := fun _ _ => [];
     _atr := fun _ => [];
     _vwap := fun _ => [];
     rolling_mean := fun _ s => s |}.

End RegimeScenario.

(** TSLA gaps up 6% on usual volume; the timeframes voted PUT. *)
Module GapScenario.

Definition tsla_gap_up : Feeds :=
  {| insider_aggregated := [];
     _has_liquid_options := fun _ => true;
     earnings_dates := fun _ => None;
     gap_quotes := fun ticker =>
       if bool_decide (ticker = "TSLA"%string) then Some (250, 265, 1) else None |}.

Definition put_signal : Signal :=
  {| sig_ticker := "TSLA"; sig_direction := Some PUT; sig_score := 14;
     sig_price := 265; sig_confluence := 2; sig_regime_aligned := false;
     sig_vol_pct := Some 2; sig_timeframe_scores := (10, 10, 10)%Z;
     sig_reasons := []; sig_insider_bonus := None; sig_catalyst_bonus := None |}.

End GapScenario.

(** Further cycles of the worked scenarios. *)
Module CycleScenario2.
Import Cycle.

(** The calm cycle with an AAPL put reported open. *)
Definition aapl_put : Position :=
  {| p_symbol := "AAPL250117P00200000"; p_quantity := 1; p_cost_basis := 150 |}.

Definition with_aapl_open : CycleWorld :=
  {| at_monitor := Scenario.morning;
     closed_at := fun _ => 1000;
     at_capital := Scenario.morning;
     cash_field := Cash_absent;
     at_limit := Scenario.morning;
     kernels := Scenario.tsla_only;
     feeds := Scenario.tsla_news;
     at_open_tickers :=
       {| today := today Scenario.morning; hour := hour Scenario.morning;
          minute := minute Scenario.morning; balances := balances Scenario.morning;
          positions := Pos_list [aapl_put];
          expirations := expirations Scenario.morning;
          options_chain := options_chain Scenario.morning;
          quote_bid := quote_bid Scenario.morning;
          place_order_ok := place_order_ok Scenario.morning |};
     now_ts := 1001;
     at_select := Scenario.morning;
     at_risk := Scenario.morning;
     at_order := Scenario.morning |}.

End CycleScenario2.

(** ** insider_tracker.py: from the filings of the day to the aggregate *)

Module InsiderFilings.
Import InsiderTracker.

(** What [get_todays_insider_buys] reads of the dict [_parse_form4]
    returns: the issuer's ticker, the officer title and the purchases
    as pairs of shares and price. *)
Record Parsed := {
  pf_ticker : string;
  pf_role : string;
  pf_buys : list (Q * Q)
}.

(** [sum(b["value"] for b in buys)], with [value = shares * price]. *)
Definition total_buy_value (p : Parsed) : Q :=
  foldr (fun b acc => b.1 * b.2 + acc) 0 (pf_buys p).

(** [roles.add(role)]; the list stands for the set. *)
Definition add_role (role : string) (roles : list string) : list string :=
  if bool_decide (role ∈ roles) then roles else roles ++ [role].

(** The update of [aggregated[ticker]], created with zero value and
    count when the ticker is new; the dict keeps its insertion order. *)
Fixpoint upsert (ticker : string) (val : Q) (role : string) (agg : list Aggregated)
    : list Aggregated :=
  match agg with
  | [] =>
      [{| a_ticker := ticker; a_total_buy_value := 0 + val;
          a_filing_count := 0 + 1; a_roles := add_role role [] |}]
  | d :: rest =>
      if bool_decide (a_ticker d = ticker) then
        {| a_ticker := a_ticker d;
           a_total_buy_value := a_total_buy_value d + val;
           a_filing_count := a_filing_count d + 1;
           a_roles := add_role role (a_roles d) |} :: rest
      else d :: upsert ticker val role rest
  end.

Section Aggregate.
(** The CIK to ticker map of the SEC and the parser, [None] standing
    for its [None] and for an exception of the loop body. *)
Variable ticker_map : gmap string string.
Variable _parse_form4 : string -> string -> option Parsed.

(** The body of the loop over the filings. *)
Definition aggregate_one (aggregated : list Aggregated) (filing : string * string)
    : list Aggregated :=
  let '(cik, accession) := filing in
  match _parse_form4 cik accession with
  | None => aggregated
  | Some parsed =>
      if bool_decide (pf_buys parsed = []) then aggregated
      else
        let ticker :=
          if bool_decide (pf_ticker parsed = EmptyString)
          then default EmptyString (ticker_map !! cik) else pf_ticker parsed in
        if bool_decide (ticker = EmptyString) || (6 <? String.length ticker)%nat
        then aggregated
        else
          let val := total_buy_value parsed in
          if Qltb val MIN_BUY_VALUE then aggregated
          else upsert ticker val (pf_role parsed) aggregated
  end.

(** The [aggregated] dict after the loop over at most 300 filings. *)
Definition aggregate (filings : list (string * string)) : list Aggregated :=
  foldl aggregate_one [] (take 300 filings).

(** [get_todays_insider_buys] on a day without cached result. *)
Definition todays_insider_buys (filings : list (string * string)) : list InsiderBuy :=
  if bool_decide (filings = []) then []
  else get_todays_insider_buys (aggregate filings).

End Aggregate.

(** A qualifying aggregate: at least one filing, each of at least
    $50,000, under a ticker of one to six characters. *)
Definition qualifying (d : Aggregated) : Prop :=
  (1 <= a_filing_count d)%Z /\
  MIN_BUY_VALUE * inject_Z (a_filing_count d) <= a_total_buy_value d /\
  a_ticker d <> EmptyString /\ (String.length (a_ticker d) <= 6)%nat.

(** Two filings of the day for the scenario. *)
Definition two_filings : list (string * string) :=
  [("0001318605", "0001-24-000001"); ("0001318605", "0001-24-000002")]%string.

Definition tsla_parser (cik accession : string) : option Parsed :=
  if bool_decide (cik = "0001318605"%string)
  then Some {| pf_ticker := ""; pf_role := "CEO"; pf_buys := [(1000, 300)] |}
  else None.

Definition tsla_ciks : gmap string string := {[ "0001318605"%string := "TSLA"%string ]}.

End InsiderFilings.

(** ** report.py: the statistics of the trade log *)

Module Report.

(** The ["signal"] entry of a line of [trades.json] when it is a dict,
    with the three entries [analyze_trades] reads. *)
Record SignalEntry := {
  s_score : option Q;
  s_insider_bonus : option Q;
  s_catalyst_bonus : option Q
}.

(** One line of [trades.json] as [load_trades] parses it: the entries
    [analyze_trades] computes its numbers from, and the top-level
    score. An absent entry is [None]; [r_signal] is [None] also for an
    entry that is not a dict. *)
Record TradeLine := {
  r_total_cost : option Q;
  r_contracts : option Z;
  r_score : option Q;
  r_signal : option SignalEntry
}.

(** The line [run_once] appends to [trades.json] for a submitted
    order: the entries of the trade without ["signal"], then the
    score, the direction and the time. *)
Definition log_line (trade : TradeCandidate) (score : Q) : TradeLine :=
  {| r_total_cost := Some (tc_total_cost trade);
     r_contracts := Some (tc_contracts trade);
     r_score := Some score;
     r_signal := None |}.

Definition sum_Q (l : list Q) : Q := foldr Qplus 0 l.

(** [sum(l) / len(l) if l else 0] *)
Definition mean_or_0 (l : list Q) : Q :=
  if bool_decide (l = []) then 0 else sum_Q l / inject_Z (Z.of_nat (length l)).

(** The numbers of the dict [analyze_trades] returns (the counts by
    ticker, date and direction are left out). *)
Record TradeStats := {
  total_trades : nat;
  total_deployed : Q;
  avg_score : Q;
  avg_trade_cost : Q;
  avg_contracts : Q;
  insider_helped : nat;
  catalyst_helped : nat;
  avg_insider_bonus : Q;
  avg_catalyst_bonus : Q
}.

(** [analyze_trades]; [None] is the empty dict returned for no
    trades. *)
Definition analyze_trades (trades : list TradeLine) : option TradeStats :=
  if bool_decide (trades = []) then None
  else
    let signals := omap r_signal trades in
    let scores := map (fun s => default 0 (s_score s)) signals in
    let insider_bonuses := map (fun s => default 0 (s_insider_bonus s)) signals in
    let catalyst_bonuses := map (fun s => default 0 (s_catalyst_bonus s)) signals in
    let costs := map (fun t => default 0 (r_total_cost t)) trades in
    let n := inject_Z (Z.of_nat (length trades)) in
    Some {| total_trades := length trades;
            total_deployed := sum_Q costs;
            avg_score := mean_or_0 scores;
            avg_trade_cost := sum_Q costs / n;
            avg_contracts :=
              inject_Z (foldr Z.add 0%Z (map (fun t => default 1%Z (r_contracts t)) trades)) / n;
            insider_helped := length (filter (fun b => Qltb 0 b = true) insider_bonuses);
            catalyst_helped := length (filter (fun b => Qltb 0 b = true) catalyst_bonuses);
            avg_insider_bonus := mean_or_0 insider_bonuses;
            avg_catalyst_bonus := mean_or_0 catalyst_bonuses |}.

End Report.

(** ** congress_tracker.py: the scores of the disclosed trades *)

Module CongressTracker.

Definition NOTABLE_TRADERS : list string :=
  ["Nancy Pelosi"; "Paul Pelosi"; "Dan Crenshaw"; "Tommy Tuberville";
   "David Rouzer"; "Markwayne Mullin"; "Josh Gottheimer"; "Brian Higgins";
   "Michael McCaul"; "Ro Khanna"; "Pat Fallon"]%string.

(** One dict of the list [get_all_trades] returns. *)
Record Trade := {
  tr_source : string;
  tr_name : string;
  tr_ticker : string;
  tr_type : string;
  tr_amount : string;
  tr_date : string
}.

(** One entry of the [buys] and [sells] lists. *)
Record Entry := {
  e_name : string;
  e_source : string;
  e_amount : Q;
  e_date : string
}.

(** One value of the [ticker_data] dict, with its key. *)
Record TickerData := {
  td_ticker : string;
  td_buys : list Entry;
  td_sells : list Entry;
  td_members : gset string;
  td_senators : gset string;
  td_notable : gset string
}.

(** The value the [defaultdict] creates. *)
Definition no_data (ticker : string) : TickerData :=
  {| td_ticker := ticker; td_buys := []; td_sells := [];
     td_members := ∅; td_senators := ∅; td_notable := ∅ |}.

(** [f] applied to [ticker_data[ticker]], created when the ticker is
    new; the dict keeps its insertion order. *)
Fixpoint update_data (ticker : string) (f : TickerData -> TickerData)
    (data : list TickerData) : list TickerData :=
  match data with
  | [] => [f (no_data ticker)]
  | d :: rest =>
      if bool_decide (td_ticker d = ticker) then f d :: rest
      else d :: update_data ticker f rest
  end.

(** The reasons of a score. *)
Inductive CongressReason :=
  | R_members_bought (member_count : nat) (val : Q)
  | R_members_same_stock (member_count : nat)
  | R_senators
  | R_high_profile
  | R_congress_selling.

(** One value of the dict [get_congress_scores] returns, with its
    ticker. *)
Record CongressScore := {
  cs_ticker : string;
  cs_score : Z;
  cs_reasons : list CongressReason;
  cs_buys : list Entry;
  cs_sells : list Entry;
  cs_members : list string;
  cs_direction : Direction
}.

Section Scores.
(** The string functions of Python that the loop applies:
    [_parse_amount], [s.upper().strip()] and [s.isalpha()]. *)
Variable _parse_amount : string -> Q.
Variable upper_strip : string -> string.
Variable isalpha : string -> bool.

Definition is_buy (trade_type : string) : bool :=
  existsb (fun w => contains w trade_type) ["purchase"; "buy"; "bought"]%string.

Definition is_sell (trade_type : string) : bool :=
  existsb (fun w => contains w trade_type) ["sale"; "sell"; "sold"]%string.

(** The body of the loop over the trades; [tickers] is empty when the
    argument is [None]. *)
Definition add_trade (tickers : list string) (ticker_data : list TickerData)
    (trade : Trade) : list TickerData :=
  let ticker := upper_strip (tr_ticker trade) in
  if bool_decide (ticker = EmptyString) || (6 <? String.length ticker)%nat
     || negb (isalpha ticker)
  then ticker_data
  else if negb (bool_decide (tickers = [])) && negb (bool_decide (ticker ∈ tickers))
  then ticker_data
  else
    let trade_type := lower (tr_type trade) in
    if negb (is_buy trade_type) && negb (is_sell trade_type) then ticker_data
    else
      let name := tr_name trade in
      let source := tr_source trade in
      let entry := {| e_name := name; e_source := source;
                      e_amount := _parse_amount (tr_amount trade);
                      e_date := tr_date trade |} in
      if is_buy trade_type then
        update_data ticker
          (fun d => {| td_ticker := td_ticker d;
                       td_buys := td_buys d ++ [entry];
                       td_sells := td_sells d;
                       td_members := {[ name ]} ∪ td_members d;
                       td_senators :=
                         if bool_decide (source = "Senate"%string)
                         then {[ name ]} ∪ td_senators d else td_senators d;
                       td_notable :=
                         if bool_decide (name ∈ NOTABLE_TRADERS)
                         then {[ name ]} ∪ td_notable d else td_notable d |})
          ticker_data
      else
        update_data ticker
          (fun d => {| td_ticker := td_ticker d;
                       td_buys := td_buys d;
                       td_sells := td_sells d ++ [entry];
                       td_members := td_members d;
                       td_senators := td_senators d;
                       td_notable := td_notable d |})
          ticker_data.

(** The body of the scoring loop; [None] for a score of 0. *)
Definition score_data (data : TickerData) : option CongressScore :=
  let '(score, reasons) :=
    if negb (bool_decide (td_buys data = [])) then
      let mc := size (td_members data) in
      let val := foldr (fun b acc => e_amount b + acc) 0 (td_buys data) in
      let score := 2%Z in
      let reasons := [R_members_bought mc val] in
      let '(score, reasons) :=
        if (2 <=? mc)%nat then ((score + 1)%Z, reasons ++ [R_members_same_stock mc])
        else (score, reasons) in
      let '(score, reasons) :=
        if negb (bool_decide (td_senators data = ∅))
        then ((score + 1)%Z, reasons ++ [R_senators]) else (score, reasons) in
      if negb (bool_decide (td_notable data = ∅))
      then ((score + 1)%Z, reasons ++ [R_high_profile]) else (score, reasons)
    else if negb (bool_decide (td_sells data = [])) then ((-1)%Z, [R_congress_selling])
    else (0%Z, []) in
  if (score =? 0)%Z then None
  else
    Some {| cs_ticker := td_ticker data;
            cs_score := Z.max (Z.min score 4) (-1);
            cs_reasons := reasons;
            cs_buys := td_buys data;
            cs_sells := td_sells data;
            cs_members := elements (td_members data);
            cs_direction := if negb (bool_decide (td_buys data = [])) then CALL else PUT |}.

(** [get_congress_scores], from the trades [get_all_trades] returns:
    the values of the dict in insertion order. *)
Definition get_congress_scores (tickers : list string) (all_trades : list Trade)
    : list CongressScore :=
  if bool_decide (all_trades = []) then []
  else omap score_data (foldl (add_trade tickers) [] all_trades).

Definition score_lt (x y : CongressScore) : bool := (cs_score x <? cs_score y)%Z.

(** [get_congress_watchlist]. *)
Definition get_congress_watchlist (min_score : Z) (all_trades : list Trade)
    : list CongressScore :=
  sort_reverse score_lt
    (filter (fun v => (min_score <= cs_score v)%Z) (get_congress_scores [] all_trades)).

End Scores.

(** A ticker the loop accepts, and data the loop can have built. *)
Definition accepted (isalpha : string -> bool) (tickers : list string)
    (ticker : string) : Prop :=
  ticker <> EmptyString /\ (String.length ticker <= 6)%nat /\ isalpha ticker = true /\
  (tickers <> [] -> ticker ∈ tickers).

Definition traded (d : TickerData) : Prop := td_buys d <> [] \/ td_sells d <> [].

(** A purchase by a senator and a sale, of two tickers. *)
Definition two_trades : list Trade :=
  [{| tr_source := "Senate"; tr_name := "Tommy Tuberville"; tr_ticker := "NVDA";
      tr_type := "Purchase"; tr_amount := "$1,001 - $15,000"; tr_date := "01/02/2025" |};
   {| tr_source := "House"; tr_name := "Jane Doe"; tr_ticker := "INTC";
      tr_type := "Sale (Full)"; tr_amount := "$1,001 - $15,000";
      tr_date := "01/03/2025" |}]%string.

End CongressTracker.

Import Cycle.

(** * Properties *)

(** ** Comparisons and rounding *)

Lemma Qltb_lt a b : Qltb a b = true <-> a < b.
Proof.
  unfold Qltb. rewrite negb_true_iff.
  destruct (Qle_bool b a) eqn:E.
  - apply Qle_bool_iff in E. split; [discriminate | lra].
  - split; [intros _ | reflexivity].
    apply Qnot_le_lt. intros H. apply Qle_bool_iff in H. congruence.
Qed.

Lemma Qltb_ge a b : Qltb a b = false <-> b <= a.
Proof.
  unfold Qltb. rewrite negb_false_iff. apply Qle_bool_iff.
Qed.

Lemma Qleb_le a b : Qleb a b = true <-> a <= b.
Proof. apply Qle_bool_iff. Qed.

Lemma Qleb_gt a b : Qleb a b = false <-> b < a.
Proof.
  unfold Qleb. destruct (Qle_bool a b) eqn:E.
  - apply Qle_bool_iff in E. split; [discriminate | lra].
  - split; [intros _ | reflexivity].
    apply Qnot_le_lt. intros H. apply Qle_bool_iff in H. congruence.
Qed.

(** Case analysis on a float comparison, leaving the order fact. *)
Ltac cmp_cases :=
  repeat match goal with
  | |- context [Qltb ?a ?b] =>
      let E := fresh "E" in
      destruct (Qltb a b) eqn:E;
      [apply Qltb_lt in E | apply Qltb_ge in E]
  | |- context [Qleb ?a ?b] =>
      let E := fresh "E" in
      destruct (Qleb a b) eqn:E;
      [apply Qleb_le in E | apply Qleb_gt in E]
  end.

Lemma py_int_floor q : (0 <= Qnum q)%Z -> py_int q = Qfloor q.
Proof.
  intros H. destruct q as [n d]. simpl in *.
  unfold py_int. simpl. apply Z.quot_div_nonneg; lia.
Qed.

Lemma py_int_nonpos q : (Qnum q < 0)%Z -> (py_int q <= 0)%Z.
Proof.
  intros H. unfold py_int.
  rewrite <- (Z.opp_involutive (Qnum q)), Z.quot_opp_l by lia.
  assert (0 <= Z.quot (- Qnum q) (Z.pos (Qden q)))%Z by (apply Z.quot_pos; lia).
  lia.
Qed.

(** Where [int] gives at least 1 it is below its argument. *)
Lemma py_int_le q : (1 <= py_int q)%Z -> inject_Z (py_int q) <= q.
Proof.
  intros H. destruct (Z_lt_le_dec (Qnum q) 0) as [Hn | Hn].
  - apply py_int_nonpos in Hn. lia.
  - rewrite py_int_floor by assumption. apply Qfloor_le.
Qed.

(** Below 1, [int] gives nothing positive. *)
Lemma py_int_lt_1 q : q < 1 -> (py_int q <= 0)%Z.
Proof.
  intros H. destruct (Z_lt_le_dec (Qnum q) 0) as [Hn | Hn].
  - now apply py_int_nonpos.
  - rewrite py_int_floor by assumption.
    assert (Hf : inject_Z (Qfloor q) < inject_Z 1).
    { eapply Qle_lt_trans; [apply Qfloor_le | exact H]. }
    rewrite <- Zlt_Qlt in Hf. lia.
Qed.

Lemma py_round_int x z : x == inject_Z z -> py_round x = z.
Proof.
  intros H. unfold py_round.
  assert (Hf : Qfloor x = z) by (rewrite H; apply Qfloor_Z).
  rewrite Hf.
  assert (Hr : Qltb (x - inject_Z z) (1 # 2) = true) by (apply Qltb_lt; lra).
  now rewrite Hr.
Qed.

(** A score rounded to one decimal stays as it is when a whole bonus is
    added and the sum is rounded again. *)
Lemma py_round1_bonus x (n : Z) :
  py_round1 (py_round1 x + inject_Z n) == py_round1 x + inject_Z n.
Proof.
  unfold py_round1 at 1.
  set (k := py_round (x * 10)).
  assert (H : (py_round1 x + inject_Z n) * 10 == inject_Z (k + n * 10)).
  { unfold py_round1. fold k. rewrite inject_Z_plus, inject_Z_mult. field. }
  rewrite (py_round_int _ _ H).
  unfold py_round1. fold k. rewrite inject_Z_plus, inject_Z_mult. field.
Qed.

(** ** Timeframe scoring and confluence *)

(** C6: a price series with fewer than 30 bars, the empty one included,
    is scored 0 with no direction and no reasons, and the scorer
    returns normally. *)
Theorem score_timeframe_short_history (K : Kernels) (df : DataFrame) (label : string)
    (Hshort : (length df < 30)%nat) :
  _score_timeframe K df label =
    Some {| tf_score := 0; tf_direction := None; tf_votes := None; tf_reasons := [] |}.
Proof.
  unfold _score_timeframe.
  assert (E : (length df <? 30)%nat = true) by (apply Nat.ltb_lt; exact Hshort).
  rewrite E, orb_true_r. reflexivity.
Qed.

(** Twenty-nine bars of TSLA score nothing, whatever the kernels say. *)
Lemma score_timeframe_short_history_witness :
  (length (repeat Scenario.flat_bar 29) < 30)%nat /\
  _score_timeframe Scenario.tsla_only (repeat Scenario.flat_bar 29) "1H" =
    Some {| tf_score := 0; tf_direction := None; tf_votes := None; tf_reasons := [] |}.
Proof.
  assert (H : (length (repeat Scenario.flat_bar 29) < 30)%nat) by (cbn; lia).
  split; [exact H |].
  exact (score_timeframe_short_history Scenario.tsla_only _ "1H" H).
Defined.

(** C5: the confluence score of [score_ticker] is 4 exactly when the
    three timeframe directions are one non-NONE direction, 2 exactly
    when exactly two of the three are one non-NONE direction, and 0 in
    every other case. *)
Theorem confluence_score_exact (ticker : string) (regime : Regime)
    (s1h s15m s5m : TimeframeScore) (atr_1h : float) (price_1h : Q) :
  let ds := [tf_direction s1h; tf_direction s15m; tf_direction s5m] in
  let c := sig_confluence (blend ticker regime s1h s15m s5m atr_1h price_1h) in
  (c = 4%Z <-> exists d, agreeing d ds = 3%nat) /\
  (c = 2%Z <-> exists d, agreeing d ds = 2%nat) /\
  (c = 0%Z <-> forall d, agreeing d ds <> 3%nat /\ agreeing d ds <> 2%nat).
Proof.
  assert (Hex : forall (P : Direction -> Prop), (exists d, P d) <-> P CALL \/ P PUT).
  { intros P. split; [intros [[|] H]; auto | intros [H | H]; eauto]. }
  assert (Hall : forall (P : Direction -> Prop), (forall d, P d) <-> P CALL /\ P PUT).
  { intros P. split; [auto | intros [H1 H2] [|]; auto]. }
  cbv zeta. rewrite !Hex, Hall.
  destruct s1h as [? [[|]|] ? ?], s15m as [? [[|]|] ? ?], s5m as [? [[|]|] ? ?];
    vm_compute; intuition (discriminate || congruence).
Qed.

(** ** Equity-scaled limits *)

Lemma capital_limit_for_ge_base base balance :
  base <= capital_limit_for base balance.
Proof.
  unfold capital_limit_for. cbv zeta.
  pose proof (Q.le_max_l 0 (balance - base)). lra.
Qed.

Lemma capital_limit_for_mono base b1 b2 :
  b1 <= b2 -> capital_limit_for base b1 <= capital_limit_for base b2.
Proof.
  intros H. unfold capital_limit_for. cbv zeta.
  assert (Qmax 0 (b1 - base) <= Qmax 0 (b2 - base)).
  { apply Q.max_le_compat_l. lra. }
  lra.
Qed.

Lemma max_positions_for_mono b1 b2 :
  b1 <= b2 -> (max_positions_for b1 <= max_positions_for b2)%Z.
Proof.
  intros H. unfold max_positions_for. cmp_cases; try lia; lra.
Qed.

(** C10: the dynamic capital limit is base + 0.5 × max(0, equity −
    base); it is never below the base and never decreases when equity
    grows; the dynamic position count (3, 4 from 2500, 5 from 5000)
    never decreases when equity grows either. *)
Theorem dynamic_limits_monotone (cfg : Config) :
  (forall W,
     _dynamic_capital_limit cfg W ==
       capital_limit cfg + (1#2) * Qmax 0 (get_account_balance cfg W - capital_limit cfg)) /\
  (forall W, capital_limit cfg <= _dynamic_capital_limit cfg W) /\
  (forall W1 W2,
     get_account_balance cfg W1 <= get_account_balance cfg W2 ->
     _dynamic_capital_limit cfg W1 <= _dynamic_capital_limit cfg W2) /\
  (forall W,
     _dynamic_max_positions cfg W =
       if Qleb 5000 (get_account_balance cfg W) then 5%Z
       else if Qleb 2500 (get_account_balance cfg W) then 4%Z else 3%Z) /\
  (forall W1 W2,
     get_account_balance cfg W1 <= get_account_balance cfg W2 ->
     (_dynamic_max_positions cfg W1 <= _dynamic_max_positions cfg W2)%Z) /\
  (sandbox cfg = false -> forall equity, exists W, get_account_balance cfg W = equity).
Proof.
  repeat split.
  - intros W. unfold _dynamic_capital_limit, capital_limit_for. cbv zeta. ring.
  - intros W. apply capital_limit_for_ge_base.
  - intros W1 W2 H. now apply capital_limit_for_mono.
  - intros W1 W2 H. now apply max_positions_for_mono.
  - intros Hlive equity. exists (Scenario.with_equity 0 equity).
    unfold get_account_balance. now rewrite Hlive.
Qed.

(** A live account that grows from 1000 to 6000 sees its capital limit
    and its position count grow. *)
Lemma dynamic_limits_monotone_witness :
  get_account_balance Scenario.live (Scenario.with_equity 1 1000)
    <= get_account_balance Scenario.live (Scenario.with_equity 1 6000) /\
  _dynamic_capital_limit Scenario.live (Scenario.with_equity 1 1000)
    <= _dynamic_capital_limit Scenario.live (Scenario.with_equity 1 6000) /\
  (_dynamic_max_positions Scenario.live (Scenario.with_equity 1 1000)
    <= _dynamic_max_positions Scenario.live (Scenario.with_equity 1 6000))%Z.
Proof.
  assert (H : get_account_balance Scenario.live (Scenario.with_equity 1 1000)
              <= get_account_balance Scenario.live (Scenario.with_equity 1 6000))
    by (vm_compute; discriminate).
  destruct (dynamic_limits_monotone Scenario.live) as (_ & _ & Hcap & _ & Hpos & _).
  split; [exact H |]. split; [exact (Hcap _ _ H) | exact (Hpos _ _ H)].
Defined.

(** ** Trailing stop *)

Lemma trail_pct_for_table g :
  (45 <= g -> trail_pct_for g = 7) /\
  (30 <= g -> g < 45 -> trail_pct_for g = 10) /\
  (g < 30 -> trail_pct_for g = 15).
Proof.
  unfold trail_pct_for. repeat split; intros; cmp_cases; try reflexivity; lra.
Qed.

Lemma close_position_closing W m symbol qty bid :
  Forall closing (_close_position W m symbol qty bid).2.
Proof.
  unfold _close_position.
  destruct (place_order_ok W symbol); cbn; repeat constructor.
Qed.

(** The shape of what one turn of the monitoring loop logs. *)
Lemma check_position_shape W m pos bid :
  quote_bid W (p_symbol pos) = Some bid ->
  let symbol := p_symbol pos in
  let entry := entry_price_of pos in
  let peak := updated_peak m symbol entry bid in
  let peak_gain := (peak - entry) / entry * 100 in
  let pullback := (peak - bid) / peak * 100 in
  exists m' evs,
    check_position W m pos = Some (m', evs) /\
    (((entry <= 0 \/ bid <= 0) /\ evs = []) \/
     (0 < entry /\ 0 < bid /\
      exists e tail, evs = e :: tail /\ Forall closing tail /\
        ((20 <= peak_gain /\ trail_pct_for peak_gain <= pullback /\
          e = TRAILING_STOP symbol peak_gain pullback (trail_pct_for peak_gain)) \/
         (~ (20 <= peak_gain /\ trail_pct_for peak_gain <= pullback) /\
          not_trailing e)))).
Proof.
  intros Hquote symbol entry peak peak_gain pullback.
  unfold check_position. rewrite Hquote. cbn [mbind option_bind].
  fold symbol entry.
  destruct (Qleb entry 0) eqn:He; [apply Qleb_le in He | apply Qleb_gt in He].
  { exists m, []. cbn [orb]. split; [reflexivity | left; auto]. }
  destruct (Qleb bid 0) eqn:Hb; [apply Qleb_le in Hb | apply Qleb_gt in Hb].
  { exists m, []. cbn [orb]. split; [reflexivity | left; auto]. }
  cbn [orb].
  destruct (_dynamic_tp_sl _) as [tp_pct sl_pct].
  fold peak. fold peak_gain. fold pullback.
  set (m1 := {| entry_prices := entry_prices m;
                peak_prices := <[symbol:=peak]> (peak_prices m);
                recently_closed := recently_closed m;
                daily_realized_pnl := daily_realized_pnl m |}).
  pose proof (close_position_closing W m1 symbol (p_quantity pos) bid) as Hcl.
  destruct (_close_position W m1 symbol (p_quantity pos) bid) as [m2 tail].
  cbn [snd] in Hcl.
  destruct (Qleb 20 peak_gain && Qleb (trail_pct_for peak_gain) pullback) eqn:Ht.
  - apply andb_true_iff in Ht as [Hg Hp]. apply Qleb_le in Hg, Hp.
    eexists _, _. split; [reflexivity |]. right. repeat split; auto.
    eexists _, _. split; [reflexivity |]. split; [exact Hcl |]. left. auto.
  - assert (Hn : ~ (20 <= peak_gain /\ trail_pct_for peak_gain <= pullback)).
    { intros [Hg Hp]. apply Qleb_le in Hg, Hp. rewrite Hg, Hp in Ht. discriminate. }
    destruct (Qleb tp_pct _); [| destruct (Qleb _ (- sl_pct))];
      eexists _, _; (split; [reflexivity |]); right; repeat split; auto;
      eexists _, _; (split; [reflexivity |]);
      (split; [first [exact Hcl | constructor] |]); right; split; auto; exact I.
Qed.

(** The peak used by the trailing stop: the stored peak (the entry
    price when none is stored), raised to the bid when the bid is
    above it. *)
Lemma updated_peak_spec m symbol entry bid :
  let stored := default entry (peak_prices m !! symbol) in
  let peak := updated_peak m symbol entry bid in
  bid <= peak /\ stored <= peak /\
  (stored < bid -> peak = bid) /\ (bid <= stored -> peak = stored).
Proof.
  unfold updated_peak. cbv zeta.
  destruct (Qltb _ bid) eqn:E; [apply Qltb_lt in E | apply Qltb_ge in E];
    repeat split; intros; try reflexivity; lra.
Qed.

(** What the closing order does: the limit order at 98% of the bid,
    the three records of the symbol dropped, the realized P&L of the
    day and the set of closed tickers updated; nothing when the broker
    refuses the order. *)
Lemma close_position_spec W m symbol qty bid :
  (place_order_ok W symbol = true ->
   (_close_position W m symbol qty bid).2
     = [Close_order_placed symbol qty (py_round2 (bid * (98#100)))] /\
   entry_prices (_close_position W m symbol qty bid).1 !! symbol = None /\
   peak_prices (_close_position W m symbol qty bid).1 !! symbol = None /\
   daily_realized_pnl (_close_position W m symbol qty bid).1
     = daily_realized_pnl m
       + (bid - default bid (entry_prices m !! symbol)) * 100 * inject_Z qty /\
   (forall t, match_ticker symbol = Some t ->
      t ∈ recently_closed (_close_position W m symbol qty bid).1)) /\
  (place_order_ok W symbol = false ->
   _close_position W m symbol qty bid = (m, [Close_failed symbol])).
Proof.
  unfold _close_position. split; intros Hok; rewrite Hok; [| reflexivity].
  cbn [fst snd entry_prices peak_prices daily_realized_pnl recently_closed].
  split; [reflexivity |]. split.
  { destruct (decide (symbol +:+ "_score" = symbol)) as [E | E].
    - rewrite E. apply lookup_delete_eq.
    - rewrite lookup_delete_ne by exact E. apply lookup_delete_eq. }
  split; [apply lookup_delete_eq |]. split; [reflexivity |].
  intros t ->. apply elem_of_union_l, elem_of_singleton. reflexivity.
Qed.

(** One turn of the monitoring loop when the trailing stop applies:
    the log line, then the closing order on the monitor that holds the
    updated peak. *)
Lemma check_position_trailing W m pos bid :
  quote_bid W (p_symbol pos) = Some bid ->
  let symbol := p_symbol pos in
  let entry := entry_price_of pos in
  let peak := updated_peak m symbol entry bid in
  let peak_gain := (peak - entry) / entry * 100 in
  let pullback := (peak - bid) / peak * 100 in
  let tracked := {| entry_prices := entry_prices m;
                    peak_prices := <[symbol := peak]> (peak_prices m);
                    recently_closed := recently_closed m;
                    daily_realized_pnl := daily_realized_pnl m |} in
  0 < entry -> 0 < bid -> 20 <= peak_gain -> trail_pct_for peak_gain <= pullback ->
  check_position W m pos
  = Some ((_close_position W tracked symbol (p_quantity pos) bid).1,
          TRAILING_STOP symbol peak_gain pullback (trail_pct_for peak_gain)
            :: (_close_position W tracked symbol (p_quantity pos) bid).2).
Proof.
  intros Hquote symbol entry peak peak_gain pullback tracked He Hb Hg Hp.
  unfold check_position. rewrite Hquote. cbn [mbind option_bind].
  fold symbol entry.
  rewrite (proj2 (Qleb_gt entry 0) He), (proj2 (Qleb_gt bid 0) Hb). cbn [orb].
  destruct (_dynamic_tp_sl _) as [tp_pct sl_pct].
  fold peak. fold peak_gain. fold pullback. fold tracked.
  rewrite (proj2 (Qleb_le 20 peak_gain) Hg).
  rewrite (proj2 (Qleb_le (trail_pct_for peak_gain) pullback) Hp). cbn [andb].
  now destruct (_close_position W tracked symbol (p_quantity pos) bid).
Qed.

(** C4: for a position with quote [bid], a trailing-stop exit fires
    exactly when entry price and bid are positive, the peak gain is at
    least 20% and the pullback from the peak, in percent of the peak
    price, is at least the trail distance (7 from a peak gain of 45%,
    10 from 30%, 15 from 20%); below a peak gain of 20% it never
    fires. The peak is the stored peak raised to the bid. When the
    exit fires, the turn logs the trailing stop and places the closing
    order for the whole quantity at 98% of the bid: the records of the
    position are dropped, the realized P&L is booked and the ticker is
    marked as closed (a refused order is logged and leaves the
    position tracked). It is the only exit taken: the fixed
    take-profit and stop-loss checks are not reached. *)
Theorem trailing_stop_rule (W : World) (m : Monitor) (pos : Position) (bid : Q)
    (Hquote : quote_bid W (p_symbol pos) = Some bid) :
  let symbol := p_symbol pos in
  let entry := entry_price_of pos in
  let stored := default entry (peak_prices m !! symbol) in
  let peak := updated_peak m symbol entry bid in
  let peak_gain := (peak - entry) / entry * 100 in
  let pullback := (peak - bid) / peak * 100 in
  let fires := 0 < entry /\ 0 < bid /\ 20 <= peak_gain
               /\ trail_pct_for peak_gain <= pullback in
  exists m' evs,
    check_position W m pos = Some (m', evs) /\
    ((exists g p t, TRAILING_STOP symbol g p t ∈ evs) <-> fires) /\
    (peak_gain < 20 -> forall g p t, TRAILING_STOP symbol g p t ∉ evs) /\
    ((exists g p t, TRAILING_STOP symbol g p t ∈ evs) ->
       forall x, (TAKE_PROFIT symbol x ∉ evs) /\ (STOP_LOSS symbol x ∉ evs)) /\
    (45 <= peak_gain -> trail_pct_for peak_gain = 7) /\
    (30 <= peak_gain -> peak_gain < 45 -> trail_pct_for peak_gain = 10) /\
    (20 <= peak_gain -> peak_gain < 30 -> trail_pct_for peak_gain = 15) /\
    (bid <= peak /\ stored <= peak /\
     (stored < bid -> peak = bid) /\ (bid <= stored -> peak = stored)) /\
    (fires -> place_order_ok W symbol = true ->
       evs = [TRAILING_STOP symbol peak_gain pullback (trail_pct_for peak_gain);
              Close_order_placed symbol (p_quantity pos) (py_round2 (bid * (98#100)))] /\
       entry_prices m' !! symbol = None /\
       peak_prices m' !! symbol = None /\
       daily_realized_pnl m'
         = daily_realized_pnl m
           + (bid - default bid (entry_prices m !! symbol)) * 100
             * inject_Z (p_quantity pos) /\
       (forall t, match_ticker symbol = Some t -> t ∈ recently_closed m')) /\
    (fires -> place_order_ok W symbol = false ->
       evs = [TRAILING_STOP symbol peak_gain pullback (trail_pct_for peak_gain);
              Close_failed symbol] /\
       entry_prices m' = entry_prices m /\
       peak_prices m' = <[symbol := peak]> (peak_prices m) /\
       recently_closed m' = recently_closed m /\
       daily_realized_pnl m' = daily_realized_pnl m).
Proof.
  intros symbol entry stored peak peak_gain pullback fires.
  pose proof (trail_pct_for_table peak_gain) as (T1 & T2 & T3).
  destruct (check_position_shape W m pos bid Hquote) as (m' & evs & Hrun & Hshape).
  fold symbol entry in Hshape. fold peak in Hshape.
  fold peak_gain in Hshape. fold pullback in Hshape.
  exists m', evs. split; [exact Hrun |].
  assert (Htail : forall tail g p t,
            Forall closing tail -> TRAILING_STOP symbol g p t ∉ tail).
  { intros tail g p t Hcl Hin. rewrite Forall_forall in Hcl.
    apply (Hcl _ Hin). }
  assert (Hiff : (exists g p t, TRAILING_STOP symbol g p t ∈ evs) <-> fires).
  { unfold fires.
    destruct Hshape as [[Hskip ->] | (He & Hb & e & tail & -> & Hcl & Hcase)].
    - split.
      + intros (g & p & t & Hin). now apply not_elem_of_nil in Hin.
      + intros (H1 & H2 & _). destruct Hskip; lra.
    - destruct Hcase as [(Hg & Hp & ->) | (Hn & Hnt)].
      + split; [auto | intros _; do 3 eexists; apply list_elem_of_here].
      + split.
        * intros (g & p & t & Hin). apply elem_of_cons in Hin as [<- | Hin].
          -- destruct Hnt.
          -- now apply Htail in Hin.
        * intros (_ & _ & Hg & Hp). tauto. }
  split; [exact Hiff |].
  split.
  { intros Hlow g p t Hin.
    assert (Hex : exists g p t, TRAILING_STOP symbol g p t ∈ evs) by eauto.
    apply Hiff in Hex. unfold fires in Hex. lra. }
  split.
  { intros Hex x. apply Hiff in Hex as (He' & Hb' & Hg' & Hp').
    destruct Hshape as [[Hskip ->] | (He & Hb & e & tail & -> & Hcl & Hcase)].
    - split; apply not_elem_of_nil.
    - destruct Hcase as [(Hg & Hp & ->) | (Hn & Hnt)]; [| tauto].
      rewrite Forall_forall in Hcl.
      split; intros Hin; apply elem_of_cons in Hin as [Hin | Hin];
        try discriminate; apply (Hcl _ Hin). }
  split; [auto |]. split; [auto |]. split; [auto |].
  split; [exact (updated_peak_spec m symbol entry bid) |].
  assert (Hfired : fires ->
            (m', evs)
            = ((_close_position W
                  {| entry_prices := entry_prices m;
                     peak_prices := <[symbol := peak]> (peak_prices m);
                     recently_closed := recently_closed m;
                     daily_realized_pnl := daily_realized_pnl m |}
                  symbol (p_quantity pos) bid).1,
               TRAILING_STOP symbol peak_gain pullback (trail_pct_for peak_gain)
                 :: (_close_position W
                       {| entry_prices := entry_prices m;
                          peak_prices := <[symbol := peak]> (peak_prices m);
                          recently_closed := recently_closed m;
                          daily_realized_pnl := daily_realized_pnl m |}
                       symbol (p_quantity pos) bid).2)).
  { intros (He & Hb & Hg & Hp).
    pose proof (check_position_trailing W m pos bid Hquote He Hb Hg Hp) as Hexact.
    cbv zeta in Hexact. fold symbol entry in Hexact. fold peak in Hexact.
    fold peak_gain in Hexact. fold pullback in Hexact.
    rewrite Hrun in Hexact. now injection Hexact as -> ->. }
  split.
  - intros Hf Hok. specialize (Hfired Hf).
    apply (f_equal fst) in Hfired as Hm. apply (f_equal snd) in Hfired as Hevs.
    cbn [fst snd] in Hm, Hevs. rewrite Hm, Hevs.
    match goal with
    | |- context [_close_position W ?held symbol (p_quantity pos) bid] =>
        destruct (close_position_spec W held symbol (p_quantity pos) bid) as [Hplaced _];
        destruct (Hplaced Hok) as (Hlog & Hentry & Hpeak & Hpnl & Hclosed)
    end.
    rewrite Hlog. split; [reflexivity |]. split; [exact Hentry |].
    split; [exact Hpeak |]. split; [exact Hpnl | exact Hclosed].
  - intros Hf Hok. specialize (Hfired Hf).
    apply (f_equal fst) in Hfired as Hm. apply (f_equal snd) in Hfired as Hevs.
    cbn [fst snd] in Hm, Hevs. rewrite Hm, Hevs.
    match goal with
    | |- context [_close_position W ?held symbol (p_quantity pos) bid] =>
        destruct (close_position_spec W held symbol (p_quantity pos) bid) as [_ Hfailed];
        rewrite (Hfailed Hok)
    end.
    cbn [fst snd entry_prices peak_prices recently_closed daily_realized_pnl].
    repeat split; reflexivity.
Qed.

(** The position entered at 2.00 that peaked at 3.00, a gain of 50%,
    is closed by the trailing stop when the bid falls to 2.70, a
    pullback of 10%: the whole contract is offered at 98% of the
    bid, and the position is no longer tracked. *)
Lemma trailing_stop_rule_witness :
  quote_bid Scenario.morning (p_symbol Scenario.held_call) = Some (27#10) /\
  exists m' g p,
    check_position Scenario.morning Scenario.after_peak Scenario.held_call
      = Some (m', [TRAILING_STOP (p_symbol Scenario.held_call) g p 7;
                   Close_order_placed (p_symbol Scenario.held_call) 1
                     (py_round2 ((27#10) * (98#100)))]) /\
    g == 50 /\ p == 10 /\
    entry_prices m' !! p_symbol Scenario.held_call = None /\
    peak_prices m' !! p_symbol Scenario.held_call = None.
Proof.
  assert (H : quote_bid Scenario.morning (p_symbol Scenario.held_call) = Some (27#10))
    by reflexivity.
  split; [exact H |].
  destruct (trailing_stop_rule Scenario.morning Scenario.after_peak Scenario.held_call _ H)
    as (m' & evs & Hrun & _ & _ & _ & Htier & _ & _ & _ & Hplaced & _).
  assert (Hfires : 0 < entry_price_of Scenario.held_call /\ 0 < 27#10 /\
            20 <= (updated_peak Scenario.after_peak (p_symbol Scenario.held_call)
                     (entry_price_of Scenario.held_call) (27#10)
                   - entry_price_of Scenario.held_call)
                  / entry_price_of Scenario.held_call * 100 /\
            trail_pct_for
              ((updated_peak Scenario.after_peak (p_symbol Scenario.held_call)
                  (entry_price_of Scenario.held_call) (27#10)
                - entry_price_of Scenario.held_call)
               / entry_price_of Scenario.held_call * 100)
            <= (updated_peak Scenario.after_peak (p_symbol Scenario.held_call)
                  (entry_price_of Scenario.held_call) (27#10) - (27#10))
               / updated_peak Scenario.after_peak (p_symbol Scenario.held_call)
                   (entry_price_of Scenario.held_call) (27#10) * 100).
  { vm_compute. repeat split; discriminate. }
  destruct (Hplaced Hfires eq_refl) as (Hevs & Hentry & Hpeak & _).
  rewrite Htier in Hevs by (vm_compute; discriminate).
  rewrite Hevs in Hrun.
  eexists m', _, _. split; [exact Hrun |].
  split; [vm_compute; reflexivity |]. split; [vm_compute; reflexivity |].
  split; assumption.
Defined.

(** The same position at a bid of 2.85 has pulled back 5% from its
    peak, less than the 7% trail, and is held. *)
Example held_above_the_trail :
  let W := {| today := 1; hour := 10; minute := 0; balances := Bal_error;
              positions := Pos_list [Scenario.held_call];
              expirations := fun _ => None; options_chain := fun _ _ => None;
              quote_bid := fun _ => Some (285#100);
              place_order_ok := fun _ => true |} in
  exists pnl_pct,
    (check_and_exit W Scenario.after_peak).2
      = [Position_held "TSLA250117C00255000" pnl_pct] /\
    pnl_pct == 425#10.
Proof. eexists. split; [vm_compute; reflexivity | reflexivity]. Qed.

(** ** Contract selection and sizing *)

Lemma consider_ask_pos cfg target acc opt :
  (forall b d, acc = Some (b, d) -> 0 < o_ask b) ->
  forall b d, consider cfg target acc opt = Some (b, d) -> 0 < o_ask b.
Proof.
  intros Hacc b d. unfold consider.
  destruct (Qleb (o_ask opt) 0) eqn:Ha; [apply Qleb_le in Ha | apply Qleb_gt in Ha];
    cbn [orb]; [apply Hacc |].
  destruct (Qltb (max_contract_price cfg) (o_ask opt)); [apply Hacc |].
  destruct (_ || _); [apply Hacc |].
  destruct (_ && _); [apply Hacc |].
  destruct acc as [[b0 d0] |].
  - destruct (Qltb _ d0); [intros [= <- _]; exact Ha | apply Hacc].
  - intros [= <- _]. exact Ha.
Qed.

Lemma best_ask_pos cfg target opts : forall acc,
  (forall b d, acc = Some (b, d) -> 0 < o_ask b) ->
  forall b d, foldl (consider cfg target) acc opts = Some (b, d) -> 0 < o_ask b.
Proof.
  induction opts as [| opt opts IH]; intros acc Hacc b d; cbn.
  - apply Hacc.
  - apply IH. now apply consider_ask_pos.
Qed.

(** The sizing never goes below one contract, and the cost is the
    count times the ask times 100. *)
Lemma size_position_cost cfg ask_price capital n total :
  size_position cfg ask_price capital = (n, total) ->
  (1 <= n)%Z /\ total = inject_Z n * ask_price * 100.
Proof.
  unfold size_position. cbv zeta.
  destruct (Qltb capital _); intros [= <- <-]; split; (lia || reflexivity).
Qed.

(** When one contract already costs more than the capital, one contract
    is what the sizing gives. *)
Lemma size_position_floor cfg ask_price capital n total :
  0 < ask_price -> capital < ask_price * 100 ->
  size_position cfg ask_price capital = (n, total) -> n = 1%Z.
Proof.
  intros Hask Hcap. unfold size_position. cbv zeta.
  set (max_spend := Qmin capital (default capital (max_trade_size cfg))).
  assert (Hms : max_spend <= capital) by apply Q.le_min_l.
  assert (Hq : max_spend / (ask_price * 100) < 1).
  { apply Qlt_shift_div_r; lra. }
  apply py_int_lt_1 in Hq.
  destruct (Qltb capital _); intros [= <- _]; lia.
Qed.

(** When one contract is affordable, so is the sized position. *)
Lemma size_position_affordable cfg ask_price capital n total :
  0 < ask_price -> ask_price * 100 <= capital ->
  size_position cfg ask_price capital = (n, total) -> total <= capital.
Proof.
  intros Hask Hcap. unfold size_position. cbv zeta.
  set (max_spend := Qmin capital (default capital (max_trade_size cfg))).
  assert (Hms : max_spend <= capital) by apply Q.le_min_l.
  set (k := py_int (max_spend / (ask_price * 100))).
  assert (Hfirst : inject_Z (Z.max 1 k) * ask_price * 100 <= capital).
  { destruct (Z_lt_le_dec k 1) as [Hk | Hk].
    - rewrite Z.max_l by lia. change (inject_Z 1) with 1. lra.
    - rewrite Z.max_r by lia.
      pose proof (py_int_le _ Hk) as Hle. fold k in Hle.
      assert (Hmul : inject_Z k * (ask_price * 100) <= max_spend).
      { apply Qle_shift_div_l in Hle || idtac.
        apply (Qmult_le_r _ _ (ask_price * 100)) in Hle; [| lra].
        assert (Hd : max_spend / (ask_price * 100) * (ask_price * 100) == max_spend)
          by (field; lra).
        lra. }
      lra. }
  destruct (Qltb capital _) eqn:E; [apply Qltb_lt in E; lra |].
  intros [= _ <-]. exact Hfirst.
Qed.

(** What a returned candidate is made of. *)
Lemma select_contract_sized cfg W signal capital c :
  select_contract cfg W signal capital = Some c ->
  0 < tc_ask c /\ size_position cfg (tc_ask c) capital = (tc_contracts c, tc_total_cost c).
Proof.
  unfold select_contract. cbv zeta.
  destruct (_ && _); [discriminate |].
  destruct (get_nearest_expiry _ _ _) as [expiry |]; [| discriminate].
  cbn [mbind option_bind].
  destruct (options_chain _ _ _) as [options |]; [| discriminate].
  cbn [mbind option_bind].
  destruct (bool_decide (options = [])); [discriminate |].
  destruct (sig_direction signal) as [d |]; [| discriminate].
  cbn [mbind option_bind].
  destruct (bool_decide (_ = [])); [discriminate |].
  destruct (foldl _ None _) as [[best diff] |] eqn:Hbest; [| discriminate].
  cbn [mbind option_bind].
  destruct (size_position _ _ _) as [n total] eqn:Hsize.
  intros [= <-]. cbn. split; [| exact Hsize].
  eapply best_ask_pos; [| exact Hbest]. intros ? ? [=].
Qed.

(** A returned candidate has the direction of its signal, so the regime
    filter of [can_trade], which reads the signal, reads the candidate's
    direction. *)
Lemma select_contract_direction cfg W signal capital c :
  select_contract cfg W signal capital = Some c ->
  tc_signal c = signal /\ tc_direction c = sig_direction signal /\
  is_Some (tc_direction c).
Proof.
  unfold select_contract. cbv zeta.
  destruct (_ && _); [discriminate |].
  destruct (get_nearest_expiry _ _ _) as [expiry |]; [| discriminate].
  cbn [mbind option_bind].
  destruct (options_chain _ _ _) as [options |]; [| discriminate].
  cbn [mbind option_bind].
  destruct (bool_decide (options = [])); [discriminate |].
  destruct (sig_direction signal) as [d |]; [| discriminate].
  cbn [mbind option_bind].
  destruct (bool_decide (_ = [])); [discriminate |].
  destruct (foldl _ None _) as [[best diff] |]; [| discriminate].
  cbn [mbind option_bind].
  destruct (size_position _ _ _) as [n total].
  intros [= <-]. cbn. eauto.
Qed.

(** C1, amended: a returned candidate costs no more than the capital
    argument whenever one contract of it (ask × 100) does not cost more
    than the capital argument. *)
Theorem select_contract_cost_within_capital (cfg : Config) (W : World)
    (signal : Signal) (capital : Q) (c : TradeCandidate)
    (Hret : select_contract cfg W signal capital = Some c)
    (Hone : tc_ask c * 100 <= capital) :
  tc_total_cost c <= capital.
Proof.
  apply select_contract_sized in Hret as [Hask Hsize].
  eapply size_position_affordable; eauto.
Qed.

(** With a capital of 500 the one contract at 1.00 is affordable and is
    what is selected. *)
Lemma select_contract_cost_within_capital_witness :
  select_contract CONFIG Scenario.morning (Scenario.call_signal 14) 500
    = Some (Scenario.one_call 14) /\
  tc_ask (Scenario.one_call 14) * 100 <= 500 /\
  tc_total_cost (Scenario.one_call 14) <= 500.
Proof.
  assert (H1 : select_contract CONFIG Scenario.morning (Scenario.call_signal 14) 500
               = Some (Scenario.one_call 14)) by (vm_compute; reflexivity).
  assert (H2 : tc_ask (Scenario.one_call 14) * 100 <= 500) by (vm_compute; discriminate).
  split; [exact H1 |]. split; [exact H2 |].
  exact (select_contract_cost_within_capital _ _ _ _ _ H1 H2).
Defined.

(** C1 as stated fails: with a capital of 50 the contract at 1.00 is
    still selected, one of it, and costs 100. *)
Lemma select_contract_cost_exceeds_capital :
  exists c,
    select_contract CONFIG Scenario.morning (Scenario.call_signal 14) 50 = Some c /\
    ~ tc_total_cost c <= 50.
Proof.
  exists (Scenario.one_call 14). split; [vm_compute; reflexivity |].
  apply Qlt_not_le. reflexivity.
Qed.

(** C9: a returned candidate has at least one contract and costs
    contracts × ask × 100; when one contract (ask × 100) costs more
    than the capital argument the candidate has exactly one contract,
    and it is returned all the same, since whether a candidate is
    returned does not depend on the capital. *)
Theorem select_contract_one_contract_floor (cfg : Config) (W : World)
    (signal : Signal) (capital : Q) (c : TradeCandidate)
    (Hret : select_contract cfg W signal capital = Some c) :
  (1 <= tc_contracts c)%Z /\
  tc_total_cost c = inject_Z (tc_contracts c) * tc_ask c * 100 /\
  (capital < tc_ask c * 100 -> tc_contracts c = 1%Z /\ capital < tc_total_cost c) /\
  (forall capital', exists c',
     select_contract cfg W signal capital' = Some c' /\
     tc_option_symbol c' = tc_option_symbol c /\ tc_ask c' = tc_ask c /\
     (capital' < tc_ask c * 100 -> tc_contracts c' = 1%Z)).
Proof.
  pose proof (select_contract_sized _ _ _ _ _ Hret) as [Hask Hsize].
  pose proof (size_position_cost _ _ _ _ _ Hsize) as [Hn Hcost].
  split; [exact Hn |]. split; [exact Hcost |]. split.
  - intros Hcap.
    pose proof (size_position_floor _ _ _ _ _ Hask Hcap Hsize) as H1.
    split; [exact H1 |]. rewrite Hcost, H1. change (inject_Z 1) with 1. lra.
  - intros capital'. clear Hsize Hn Hcost.
    revert Hret. unfold select_contract. cbv zeta.
    destruct (_ && _); [discriminate |].
    destruct (get_nearest_expiry _ _ _) as [expiry |]; [| discriminate].
    cbn [mbind option_bind].
    destruct (options_chain _ _ _) as [options |]; [| discriminate].
    cbn [mbind option_bind].
    destruct (bool_decide (options = [])); [discriminate |].
    destruct (sig_direction signal) as [d |]; [| discriminate].
    cbn [mbind option_bind].
    destruct (bool_decide (_ = [])); [discriminate |].
    destruct (foldl _ None _) as [[best diff] |] eqn:Hbest; [| discriminate].
    cbn [mbind option_bind].
    destruct (size_position _ _ capital) as [n total].
    destruct (size_position _ _ capital') as [n' total'] eqn:Hsize'.
    intros [= Hc]. subst c. cbn in *.
    eexists. split; [reflexivity |]. cbn. repeat split.
    intros Hcap. eapply size_position_floor; eauto.
Qed.

(** With a capital of 50 the candidate at 1.00 is one contract for 100. *)
Lemma select_contract_one_contract_floor_witness :
  select_contract CONFIG Scenario.morning (Scenario.call_signal 14) 50
    = Some (Scenario.one_call 14) /\
  (1 <= tc_contracts (Scenario.one_call 14))%Z /\
  tc_total_cost (Scenario.one_call 14)
    = inject_Z (tc_contracts (Scenario.one_call 14)) * tc_ask (Scenario.one_call 14) * 100 /\
  tc_contracts (Scenario.one_call 14) = 1%Z /\
  50 < tc_total_cost (Scenario.one_call 14).
Proof.
  assert (H : select_contract CONFIG Scenario.morning (Scenario.call_signal 14) 50
              = Some (Scenario.one_call 14)) by (vm_compute; reflexivity).
  destruct (select_contract_one_contract_floor _ _ _ _ _ H) as (H1 & H2 & H3 & _).
  assert (Hc : 50 < tc_ask (Scenario.one_call 14) * 100) by reflexivity.
  destruct (H3 Hc) as [H4 H5].
  repeat split; assumption.
Defined.

(** ** Kill switch *)

Lemma reset_same_day W st capital :
  _last_reset_date st = Some (today W) -> _reset_if_new_day W st capital = st.
Proof.
  intros H. unfold _reset_if_new_day.
  rewrite bool_decide_eq_false_2; [reflexivity | intros Hne; now apply Hne].
Qed.

Lemma reset_new_day W st capital :
  _last_reset_date st <> Some (today W) ->
  _reset_if_new_day W st capital =
    {| _start_of_day_capital := Some capital;
       _last_reset_date := Some (today W);
       _killed_today := false |}.
Proof.
  intros H. unfold _reset_if_new_day. now rewrite bool_decide_eq_true_2.
Qed.

Lemma reset_date W st capital :
  _last_reset_date (_reset_if_new_day W st capital) = Some (today W).
Proof.
  unfold _reset_if_new_day. case_bool_decide as H; [reflexivity |].
  destruct (decide (_last_reset_date st = Some (today W))) as [E | E];
    [exact E | contradiction].
Qed.

(** A latched manager answers every check of the same day with the
    kill-switch denial and does not change. *)
Lemma check_latched cfg W st capital :
  _killed_today st = true -> _last_reset_date st = Some (today W) ->
  check_daily_loss_limit cfg W st capital = (st, (true, KILL_SWITCH_ACTIVE)).
Proof.
  intros Hk Hd. unfold check_daily_loss_limit. cbv zeta.
  rewrite reset_same_day by exact Hd. now rewrite Hk.
Qed.

Lemma can_trade_latched cfg W st trade capital regime :
  _killed_today st = true -> _last_reset_date st = Some (today W) ->
  can_trade cfg W st trade capital regime = (st, (false, KILL_SWITCH_ACTIVE)).
Proof.
  intros Hk Hd. unfold can_trade. now rewrite check_latched.
Qed.

Lemma run_calls_latched cfg st d cs :
  _killed_today st = true -> _last_reset_date st = Some d ->
  Forall (fun c => call_day c = d) cs ->
  (run_calls cfg st cs).1 = st /\ Forall2 kill_switch_denial cs (run_calls cfg st cs).2.
Proof.
  intros Hk Hd. induction 1 as [| c cs Hc Hcs IH]; cbn.
  - split; [reflexivity | constructor].
  - assert (Hrun : run_call cfg st c = (st, (match c with CheckDailyLoss _ _ => true | _ => false end,
                                              KILL_SWITCH_ACTIVE))).
    { destruct c; cbn in *; subst d;
        [now apply check_latched | now apply can_trade_latched]. }
    rewrite Hrun. destruct (run_calls cfg st cs) as [st'' rs]. cbn in *.
    destruct IH as [-> IH]. split; [reflexivity |].
    constructor; [destruct c; reflexivity | exact IH].
Qed.

(** A check that reports the kill switch leaves the manager latched on
    the day of the check. *)
Lemma check_killed_latches cfg W st capital st' reason :
  check_daily_loss_limit cfg W st capital = (st', (true, reason)) ->
  _killed_today st' = true /\ _last_reset_date st' = Some (today W)
  /\ kill_switch_reason reason = true.
Proof.
  unfold check_daily_loss_limit. cbv zeta.
  set (pv := if _ && _ then capital else _).
  pose proof (reset_date W st pv) as Hd.
  destruct (_killed_today (_reset_if_new_day W st pv)) eqn:Hk.
  - intros [= <- <-]. auto.
  - destruct (_start_of_day_capital _); [| discriminate].
    destruct (Qleb _ _); [| discriminate].
    intros [= <- <-]. cbn. auto.
Qed.

(** C2: once a check reports the kill switch on a day, every later
    [check_daily_loss_limit] or [can_trade] call of that day is denied
    with the kill-switch reason, whatever the capital and the balances
    are then, and leaves the state as it is; the flag is cleared, and
    the start-of-day snapshot taken anew, exactly by the reset of a
    check that sees another calendar day, and that check no longer
    answers with the latched denial. *)
Theorem kill_switch_latches (cfg : Config) (W : World) (st st' : RiskState)
    (capital : Q) (reason : RiskReason)
    (Hfire : check_daily_loss_limit cfg W st capital = (st', (true, reason))) :
  kill_switch_reason reason = true /\
  _killed_today st' = true /\
  (forall calls, Forall (fun c => call_day c = today W) calls ->
     (run_calls cfg st' calls).1 = st' /\
     Forall2 kill_switch_denial calls (run_calls cfg st' calls).2) /\
  (forall W' capital',
     _killed_today (_reset_if_new_day W' st' capital') = false <-> today W' <> today W) /\
  (forall W' capital', today W' <> today W ->
     _reset_if_new_day W' st' capital' =
       {| _start_of_day_capital := Some capital';
          _last_reset_date := Some (today W');
          _killed_today := false |}) /\
  (forall W' capital', today W' = today W -> _reset_if_new_day W' st' capital' = st') /\
  (forall W' capital', today W' <> today W ->
     (check_daily_loss_limit cfg W' st' capital').2.2 <> KILL_SWITCH_ACTIVE).
Proof.
  apply check_killed_latches in Hfire as (Hk & Hd & Hr).
  split; [exact Hr |]. split; [exact Hk |]. split.
  { intros calls Hcalls. now apply run_calls_latched with (d := today W). }
  assert (Hnew : forall W' capital', today W' <> today W ->
            _reset_if_new_day W' st' capital' =
              {| _start_of_day_capital := Some capital';
                 _last_reset_date := Some (today W');
                 _killed_today := false |}).
  { intros W' capital' Hne. apply reset_new_day. rewrite Hd. congruence. }
  assert (Hsame : forall W' capital', today W' = today W ->
            _reset_if_new_day W' st' capital' = st').
  { intros W' capital' He. apply reset_same_day. now rewrite Hd, He. }
  split; [| split; [exact Hnew | split; [exact Hsame |]]].
  - intros W' capital'. split.
    + intros Hc He. rewrite Hsame in Hc by exact He. congruence.
    + intros Hne. now rewrite Hnew.
  - intros W' capital' Hne. unfold check_daily_loss_limit. cbv zeta.
    rewrite Hnew by exact Hne. cbn.
    destruct (Qleb _ _); cbn; discriminate.
Qed.

(** A live account that started the day at 1000 and stands at 859.99
    fires the switch; a recovery to 2000 later that day is still
    denied, by [check_daily_loss_limit] and by [can_trade]. *)
Lemma kill_switch_latches_witness :
  exists st' reason,
    check_daily_loss_limit Scenario.live (Scenario.with_equity 1 (85999#100))
      Scenario.day1_from_1000 500 = (st', (true, reason)) /\
    kill_switch_reason reason = true /\
    (run_calls Scenario.live st'
       [CheckDailyLoss (Scenario.with_equity 1 2000) 500;
        CanTrade (Scenario.with_equity 1 2000) (Scenario.one_call 17) 500 neutral]).2
      = [(true, KILL_SWITCH_ACTIVE); (false, KILL_SWITCH_ACTIVE)].
Proof.
  destruct (check_daily_loss_limit Scenario.live (Scenario.with_equity 1 (85999#100))
              Scenario.day1_from_1000 500) as [st' [killed reason]] eqn:E.
  assert (Hk : killed = true) by (vm_compute in E; congruence).
  subst killed. exists st', reason. split; [reflexivity |].
  destruct (kill_switch_latches _ _ _ _ _ _ E) as (Hr & _ & Hcalls & _).
  split; [exact Hr |].
  destruct (Hcalls [CheckDailyLoss (Scenario.with_equity 1 2000) 500;
                    CanTrade (Scenario.with_equity 1 2000) (Scenario.one_call 17) 500 neutral])
    as [_ Hden].
  { repeat constructor. }
  remember (run_calls Scenario.live st' _).2 as rs eqn:Ers. clear Ers.
  apply Forall2_cons_inv_l in Hden as (r1 & rs1 & Hd1 & Hden & ->).
  apply Forall2_cons_inv_l in Hden as (r2 & rs2 & Hd2 & Hden & ->).
  apply Forall2_nil_inv_l in Hden as ->.
  cbn in Hd1, Hd2. now subst.
Defined.

(** ** Regime direction filter *)

(** With a neutral regime the direction filter lets everything through,
    so an admission there says that the five earlier checks pass; then
    the answer under another regime is decided by the filter alone. *)
Lemma can_trade_after_checks cfg W st trade capital regime st' :
  can_trade cfg W st trade capital neutral = (st', (true, OK)) ->
  can_trade cfg W st trade capital regime =
    let direction := sig_direction (tc_signal trade) in
    let score := sig_score (tc_signal trade) in
    if bool_decide (regime = bear) && bool_decide (direction = Some CALL) && Qltb score 16
    then (st', (false, Blocked_CALL_in_BEAR score))
    else if bool_decide (regime = bull) && bool_decide (direction = Some PUT) && Qltb score 16
    then (st', (false, Blocked_PUT_in_BULL score))
    else (st', (true, OK)).
Proof.
  unfold can_trade. cbv zeta.
  destruct (check_daily_loss_limit cfg W st capital) as [st1 [killed reason]].
  destruct killed; [discriminate |].
  destruct (Qltb capital _); [discriminate |].
  destruct (_ <=? _)%Z; [discriminate |].
  destruct (Qltb capital _); [discriminate |].
  destruct (Qltb (_dynamic_capital_limit cfg W) _); [discriminate |].
  cbn. intros [= <-]. reflexivity.
Qed.

(** C3, amended: when the earlier checks pass, a CALL candidate in a
    bear regime (a PUT candidate in a bull regime) is denied with the
    regime-specific reason when the signal's score is below 16 and
    admitted when the score is 16 or more. *)
Theorem regime_filter_threshold (cfg : Config) (W : World) (st st' : RiskState)
    (trade : TradeCandidate) (capital : Q)
    (Hchecks : can_trade cfg W st trade capital neutral = (st', (true, OK))) :
  let direction := sig_direction (tc_signal trade) in
  let score := sig_score (tc_signal trade) in
  (direction = Some CALL ->
     (score < 16 ->
        can_trade cfg W st trade capital bear = (st', (false, Blocked_CALL_in_BEAR score))) /\
     (16 <= score -> can_trade cfg W st trade capital bear = (st', (true, OK)))) /\
  (direction = Some PUT ->
     (score < 16 ->
        can_trade cfg W st trade capital bull = (st', (false, Blocked_PUT_in_BULL score))) /\
     (16 <= score -> can_trade cfg W st trade capital bull = (st', (true, OK)))).
Proof.
  intros direction score.
  split; intros Hd; split; intros Hs;
    rewrite (can_trade_after_checks _ _ _ _ _ _ _ Hchecks); cbv zeta;
    fold direction score; rewrite Hd; cbn;
    first [apply Qltb_lt in Hs | apply Qltb_ge in Hs]; now rewrite Hs.
Qed.

(** The scenario of the specification: in a bear regime a CALL
    candidate with score 12 is denied with the bear-regime reason and
    the same candidate with score 17 is admitted. *)
Lemma regime_filter_threshold_witness :
  can_trade CONFIG Scenario.morning risk_init (Scenario.one_call 12) 500 bear
    = ((can_trade CONFIG Scenario.morning risk_init (Scenario.one_call 12) 500 neutral).1,
       (false, Blocked_CALL_in_BEAR 12)) /\
  can_trade CONFIG Scenario.morning risk_init (Scenario.one_call 17) 500 bear
    = ((can_trade CONFIG Scenario.morning risk_init (Scenario.one_call 17) 500 neutral).1,
       (true, OK)).
Proof.
  split.
  - destruct (can_trade CONFIG Scenario.morning risk_init (Scenario.one_call 12) 500 neutral)
      as [st' r] eqn:E.
    assert (Hr : r = (true, OK)) by (vm_compute in E; congruence). subst r.
    destruct (regime_filter_threshold _ _ _ _ _ _ E) as [Hcall _].
    destruct (Hcall eq_refl) as [Hlow _]. apply Hlow. reflexivity.
  - destruct (can_trade CONFIG Scenario.morning risk_init (Scenario.one_call 17) 500 neutral)
      as [st' r] eqn:E.
    assert (Hr : r = (true, OK)) by (vm_compute in E; congruence). subst r.
    destruct (regime_filter_threshold _ _ _ _ _ _ E) as [Hcall _].
    destruct (Hcall eq_refl) as [_ Hhigh]. apply Hhigh. vm_compute. discriminate.
Defined.

(** C3 as stated fails at the threshold: a bear-regime CALL whose score
    is 16, which does not exceed 16, is admitted. *)
Lemma regime_filter_admits_at_16 :
  sig_direction (tc_signal (Scenario.one_call 16)) = Some CALL /\
  ~ 16 < sig_score (tc_signal (Scenario.one_call 16)) /\
  (can_trade CONFIG Scenario.morning risk_init (Scenario.one_call 16) 500 bear).2
    = (true, OK).
Proof.
  split; [reflexivity |]. split; [| vm_compute; reflexivity].
  apply Qle_not_lt. cbn. apply Qle_refl.
Qed.

(** ** Bonus merge and ranking *)

Lemma insert_desc_perm {A} (lt : A -> A -> bool) x l :
  insert_desc lt x l ≡ₚ x :: l.
Proof.
  induction l as [| y l IH]; cbn; [reflexivity |].
  destruct (lt x y); [| reflexivity].
  rewrite IH. apply Permutation_swap.
Qed.

(** The descending sort rearranges its list. *)
Lemma sort_reverse_perm {A} (lt : A -> A -> bool) l : sort_reverse lt l ≡ₚ l.
Proof.
  induction l as [| x l IH]; cbn; [reflexivity |].
  unfold sort_reverse in *. cbn. rewrite insert_desc_perm. now rewrite IH.
Qed.

Lemma elem_of_sort_reverse {A} (lt : A -> A -> bool) l x :
  x ∈ sort_reverse lt l <-> x ∈ l.
Proof. now rewrite sort_reverse_perm. Qed.

(** A value found in a dict built from a list is an entry of the list. *)
Lemma dict_by_lookup {A} (key : A -> string) l k x :
  dict_by key l !! k = Some x -> x ∈ l.
Proof.
  unfold dict_by.
  assert (H : forall (m : gmap string A),
            foldl (fun m x => <[key x := x]> m) m l !! k = Some x ->
            m !! k = Some x \/ x ∈ l).
  { induction l as [| y l IH]; intros m; cbn; [auto |].
    intros Hl. apply IH in Hl as [Hl | Hl].
    - destruct (decide (key y = k)) as [<- | Hne].
      + rewrite lookup_insert_eq in Hl. injection Hl as ->.
        right. apply list_elem_of_here.
      + rewrite lookup_insert_ne in Hl by exact Hne. auto.
    - right. now apply list_elem_of_further. }
  intros Hl. apply H in Hl as [Hl | Hl]; [| exact Hl].
  now rewrite lookup_empty in Hl.
Qed.

Lemma score_insider_range d :
  (2 <= InsiderTracker.ib_score (InsiderTracker.score_insider d) <= 5)%Z.
Proof.
  unfold InsiderTracker.score_insider. cbv zeta.
  destruct (2 <=? InsiderTracker.a_filing_count d)%Z;
    destruct (Qleb 500000 (InsiderTracker.a_total_buy_value d));
    destruct (Qleb 100000 (InsiderTracker.a_total_buy_value d));
    destruct (InsiderTracker.first_csuite_role (InsiderTracker.a_roles d)); cbn; lia.
Qed.

(** The insider provider's bonus is between 2 and 5. *)
Lemma insider_bonus_range aggregated b :
  b ∈ InsiderTracker.get_todays_insider_buys aggregated ->
  (2 <= InsiderTracker.ib_score b <= 5)%Z.
Proof.
  unfold InsiderTracker.get_todays_insider_buys. intros H.
  apply subseteq_take in H. apply elem_of_sort_reverse in H.
  apply list_elem_of_In, in_map_iff in H as (d & <- & _).
  apply score_insider_range.
Qed.

Lemma score_earnings_range days :
  (0 <= (CatalystScanner.score_earnings days).1 <= 4)%Z.
Proof.
  unfold CatalystScanner.score_earnings. destruct days as [d |]; cbn; [| lia].
  destruct (_ || _); [cbn; lia |].
  destruct (d =? 0)%Z; [cbn; lia |].
  destruct (d =? 1)%Z; [cbn; lia |].
  destruct (d <=? 3)%Z; cbn; lia.
Qed.

Lemma score_gap_range g :
  (0 <= (CatalystScanner.score_gap g).1.1 <= 3)%Z.
Proof.
  unfold CatalystScanner.score_gap. destruct g as [g |]; cbn; [| lia].
  destruct (Qltb _ 2); [cbn; lia |].
  destruct (Qleb 8 _); [| destruct (Qleb 5 _)];
    destruct (Qleb 2 (CatalystScanner.vol_ratio g)); cbn; lia.
Qed.

(** The catalyst provider's bonus is between 0 and 6. *)
Lemma scan_ticker_range earnings gaps ticker :
  (0 <= CatalystScanner.c_total_bonus (CatalystScanner.scan_ticker earnings gaps ticker) <= 6)%Z.
Proof.
  unfold CatalystScanner.scan_ticker.
  pose proof (score_earnings_range (earnings ticker)) as He.
  pose proof (score_gap_range (gaps ticker)) as Hg.
  destruct (CatalystScanner.score_earnings _) as [e er].
  destruct (CatalystScanner.score_gap _) as [[g gr] gd].
  cbn in *. lia.
Qed.

Lemma scan_range earnings gaps tickers c :
  c ∈ CatalystScanner.scan earnings gaps tickers ->
  (0 <= CatalystScanner.c_total_bonus c <= 6)%Z.
Proof.
  unfold CatalystScanner.scan. intros H.
  apply list_elem_of_In, in_map_iff in H as (t & <- & _).
  apply scan_ticker_range.
Qed.

Lemma catalyst_bonus_range earnings gaps min_bonus c :
  c ∈ CatalystScanner.get_top_catalyst_tickers earnings gaps min_bonus ->
  (0 <= CatalystScanner.c_total_bonus c <= 6)%Z.
Proof.
  unfold CatalystScanner.get_top_catalyst_tickers.
  generalize CatalystScanner.universe. intros universe H.
  apply elem_of_sort_reverse in H. apply list_elem_of_filter in H as [_ H].
  now apply scan_range in H.
Qed.

(** What [score_ticker] returns is a blend, for the ticker asked. *)
Lemma score_ticker_blend K ticker regime sig :
  score_ticker K ticker regime = Some sig ->
  exists s1h s15m s5m atr_1h price_1h,
    sig = blend ticker regime s1h s15m s5m atr_1h price_1h.
Proof.
  unfold score_ticker.
  destruct (_fetch K ticker "1h" "3mo") as [df_1h |]; [| discriminate].
  destruct (_fetch K ticker "15m" "5d") as [df_15m |]; [| discriminate].
  destruct (_fetch K ticker "5m" "2d") as [df_5m |]; [| discriminate].
  cbn [mbind option_bind].
  destruct (_ || _); [discriminate |].
  destruct (_score_timeframe K df_1h "1H") as [s1h |]; [| discriminate].
  destruct (_score_timeframe K df_15m "15M") as [s15m |]; [| discriminate].
  destruct (_score_timeframe K df_5m "5M") as [s5m |]; [| discriminate].
  cbn [mbind option_bind].
  destruct (iloc_neg 1 (_atr K df_1h)) as [atr_1h |]; [| discriminate].
  cbn [mbind option_bind].
  destruct (if (length df_1h =? 1)%nat then None else _) as [price_1h |];
    [| discriminate].
  cbn [mbind option_bind]. intros [= <-]. eauto 10.
Qed.

(** The two provider bonuses of a ticker, as the merge reads them. *)
Lemma provider_bonuses_range F ticker :
  (forall b, insider_scores F !! ticker = Some b ->
     (2 <= InsiderTracker.ib_score b <= 5)%Z) /\
  (forall c, catalyst_scores F !! ticker = Some c ->
     (0 <= CatalystScanner.c_total_bonus c <= 6)%Z).
Proof.
  split.
  - intros b Hb.
    apply (dict_by_lookup InsiderTracker.ib_ticker (insider_buys_today F)) in Hb.
    unfold insider_buys_today in Hb.
    apply list_elem_of_filter in Hb as [_ Hb].
    exact (insider_bonus_range _ _ Hb).
  - intros c Hc.
    apply (dict_by_lookup CatalystScanner.c_ticker (catalyst_top F)) in Hc.
    revert Hc. unfold catalyst_top, CatalystScanner.get_top_catalyst_tickers.
    generalize CatalystScanner.universe. intros universe H.
    apply elem_of_sort_reverse in H. apply list_elem_of_filter in H as [_ H].
    now apply scan_range in H.
Qed.

(** What the scan loop appends for a ticker: the technical signal of
    the ticker, which has a direction, after the bonus merge. *)
Lemma top_signal_origin K F min_score sig' :
  sig' ∈ (get_top_signals K F min_score).2 ->
  exists sig,
    score_ticker K (sig_ticker sig') (_market_regime K) = Some sig /\
    is_Some (sig_direction sig) /\
    sig' = merge_bonus (insider_scores F) (catalyst_scores F) (sig_ticker sig') sig.
Proof.
  unfold get_top_signals. cbv zeta. cbn [snd]. intros H.
  apply elem_of_sort_reverse in H.
  apply list_elem_of_omap in H as (t & _ & H).
  unfold scan_one in H.
  destruct (score_ticker K t (_market_regime K)) as [sig |] eqn:Hsig; [| discriminate].
  case_bool_decide as Hdir; [| discriminate].
  destruct (Qleb min_score _); [| discriminate].
  injection H as <-.
  assert (Ht : sig_ticker sig = t).
  { apply score_ticker_blend in Hsig as (? & ? & ? & ? & ? & ->). reflexivity. }
  cbn [merge_bonus sig_ticker]. rewrite Ht.
  exists sig. split; [exact Hsig |]. split; [exact Hdir | reflexivity].
Qed.

(** C7: for every ticker whose technical signal is merged with the
    bonuses of the insider and catalyst providers in [get_top_signals],
    the two bonuses together are not negative, the merged score is the
    technical score plus the two bonuses, and so it is at least the
    technical score; every signal of the returned list is such a merge. *)
Theorem bonus_merge_non_decreasing (K : Kernels) (F : Feeds) (ticker : string)
    (regime : Regime) (sig : Signal)
    (Hsig : score_ticker K ticker regime = Some sig) :
  let sig' := merge_bonus (insider_scores F) (catalyst_scores F) ticker sig in
  (exists insider_bonus catalyst_bonus : Z,
     sig_insider_bonus sig' = Some insider_bonus /\
     sig_catalyst_bonus sig' = Some catalyst_bonus /\
     (0 <= insider_bonus + catalyst_bonus)%Z /\
     sig_score sig' == sig_score sig + inject_Z (insider_bonus + catalyst_bonus)) /\
  sig_score sig <= sig_score sig' /\
  (forall min_score s, s ∈ (get_top_signals K F min_score).2 ->
     exists sig0,
       score_ticker K (sig_ticker s) (_market_regime K) = Some sig0 /\
       s = merge_bonus (insider_scores F) (catalyst_scores F) (sig_ticker s) sig0 /\
       sig_score sig0 <= sig_score s).
Proof.
  assert (Hmerge : forall t r sg, score_ticker K t r = Some sg ->
            let ib := from_option InsiderTracker.ib_score 0%Z (insider_scores F !! t) in
            let cb := from_option CatalystScanner.c_total_bonus 0%Z (catalyst_scores F !! t) in
            (0 <= ib + cb)%Z /\
            sig_score (merge_bonus (insider_scores F) (catalyst_scores F) t sg)
              == sig_score sg + inject_Z (ib + cb) /\
            sig_score sg
              <= sig_score (merge_bonus (insider_scores F) (catalyst_scores F) t sg)).
  { intros t r sg Hsg ib cb.
    destruct (provider_bonuses_range F t) as [Hins Hcat].
    assert (Hi : (0 <= ib)%Z).
    { subst ib. destruct (insider_scores F !! t) as [b |]; cbn; [| lia].
      specialize (Hins b eq_refl). lia. }
    assert (Hc : (0 <= cb)%Z).
    { subst cb. destruct (catalyst_scores F !! t) as [c |]; cbn; [| lia].
      specialize (Hcat c eq_refl). lia. }
    assert (Hscore : sig_score (merge_bonus (insider_scores F) (catalyst_scores F) t sg)
                     == sig_score sg + inject_Z (ib + cb)).
    { cbn [merge_bonus sig_score]. fold ib cb.
      apply score_ticker_blend in Hsg as (? & ? & ? & ? & ? & ->).
      cbn [blend sig_score]. apply py_round1_bonus. }
    split; [lia |]. split; [exact Hscore |].
    rewrite Hscore.
    assert (0 <= inject_Z (ib + cb)).
    { change 0 with (inject_Z 0). rewrite <- Zle_Qle. lia. }
    lra. }
  intros sig'. destruct (Hmerge _ _ _ Hsig) as (Hb & Hs & Hle).
  split; [| split; [exact Hle |]].
  - eexists _, _. split; [reflexivity |]. split; [reflexivity |].
    split; [exact Hb | exact Hs].
  - intros min_score s Hs'.
    apply top_signal_origin in Hs' as (sig0 & Hsig0 & _ & Heq).
    exists sig0. split; [exact Hsig0 |]. split; [exact Heq |].
    destruct (Hmerge _ _ _ Hsig0) as (_ & _ & Hle0).
    rewrite <- Heq in Hle0. exact Hle0.
Qed.

(** TSLA with an insider purchase and earnings tomorrow: the technical
    13.0 becomes 21.0. *)
Lemma bonus_merge_non_decreasing_witness :
  exists sig,
    score_ticker Scenario.tsla_only "TSLA" neutral = Some sig /\
    sig_score sig
      <= sig_score (merge_bonus (insider_scores Scenario.tsla_news)
                      (catalyst_scores Scenario.tsla_news) "TSLA" sig).
Proof.
  destruct (score_ticker Scenario.tsla_only "TSLA" neutral) as [sig |] eqn:E;
    [| vm_compute in E; discriminate].
  exists sig. split; [reflexivity |].
  destruct (bonus_merge_non_decreasing Scenario.tsla_only Scenario.tsla_news _ _ _ E)
    as (_ & Hle & _).
  exact Hle.
Defined.

(** The bonus merge keeps a direction a direction: the catalyst bias
    replaces it only by CALL or PUT. *)
Lemma merge_bonus_direction ins cat ticker sig :
  is_Some (sig_direction sig) ->
  is_Some (sig_direction (merge_bonus ins cat ticker sig)).
Proof.
  intros Hd. cbn [merge_bonus sig_direction].
  destruct (cat !! ticker ≫= CatalystScanner.c_direction_bias) as [bias |].
  - destruct (2 <=? _)%Z; [eauto |].
    destruct (_ && _); eauto.
  - destruct (_ && _); eauto.
Qed.

(** C8: every signal in the list [get_top_signals] returns has the
    direction CALL or PUT; a signal without direction is not merged or
    ranked, and the merge, catalyst direction bias included, never
    turns a direction into none. *)
Theorem top_signals_have_direction (K : Kernels) (F : Feeds) (min_score : Q) :
  Forall (fun s => sig_direction s = Some CALL \/ sig_direction s = Some PUT)
    (get_top_signals K F min_score).2 /\
  (forall ticker sig, score_ticker K ticker (_market_regime K) = Some sig ->
     sig_direction sig = None ->
     forall s, s ∈ (get_top_signals K F min_score).2 -> sig_ticker s <> ticker) /\
  (forall ins cat ticker sig d, sig_direction sig = Some d ->
     exists d', sig_direction (merge_bonus ins cat ticker sig) = Some d').
Proof.
  split; [| split].
  - apply Forall_forall. intros s Hs.
    apply top_signal_origin in Hs as (sig & _ & Hd & Hm).
    destruct (merge_bonus_direction (insider_scores F) (catalyst_scores F)
                (sig_ticker s) sig Hd) as [d Hx].
    rewrite <- Hm in Hx. destruct d; auto.
  - intros ticker sig Hsig Hnone s Hs Ht.
    apply top_signal_origin in Hs as (sig0 & Hsig0 & [d Hd] & _).
    rewrite Ht, Hsig in Hsig0. injection Hsig0 as <-. congruence.
  - intros ins cat ticker sig d Hd.
    apply merge_bonus_direction. eauto.
Qed.

(** The one signal TSLA yields is a CALL. *)
Lemma top_signals_have_direction_witness :
  exists s,
    s ∈ (get_top_signals Scenario.tsla_only Scenario.tsla_news 13).2 /\
    (sig_direction s = Some CALL \/ sig_direction s = Some PUT).
Proof.
  destruct (get_top_signals Scenario.tsla_only Scenario.tsla_news 13).2
    as [| s rest] eqn:E; [vm_compute in E; discriminate |].
  exists s.
  destruct (top_signals_have_direction Scenario.tsla_only Scenario.tsla_news 13)
    as [Hall _].
  rewrite E in Hall. split; [apply list_elem_of_here |].
  now inversion Hall.
Defined.

(** * Further properties *)

(** ** Risk manager: admission and the daily state *)

(** The portfolio value [check_daily_loss_limit] measures the loss on:
    the capital passed in for the sandbox, the account balance
    otherwise. *)
Lemma check_portfolio_value cfg W capital :
  (if Qeqb (get_account_balance cfg W) (capital_limit cfg) && sandbox cfg
   then capital else get_account_balance cfg W)
  = (if sandbox cfg then capital else get_account_balance cfg W).
Proof.
  unfold get_account_balance. destruct (sandbox cfg); cbn.
  - unfold Qeqb. now rewrite (proj2 (Qeq_bool_iff _ _) (Qeq_refl _)).
  - now rewrite andb_false_r.
Qed.

(** The decision of [can_trade], check by check. *)
Lemma can_trade_cases (cfg : Config) (W : World) (st : RiskState)
    (trade : TradeCandidate) (capital : Q) (regime : Regime) :
  let verdict := (can_trade cfg W st trade capital regime).2 in
  let direction := sig_direction (tc_signal trade) in
  let score := sig_score (tc_signal trade) in
  (verdict.1 = true <->
     (check_daily_loss_limit cfg W st capital).2.1 = false /\
     min_capital_to_trade cfg <= capital /\
     (get_open_position_count W < _dynamic_max_positions cfg W)%Z /\
     tc_total_cost trade <= capital /\
     tc_total_cost trade <= _dynamic_capital_limit cfg W /\
     ~ (regime = bear /\ direction = Some CALL /\ score < 16) /\
     ~ (regime = bull /\ direction = Some PUT /\ score < 16)) /\
  (verdict.1 = true <-> verdict.2 = OK) /\
  (can_trade cfg W st trade capital regime).1
    = (check_daily_loss_limit cfg W st capital).1.
Proof.
  cbv zeta. unfold can_trade.
  destruct (check_daily_loss_limit cfg W st capital) as [st1 [killed reason]] eqn:Hc.
  cbn [fst snd].
  destruct killed.
  { cbn. split; [| split; [| reflexivity]].
    - split; [discriminate | intros (H & _); discriminate].
    - split; [discriminate |]. intros ->.
      apply check_killed_latches in Hc as (_ & _ & Hr). discriminate. }
  destruct (Qltb capital _) eqn:E1; [apply Qltb_lt in E1 | apply Qltb_ge in E1].
  { cbn. split; [| split; [| reflexivity]];
      (split; [discriminate |]); [intros (_ & H & _); lra | discriminate]. }
  destruct (_ <=? _)%Z eqn:E2; [apply Z.leb_le in E2 | apply Z.leb_gt in E2].
  { cbn. split; [| split; [| reflexivity]];
      (split; [discriminate |]); [intros (_ & _ & H & _); lia | discriminate]. }
  destruct (Qltb capital (tc_total_cost trade)) eqn:E3;
    [apply Qltb_lt in E3 | apply Qltb_ge in E3].
  { cbn. split; [| split; [| reflexivity]];
      (split; [discriminate |]); [intros (_ & _ & _ & H & _); lra | discriminate]. }
  destruct (Qltb (_dynamic_capital_limit cfg W) _) eqn:E4;
    [apply Qltb_lt in E4 | apply Qltb_ge in E4].
  { cbn. split; [| split; [| reflexivity]];
      (split; [discriminate |]); [intros (_ & _ & _ & _ & H & _); lra | discriminate]. }
  destruct (Qltb (sig_score (tc_signal trade)) 16) eqn:E5;
    [apply Qltb_lt in E5 | apply Qltb_ge in E5].
  - destruct (bool_decide (regime = bear)) eqn:Rb;
      [apply bool_decide_eq_true in Rb | apply bool_decide_eq_false in Rb];
      destruct (bool_decide (sig_direction (tc_signal trade) = Some CALL)) eqn:Dc;
      [apply bool_decide_eq_true in Dc | apply bool_decide_eq_false in Dc | |]; cbn.
    + split; [| split; [| reflexivity]]; (split; [discriminate |]);
        [intros (_ & _ & _ & _ & _ & H & _); tauto | discriminate].
    + destruct (bool_decide (regime = bull)) eqn:Ru;
        [apply bool_decide_eq_true in Ru; congruence |]. cbn.
      split; [| split; [| reflexivity]]; (split; [| reflexivity]); intros _.
      * repeat split; auto; try lra; try tauto.
        apply bool_decide_eq_false in Ru. tauto.
      * reflexivity.
    + destruct (bool_decide (regime = bull)) eqn:Ru;
        [apply bool_decide_eq_true in Ru | apply bool_decide_eq_false in Ru];
        destruct (bool_decide (sig_direction (tc_signal trade) = Some PUT)) eqn:Dp;
        [apply bool_decide_eq_true in Dp | apply bool_decide_eq_false in Dp | |]; cbn.
      * split; [| split; [| reflexivity]]; (split; [discriminate |]);
          [intros (_ & _ & _ & _ & _ & _ & H); tauto | discriminate].
      * split; [| split; [| reflexivity]]; (split; [| reflexivity]); intros _;
          [repeat split; auto; try lra; tauto | reflexivity].
      * split; [| split; [| reflexivity]]; (split; [| reflexivity]); intros _;
          [repeat split; auto; try lra; tauto | reflexivity].
      * split; [| split; [| reflexivity]]; (split; [| reflexivity]); intros _;
          [repeat split; auto; try lra; tauto | reflexivity].
    + destruct (bool_decide (regime = bull)) eqn:Ru;
        [apply bool_decide_eq_true in Ru | apply bool_decide_eq_false in Ru];
        destruct (bool_decide (sig_direction (tc_signal trade) = Some PUT)) eqn:Dp;
        [apply bool_decide_eq_true in Dp | apply bool_decide_eq_false in Dp | |]; cbn.
      * split; [| split; [| reflexivity]]; (split; [discriminate |]);
          [intros (_ & _ & _ & _ & _ & _ & H); tauto | discriminate].
      * split; [| split; [| reflexivity]]; (split; [| reflexivity]); intros _;
          [repeat split; auto; try lra; tauto | reflexivity].
      * split; [| split; [| reflexivity]]; (split; [| reflexivity]); intros _;
          [repeat split; auto; try lra; tauto | reflexivity].
      * split; [| split; [| reflexivity]]; (split; [| reflexivity]); intros _;
          [repeat split; auto; try lra; tauto | reflexivity].
  - rewrite !andb_false_r. cbn.
    split; [| split; [| reflexivity]]; (split; [| reflexivity]); intros _;
      [| reflexivity].
    repeat split; auto; try lra; intros (_ & _ & H); lra.
Qed.

(** X1: [can_trade] admits a trade exactly when the kill switch does
    not report, the capital reaches the configured minimum, fewer
    positions are open than the dynamic maximum, the cost is within the
    available capital and within the dynamic capital limit, and the
    trade does not go against a bear or bull regime with a score below
    16; an admission carries the reason OK and a denial never does. *)
Theorem can_trade_admits_iff (cfg : Config) (W : World) (st : RiskState)
    (trade : TradeCandidate) (capital : Q) (regime : Regime) :
  let verdict := (can_trade cfg W st trade capital regime).2 in
  let direction := sig_direction (tc_signal trade) in
  let score := sig_score (tc_signal trade) in
  (verdict.1 = true <->
     (check_daily_loss_limit cfg W st capital).2.1 = false /\
     min_capital_to_trade cfg <= capital /\
     (get_open_position_count W < _dynamic_max_positions cfg W)%Z /\
     tc_total_cost trade <= capital /\
     tc_total_cost trade <= _dynamic_capital_limit cfg W /\
     ~ (regime = bear /\ direction = Some CALL /\ score < 16) /\
     ~ (regime = bull /\ direction = Some PUT /\ score < 16)) /\
  (verdict.1 = true <-> verdict.2 = OK) /\
  (can_trade cfg W st trade capital regime).1
    = (check_daily_loss_limit cfg W st capital).1.
Proof. apply can_trade_cases. Qed.


(** One check on the day the state already belongs to keeps the
    snapshot and the date, and never clears the flag. *)
Lemma check_same_day_keeps cfg W st capital :
  _last_reset_date st = Some (today W) ->
  let st' := (check_daily_loss_limit cfg W st capital).1 in
  _start_of_day_capital st' = _start_of_day_capital st /\
  _last_reset_date st' = _last_reset_date st /\
  (_killed_today st = true -> _killed_today st' = true).
Proof.
  intros Hd. unfold check_daily_loss_limit. cbv zeta.
  rewrite reset_same_day by exact Hd.
  destruct (_killed_today st) eqn:Hk; cbn [fst]; [auto |].
  destruct (_start_of_day_capital st) eqn:Hs; cbn [fst];
    [| repeat split; auto; discriminate].
  destruct (Qleb _ _); cbn; rewrite ?Hs; repeat split; auto; discriminate.
Qed.

Lemma run_call_state cfg st c :
  (run_call cfg st c).1
  = (check_daily_loss_limit cfg
       (match c with CheckDailyLoss W _ => W | CanTrade W _ _ _ => W end) st
       (match c with CheckDailyLoss _ k => k | CanTrade _ _ k _ => k end)).1.
Proof.
  destruct c as [W k | W trade k regime]; cbn; [reflexivity |].
  now destruct (can_trade_cases cfg W st trade k regime) as (_ & _ & H).
Qed.

(** X2: within one calendar day the start-of-day snapshot is immutable:
    whatever sequence of [check_daily_loss_limit] and [can_trade] calls
    follows on the day the state belongs to, the snapshot and the date
    stay as they are, and a set kill-switch flag stays set. *)
Theorem snapshot_fixed_within_day (cfg : Config) (st : RiskState) (d : Z)
    (calls : list RiskCall)
    (Hdate : _last_reset_date st = Some d)
    (Hday : Forall (fun c => call_day c = d) calls) :
  let st' := (run_calls cfg st calls).1 in
  _start_of_day_capital st' = _start_of_day_capital st /\
  _last_reset_date st' = Some d /\
  (_killed_today st = true -> _killed_today st' = true).
Proof.
  revert st Hdate. induction Hday as [| c calls Hc Hcalls IH]; intros st Hdate; cbn.
  - auto.
  - pose proof (run_call_state cfg st c) as Hst.
    destruct (run_call cfg st c) as [st1 r] eqn:Hrun. cbn in Hst.
    assert (Hkeep : _start_of_day_capital st1 = _start_of_day_capital st /\
                    _last_reset_date st1 = _last_reset_date st /\
                    (_killed_today st = true -> _killed_today st1 = true)).
    { rewrite Hst. apply check_same_day_keeps.
      rewrite Hdate. f_equal. destruct c; cbn in Hc; now subst. }
    destruct Hkeep as (H1 & H2 & H3).
    specialize (IH st1 ltac:(congruence)).
    destruct (run_calls cfg st1 calls) as [st2 rs]. cbn in *.
    destruct IH as (I1 & I2 & I3). repeat split; [congruence | assumption | auto].
Qed.

(** A day of a live account: snapshot 1000, then a loss, then a
    recovery; the snapshot stays at 1000. *)
Lemma snapshot_fixed_within_day_witness :
  _start_of_day_capital
    (run_calls Scenario.live Scenario.day1_from_1000
       [CheckDailyLoss (Scenario.with_equity 1 900) 500;
        CanTrade (Scenario.with_equity 1 2000) (Scenario.one_call 17) 500 neutral]).1
  = Some 1000.
Proof.
  assert (Hd : _last_reset_date Scenario.day1_from_1000 = Some 1%Z) by reflexivity.
  assert (Hday : Forall (fun c => call_day c = 1%Z)
            [CheckDailyLoss (Scenario.with_equity 1 900) 500;
             CanTrade (Scenario.with_equity 1 2000) (Scenario.one_call 17) 500 neutral])
    by (repeat constructor).
  destruct (snapshot_fixed_within_day Scenario.live _ _ _ Hd Hday) as (H & _).
  exact H.
Defined.

(** X3: on a manager that is not latched, a check of the day the
    snapshot [start] was taken fires the kill switch exactly when the
    loss [start - portfolio value] reaches the dynamic daily loss limit
    (14% of the current balance, rounded to cents), where the portfolio
    value is the account balance, or the capital passed in for the
    sandbox; the first check of another day takes the snapshot at the
    portfolio value and so fires exactly when that limit is not
    positive. *)
Theorem kill_switch_fires_iff (cfg : Config) (W : World) (st : RiskState) (capital : Q) :
  let pv := if sandbox cfg then capital else get_account_balance cfg W in
  let limit := py_round2 (get_account_balance cfg W * (14#100)) in
  let killed := (check_daily_loss_limit cfg W st capital).2.1 in
  (forall start,
     _last_reset_date st = Some (today W) -> _killed_today st = false ->
     _start_of_day_capital st = Some start ->
     (killed = true <-> limit <= start - pv)) /\
  (_last_reset_date st <> Some (today W) ->
     (killed = true <-> limit <= 0) /\
     _start_of_day_capital (check_daily_loss_limit cfg W st capital).1 = Some pv).
Proof.
  cbv zeta. unfold check_daily_loss_limit. cbv zeta.
  rewrite check_portfolio_value. fold (_dynamic_daily_loss_limit cfg W).
  change (py_round2 (get_account_balance cfg W * (14#100)))
    with (_dynamic_daily_loss_limit cfg W).
  split.
  - intros start Hd Hk Hs. rewrite reset_same_day by exact Hd.
    rewrite Hk, Hs.
    destruct (Qleb _ _) eqn:E; [apply Qleb_le in E | apply Qleb_gt in E]; cbn.
    + split; auto.
    + split; [discriminate | intros H; lra].
  - intros Hd. rewrite reset_new_day by exact Hd. cbn.
    destruct (Qleb _ _) eqn:E; [apply Qleb_le in E | apply Qleb_gt in E]; cbn.
    + split; [| reflexivity]. split; [intros _; lra | reflexivity].
    + split; [| reflexivity]. split; [discriminate | intros H; lra].
Qed.

(** The live account that took 1000 at the start of the day and stands
    at 859.99 has lost 140.01, more than 14% of 859.99. *)
Lemma kill_switch_fires_iff_witness :
  (check_daily_loss_limit Scenario.live (Scenario.with_equity 1 (85999#100))
     Scenario.day1_from_1000 500).2.1 = true.
Proof.
  destruct (kill_switch_fires_iff Scenario.live (Scenario.with_equity 1 (85999#100))
              Scenario.day1_from_1000 500) as [H _].
  apply (H 1000 eq_refl eq_refl eq_refl). vm_compute. discriminate.
Defined.

(** ** The trading cycle *)


Lemma string_length_append (s t : string) :
  String.length (s +:+ t) = (String.length s + String.length t)%nat.
Proof.
  induction s as [| c s IH]; [reflexivity |].
  change (S (String.length (s +:+ t)) = S (String.length s + String.length t)).
  now rewrite IH.
Qed.

Lemma score_key_fresh (s : string) : s +:+ "_score" <> s.
Proof.
  intros H. apply (f_equal String.length) in H.
  rewrite string_length_append in H. cbn in H. lia.
Qed.

(** [record_entry] followed by the lookups of the monitor: the entry
    price, the entry score under [symbol + "_score"] and the peak are
    the recorded ones; the records of other symbols are not touched. *)
Lemma record_entry_lookup (m : Monitor) (symbol : string) (entry_price score : Q) :
  let m' := record_entry m symbol entry_price score in
  entry_prices m' !! symbol = Some entry_price /\
  entry_prices m' !! (symbol +:+ "_score") = Some score /\
  peak_prices m' !! symbol = Some entry_price /\
  (forall other, other <> symbol -> peak_prices m' !! other = peak_prices m !! other) /\
  (forall other, other <> symbol -> other <> symbol +:+ "_score" ->
     entry_prices m' !! other = entry_prices m !! other).
Proof.
  cbn. repeat split.
  - rewrite lookup_insert_ne by apply score_key_fresh. apply lookup_insert_eq.
  - apply lookup_insert_eq.
  - apply lookup_insert_eq.
  - intros other Hne. now rewrite lookup_insert_ne.
  - intros other H1 H2. now rewrite !lookup_insert_ne.
Qed.

Lemma pick_trade_spec cfg W open_tickers cooldown now effective sigs trade sig :
  pick_trade cfg W open_tickers cooldown now effective sigs = Some (trade, sig) ->
  sig ∈ sigs /\
  (sig_ticker sig ∉ open_tickers) /\
  default 0 (cooldown !! sig_ticker sig) <= now /\
  select_contract cfg W sig effective = Some trade.
Proof.
  induction sigs as [| s sigs IH]; cbn; [discriminate |].
  case_bool_decide as Ho.
  { intros H. apply IH in H as (? & ? & ? & ?). repeat split; auto.
    now apply list_elem_of_further. }
  destruct (Qltb now _) eqn:Hc; [| apply Qltb_ge in Hc].
  { intros H. apply IH in H as (? & ? & ? & ?). repeat split; auto.
    now apply list_elem_of_further. }
  destruct (select_contract cfg W s effective) as [t |] eqn:Hs.
  - intros [= <- <-]. repeat split; auto. apply list_elem_of_here.
  - intros H. apply IH in H as (? & ? & ? & ?). repeat split; auto.
    now apply list_elem_of_further.
Qed.


(** What an attempted order went through, whether the broker took it
    or not. *)
Lemma run_once_order_attempted cfg C a a' evs trade :
  (run_once cfg C a = (a', evs, Order_submitted trade) \/
   run_once cfg C a = (a', evs, Order_failed trade)) ->
  let effective := effective_capital cfg C in
  let checked := check_and_exit (at_monitor C) (ag_monitor a) in
  let cooldown :=
    apply_cooldown (closed_at C) (recently_closed checked.1) (ag_ticker_cooldown a) in
  min_capital_to_trade cfg <= effective /\
  (exists sig,
     sig ∈ (get_top_signals (kernels C) (feeds C) (min_signal_score cfg)).2 /\
     (sig_ticker sig ∉ get_open_tickers (at_open_tickers C)) /\
     default 0 (cooldown !! sig_ticker sig) <= now_ts C /\
     select_contract cfg (at_select C) sig effective = Some trade) /\
  can_trade cfg (at_risk C) (ag_risk a) trade effective
    (get_top_signals (kernels C) (feeds C) (min_signal_score cfg)).1
    = (ag_risk a', (true, OK)) /\
  evs = checked.2.
Proof.
  cbv zeta. unfold run_once.
  destruct (check_and_exit (at_monitor C) (ag_monitor a)) as [m evs0]. cbn [fst snd].
  destruct (Qltb _ (min_capital_to_trade cfg)) eqn:Hmin;
    [intros [[=] | [=]] | apply Qltb_ge in Hmin].
  destruct (get_top_signals (kernels C) (feeds C) (min_signal_score cfg))
    as [regime top] eqn:Htop. cbn [fst snd].
  destruct (bool_decide (top = [])); [intros [[=] | [=]] |].
  destruct (pick_trade _ _ _ _ _ _ _) as [[t best] |] eqn:Hpick;
    [| intros [[=] | [=]]].
  apply pick_trade_spec in Hpick as (Hin & Hopen & Hcool & Hsel).
  pose proof (can_trade_cases cfg (at_risk C) (ag_risk a) t
                (effective_capital cfg C) regime) as (_ & Hok & _).
  destruct (can_trade cfg (at_risk C) (ag_risk a) t (effective_capital cfg C) regime)
    as [risk [ok reason]] eqn:Hrisk. cbn [fst snd] in Hok.
  destruct ok; cbn [negb]; [| intros [[=] | [=]]].
  assert (Hr : reason = OK) by now apply Hok. subst reason.
  destruct (place_order_ok (at_order C) (tc_option_symbol t));
    (intros [H | H]; inversion H; subst; clear H);
    (split; [exact Hmin |]); (split; [exists best; auto |]); auto.
Qed.

(** X4: an order that [run_once] submits was checked on the way: the
    effective capital (the smaller of available capital and dynamic
    limit) reaches the configured minimum; the trade is the contract
    selected for a signal of the ranking whose ticker has no open
    position and is not cooling down; its cost is within the effective
    capital, hence within the available capital and the dynamic limit;
    the kill switch is not set; and the trade is recorded: entry price
    and peak are the ask, the entry score is the score of the signal,
    and the trade is the one appended to the day's trades. *)
Theorem run_once_order_checked (cfg : Config) (C : CycleWorld) (a a' : AgentState)
    (evs : list Event) (trade : TradeCandidate)
    (Hrun : run_once cfg C a = (a', evs, Order_submitted trade)) :
  let effective := effective_capital cfg C in
  min_capital_to_trade cfg <= effective /\
  tc_total_cost trade <= effective /\
  tc_total_cost trade <= get_available_capital cfg (at_capital C) (cash_field C) /\
  tc_total_cost trade <= _dynamic_capital_limit cfg (at_limit C) /\
  tc_signal trade ∈ (get_top_signals (kernels C) (feeds C) (min_signal_score cfg)).2 /\
  (tc_ticker trade ∉ get_open_tickers (at_open_tickers C)) /\
  tc_ticker trade = sig_ticker (tc_signal trade) /\
  (get_open_position_count (at_risk C) < _dynamic_max_positions cfg (at_risk C))%Z /\
  _killed_today (ag_risk a') = false /\
  entry_prices (ag_monitor a') !! tc_option_symbol trade = Some (tc_ask trade) /\
  entry_prices (ag_monitor a') !! (tc_option_symbol trade +:+ "_score")
    = Some (sig_score (tc_signal trade)) /\
  peak_prices (ag_monitor a') !! tc_option_symbol trade = Some (tc_ask trade) /\
  ag_trades_today a' = ag_trades_today a ++ [trade].
Proof.
  intros effective.
  destruct (run_once_order_attempted cfg C a a' evs trade (or_introl Hrun))
    as (Hmin & (sig & Hin & Hopen & Hcool & Hsel) & Hrisk & _).
  fold effective in Hmin, Hsel, Hrisk.
  pose proof (can_trade_cases cfg (at_risk C) (ag_risk a) trade effective
                (get_top_signals (kernels C) (feeds C) (min_signal_score cfg)).1)
    as (Hadm & _ & Hst).
  rewrite Hrisk in Hadm, Hst. cbn [fst snd] in Hadm, Hst.
  destruct (proj1 Hadm eq_refl) as (Hkill & _ & Hpos & Hcost & _).
  destruct (select_contract_direction _ _ _ _ _ Hsel) as (Hsig & _).
  assert (Htick : tc_ticker trade = sig_ticker sig).
  { revert Hsel. unfold select_contract. cbv zeta.
    destruct (_ && _); [discriminate |].
    destruct (get_nearest_expiry _ _ _) as [expiry |]; [| discriminate].
    cbn [mbind option_bind].
    destruct (options_chain _ _ _) as [options |]; [| discriminate].
    cbn [mbind option_bind].
    destruct (bool_decide (options = [])); [discriminate |].
    destruct (sig_direction sig) as [d |]; [| discriminate].
    cbn [mbind option_bind].
    destruct (bool_decide (_ = [])); [discriminate |].
    destruct (foldl _ None _) as [[best diff] |]; [| discriminate].
    cbn [mbind option_bind].
    destruct (size_position _ _ _) as [n total].
    now intros [= <-]. }
  assert (Heff1 : effective <= get_available_capital cfg (at_capital C) (cash_field C))
    by apply Q.le_min_l.
  assert (Heff2 : effective <= _dynamic_capital_limit cfg (at_limit C))
    by apply Q.le_min_r.
  assert (Hkilled : _killed_today (ag_risk a') = false).
  { destruct (check_daily_loss_limit cfg (at_risk C) (ag_risk a) effective)
      as [st1 [k r]] eqn:Hc. cbn in Hkill, Hst. subst k st1.
    revert Hc. unfold check_daily_loss_limit. cbv zeta.
    destruct (_killed_today (_reset_if_new_day _ _ _)) eqn:Hk; [discriminate |].
    destruct (_start_of_day_capital _); [| intros [= <- _]; exact Hk].
    destruct (Qleb _ _); [discriminate |]. intros [= <- _]. exact Hk. }
  (* the recorded state *)
  revert Hrun. unfold run_once.
  destruct (check_and_exit (at_monitor C) (ag_monitor a)) as [m evs0].
  fold effective.
  destruct (Qltb effective _); [discriminate |].
  destruct (get_top_signals (kernels C) (feeds C) (min_signal_score cfg))
    as [regime top]. cbn [fst snd] in *.
  destruct (bool_decide (top = [])); [discriminate |].
  destruct (pick_trade _ _ _ _ _ _ _) as [[t best] |] eqn:Hpick; [| discriminate].
  apply pick_trade_spec in Hpick as (_ & _ & _ & Hsel').
  destruct (can_trade cfg (at_risk C) (ag_risk a) t effective regime)
    as [risk [ok reason]].
  destruct ok; cbn [negb]; [| discriminate].
  destruct (place_order_ok _ _); [| discriminate].
  intros [= <- _ ->]. cbn [ag_monitor ag_trades_today].
  destruct (select_contract_direction _ _ _ _ _ Hsel') as (Hbest & _).
  assert (Hbs : best = sig) by congruence. subst best.
  destruct (record_entry_lookup
              {| entry_prices := entry_prices m; peak_prices := peak_prices m;
                 recently_closed := ∅; daily_realized_pnl := daily_realized_pnl m |}
              (tc_option_symbol trade) (tc_ask trade) (sig_score sig))
    as (R1 & R2 & R3 & _).
  rewrite Hsig, Htick.
  repeat split; auto; lra.
Qed.

(** The calm cycle submits one TSLA call for 100. *)
Lemma run_once_order_checked_witness :
  exists a' evs trade,
    run_once CONFIG CycleScenario.calm agent_init = (a', evs, Order_submitted trade) /\
    tc_total_cost trade <= effective_capital CONFIG CycleScenario.calm /\
    ag_trades_today a' = [trade].
Proof.
  destruct (run_once CONFIG CycleScenario.calm agent_init) as [[a' evs] o] eqn:E.
  assert (Ho : exists trade, o = Order_submitted trade).
  { apply (f_equal snd) in E. cbn [snd] in E. rewrite <- E.
    vm_compute. eexists. reflexivity. }
  destruct Ho as [trade ->]. exists a', evs, trade. split; [reflexivity |].
  destruct (run_once_order_checked _ _ _ _ _ _ E) as (_ & H1 & H2).
  split; [exact H1 |]. apply H2.
Defined.

(** Whatever the outcome, the cycle hands on the monitor's log, sets
    the cooldowns and empties the set of closed tickers; and unless an
    order was submitted it leaves the day's trades and the entry and
    peak records as the position monitor left them. *)
Lemma run_once_frame cfg C a :
  let result := run_once cfg C a in
  let checked := check_and_exit (at_monitor C) (ag_monitor a) in
  result.1.2 = checked.2 /\
  ag_ticker_cooldown result.1.1
    = apply_cooldown (closed_at C) (recently_closed checked.1) (ag_ticker_cooldown a) /\
  recently_closed (ag_monitor result.1.1) = ∅ /\
  ((forall trade, result.2 <> Order_submitted trade) ->
     ag_trades_today result.1.1 = ag_trades_today a /\
     entry_prices (ag_monitor result.1.1) = entry_prices checked.1 /\
     peak_prices (ag_monitor result.1.1) = peak_prices checked.1).
Proof.
  cbv zeta. unfold run_once.
  destruct (check_and_exit (at_monitor C) (ag_monitor a)) as [m evs0]. cbn [fst snd].
  destruct (Qltb _ (min_capital_to_trade cfg)); [cbn; repeat split; auto |].
  destruct (get_top_signals (kernels C) (feeds C) (min_signal_score cfg))
    as [regime top]. cbn [fst snd].
  destruct (bool_decide (top = [])); [cbn; repeat split; auto |].
  destruct (pick_trade _ _ _ _ _ _ _) as [[t best] |]; [| cbn; repeat split; auto].
  destruct (can_trade _ _ _ _ _ _) as [risk [ok reason]].
  destruct ok; cbn [negb]; [| cbn; repeat split; auto].
  destruct (place_order_ok _ _); cbn; [| repeat split; auto].
  repeat split; auto; try (now destruct (H t));
    intros Hno; now destruct (Hno t).
Qed.

(** X5: [run_once] records nothing unless the order was submitted:
    when the cycle ends for lack of capital, of signals or of a
    contract, on a denial of the risk manager or on a failed order, the
    day's trades and the entry and peak records are the ones the
    position monitor left. *)
Theorem run_once_records_only_submitted (cfg : Config) (C : CycleWorld)
    (a a' : AgentState) (evs : list Event) (o : Outcome)
    (Hrun : run_once cfg C a = (a', evs, o))
    (Hnot : forall trade, o <> Order_submitted trade) :
  let checked := check_and_exit (at_monitor C) (ag_monitor a) in
  ag_trades_today a' = ag_trades_today a /\
  entry_prices (ag_monitor a') = entry_prices checked.1 /\
  peak_prices (ag_monitor a') = peak_prices checked.1 /\
  evs = checked.2.
Proof.
  destruct (run_once_frame cfg C a) as (Hev & _ & _ & Hrec).
  rewrite Hrun in Hev, Hrec. cbn [fst snd] in Hev, Hrec.
  destruct (Hrec Hnot) as (H1 & H2 & H3). cbv zeta. auto.
Qed.

(** The cycle that closes the TSLA position finds no contract and
    records no trade. *)
Lemma run_once_records_only_submitted_witness :
  exists a' evs,
    run_once CONFIG CycleScenario.closing_cycle CycleScenario.holder
      = (a', evs, No_contract) /\
    ag_trades_today a' = [].
Proof.
  destruct (run_once CONFIG CycleScenario.closing_cycle CycleScenario.holder)
    as [[a' evs] o] eqn:E.
  assert (Ho : o = No_contract).
  { apply (f_equal snd) in E. cbn [snd] in E. rewrite <- E. vm_compute. reflexivity. }
  subst o. exists a', evs. split; [reflexivity |].
  assert (Hnot : forall trade, No_contract <> Order_submitted trade) by discriminate.
  destruct (run_once_records_only_submitted _ _ _ _ _ _ E Hnot) as (H & _).
  exact H.
Defined.

Lemma apply_cooldown_lookup closed_at (closed : gset string) cooldown t :
  apply_cooldown closed_at closed cooldown !! t
  = if bool_decide (t ∈ closed) then Some (closed_at t + 400) else cooldown !! t.
Proof.
  unfold apply_cooldown.
  assert (H : forall l : list string,
            foldr (fun ticker m => <[ticker := closed_at ticker + 400]> m) cooldown l !! t
            = if bool_decide (t ∈ l) then Some (closed_at t + 400) else cooldown !! t).
  { induction l as [| x l IH]; cbn.
    - rewrite bool_decide_eq_false_2; [reflexivity | apply not_elem_of_nil].
    - destruct (decide (x = t)) as [-> | Hne].
      + rewrite lookup_insert_eq, bool_decide_eq_true_2; [reflexivity |].
        apply list_elem_of_here.
      + rewrite lookup_insert_ne by exact Hne. rewrite IH.
        rewrite (bool_decide_ext (t ∈ l) (t ∈ x :: l)); [reflexivity |].
        rewrite elem_of_cons. split; [auto | intros [-> | ?]; [contradiction | assumption]]. }
  rewrite H.
  now rewrite (bool_decide_ext (t ∈ elements closed) (t ∈ closed))
    by apply elem_of_elements.
Qed.

Lemma close_position_closed W m symbol qty bid :
  let r := _close_position W m symbol qty bid in
  recently_closed m ⊆ recently_closed r.1 /\
  (forall s q p, Close_order_placed s q p ∈ r.2 ->
     forall t, match_ticker s = Some t -> t ∈ recently_closed r.1).
Proof.
  cbv zeta. unfold _close_position.
  destruct (place_order_ok W symbol); cbn.
  - split.
    + destruct (match_ticker symbol); set_solver.
    + intros s q p Hin t Ht. apply list_elem_of_singleton in Hin.
      injection Hin as -> _ _. rewrite Ht. set_solver.
  - split; [set_solver |].
    intros s q p Hin. apply list_elem_of_singleton in Hin. discriminate.
Qed.

Lemma check_position_closed W m pos m' evs :
  check_position W m pos = Some (m', evs) ->
  recently_closed m ⊆ recently_closed m' /\
  (forall s q p, Close_order_placed s q p ∈ evs ->
     forall t, match_ticker s = Some t -> t ∈ recently_closed m').
Proof.
  unfold check_position.
  destruct (quote_bid W (p_symbol pos)) as [bid |]; [| discriminate].
  cbn [mbind option_bind].
  destruct (_ || _).
  { intros [= <- <-]. split; [set_solver |].
    intros s q p Hin. now apply not_elem_of_nil in Hin. }
  destruct (_dynamic_tp_sl _) as [tp_pct sl_pct].
  set (m1 := {| entry_prices := entry_prices m;
                peak_prices := _;
                recently_closed := recently_closed m;
                daily_realized_pnl := daily_realized_pnl m |}).
  pose proof (close_position_closed W m1 (p_symbol pos) (p_quantity pos) bid) as Hc.
  cbv zeta in Hc.
  destruct (_close_position W m1 (p_symbol pos) (p_quantity pos) bid) as [m2 tail].
  cbn [fst snd recently_closed] in Hc. destruct Hc as [Hsub Hcl].
  assert (Hcons : forall e : Event,
            (forall s q p, e <> Close_order_placed s q p) ->
            forall s q p, Close_order_placed s q p ∈ e :: tail ->
            forall t, match_ticker s = Some t -> t ∈ recently_closed m2).
  { intros e He s q p Hin t Ht. apply elem_of_cons in Hin as [Hin | Hin].
    - now destruct (He s q p).
    - exact (Hcl s q p Hin t Ht). }
  destruct (_ && _); [| destruct (Qleb tp_pct _); [| destruct (Qleb _ (- sl_pct))]];
    intros [= <- <-]; (split; [try exact Hsub; set_solver |]);
    try (apply Hcons; discriminate).
  intros s q p Hin. apply list_elem_of_singleton in Hin. discriminate.
Qed.

Lemma check_positions_closed W l : forall m,
  let r := check_positions W m l in
  recently_closed m ⊆ recently_closed r.1 /\
  (forall s q p, Close_order_placed s q p ∈ r.2 ->
     forall t, match_ticker s = Some t -> t ∈ recently_closed r.1).
Proof.
  induction l as [| pos l IH]; intros m; cbn.
  - split; [set_solver |]. intros s q p Hin. now apply not_elem_of_nil in Hin.
  - destruct (check_position W m pos) as [[m1 evs1] |] eqn:Hp; cbn.
    + apply check_position_closed in Hp as [Hsub1 Hcl1].
      specialize (IH m1). cbv zeta in IH.
      destruct (check_positions W m1 l) as [m2 evs2]. cbn in *.
      destruct IH as [Hsub2 Hcl2]. split; [set_solver |].
      intros s q p Hin t Ht. apply elem_of_app in Hin as [Hin | Hin].
      * apply Hsub2. eapply Hcl1; eauto.
      * eapply Hcl2; eauto.
    + split; [set_solver |]. intros s q p Hin. now apply not_elem_of_nil in Hin.
Qed.

(** X6: no re-entry in the cycle of the exit: when the position monitor
    places a closing order for a symbol in a cycle, the ticker at the
    head of the symbol cools down until 400 seconds after its close
    timestamp, and as long as the timestamp of the contract selection
    is before that, the cycle attempts no order for that ticker. *)
Theorem no_reentry_in_closing_cycle (cfg : Config) (C : CycleWorld)
    (a a' : AgentState) (evs : list Event) (o : Outcome)
    (symbol ticker : string) (qty : Z) (price : Q)
    (Hrun : run_once cfg C a = (a', evs, o))
    (Hclosed : Close_order_placed symbol qty price ∈ evs)
    (Hticker : match_ticker symbol = Some ticker)
    (Htime : now_ts C < closed_at C ticker + 400) :
  ag_ticker_cooldown a' !! ticker = Some (closed_at C ticker + 400) /\
  (forall trade, o = Order_submitted trade \/ o = Order_failed trade ->
     tc_ticker trade <> ticker).
Proof.
  destruct (run_once_frame cfg C a) as (Hev & Hcd & _).
  rewrite Hrun in Hev, Hcd. cbn [fst snd] in Hev, Hcd.
  assert (Hin : ticker ∈ recently_closed (check_and_exit (at_monitor C) (ag_monitor a)).1).
  { rewrite Hev in Hclosed. unfold check_and_exit in *.
    destruct (positions (at_monitor C)) as [| | | l];
      try (now apply not_elem_of_nil in Hclosed).
    destruct (check_positions_closed (at_monitor C) l (ag_monitor a)) as [_ Hcl].
    eapply Hcl; eauto. }
  assert (Hlook : apply_cooldown (closed_at C)
                    (recently_closed (check_and_exit (at_monitor C) (ag_monitor a)).1)
                    (ag_ticker_cooldown a) !! ticker
                  = Some (closed_at C ticker + 400)).
  { rewrite apply_cooldown_lookup. now rewrite bool_decide_eq_true_2. }
  split; [now rewrite Hcd |].
  intros trade Ho Ht.
  assert (Hrun' : run_once cfg C a = (a', evs, Order_submitted trade) \/
                  run_once cfg C a = (a', evs, Order_failed trade)).
  { rewrite Hrun. destruct Ho as [-> | ->]; auto. }
  destruct (run_once_order_attempted _ _ _ _ _ _ Hrun')
    as (_ & (sig & _ & _ & Hcool & Hsel) & _).
  assert (Hts : sig_ticker sig = ticker).
  { rewrite <- Ht. revert Hsel. unfold select_contract. cbv zeta.
    destruct (_ && _); [discriminate |].
    destruct (get_nearest_expiry _ _ _) as [expiry |]; [| discriminate].
    cbn [mbind option_bind].
    destruct (options_chain _ _ _) as [options |]; [| discriminate].
    cbn [mbind option_bind].
    destruct (bool_decide (options = [])); [discriminate |].
    destruct (sig_direction sig) as [d |]; [| discriminate].
    cbn [mbind option_bind].
    destruct (bool_decide (_ = [])); [discriminate |].
    destruct (foldl _ None _) as [[best diff] |]; [| discriminate].
    cbn [mbind option_bind].
    destruct (size_position _ _ _) as [n total].
    now intros [= <-]. }
  rewrite Hts, Hlook in Hcool. cbn in Hcool. lra.
Qed.

(** The cycle in which the trailing stop closes the TSLA call sets the
    TSLA cooldown to 1400 and does not trade TSLA. *)
Lemma no_reentry_in_closing_cycle_witness :
  exists a' evs o,
    run_once CONFIG CycleScenario.closing_cycle CycleScenario.holder = (a', evs, o) /\
    ag_ticker_cooldown a' !! "TSLA"%string = Some (1000 + 400).
Proof.
  destruct (run_once CONFIG CycleScenario.closing_cycle CycleScenario.holder)
    as [[a' evs] o] eqn:E.
  exists a', evs, o. split; [reflexivity |].
  assert (Hev : Close_order_placed "TSLA250117C00255000" 1
                  (py_round2 ((27#10) * (98#100))) ∈ evs).
  { apply (f_equal (fun r => r.1.2)) in E. cbn [fst snd] in E. rewrite <- E.
    vm_compute. apply list_elem_of_further, list_elem_of_here. }
  destruct (no_reentry_in_closing_cycle CONFIG CycleScenario.closing_cycle _ _ _ _
              "TSLA250117C00255000" "TSLA" 1 _ E Hev eq_refl) as [H _].
  - reflexivity.
  - exact H.
Defined.

(** ** The trading day of the loop *)

Lemma market_open_spec (h m : Z) :
  market_open h m = true <->
  ((h = 9 /\ 30 <= m) \/ (10 <= h <= 14) \/ (h = 15 /\ m <= 45))%Z.
Proof.
  unfold market_open.
  rewrite !orb_true_iff, !andb_true_iff, !Z.eqb_eq, !Z.leb_le. tauto.
Qed.

Lemma blackout_spec (h m : Z) :
  (h =? 15)%Z && (30 <=? m)%Z = true <-> (h = 15 /\ 30 <= m)%Z.
Proof. rewrite andb_true_iff, Z.eqb_eq, Z.leb_le. tauto. Qed.

(** X7: the entry window. [run_loop] runs cycles on weekdays from 09:30
    to 15:45 Eastern, and [select_contract] refuses from 15:30 to
    15:59, so a contract can be selected in a cycle only from 09:30 to
    15:29; in the last sixteen minutes of the loop's day, 15:30 to
    15:45, cycles still run, but no contract is selected. *)
Theorem entry_window (cfg : Config) (W : World) (signal : Signal) (capital : Q)
    (weekday : Z) :
  (loop_action weekday (hour W) (minute W) = Run_cycle ->
   is_Some (select_contract cfg W signal capital) ->
   (weekday < 5)%Z /\
   ((hour W = 9 /\ 30 <= minute W) \/ (10 <= hour W <= 14) \/
    (hour W = 15 /\ minute W < 30))%Z) /\
  ((weekday < 5)%Z -> hour W = 15%Z -> (30 <= minute W <= 45)%Z ->
   loop_action weekday (hour W) (minute W) = Run_cycle /\
   select_contract cfg W signal capital = None).
Proof.
  unfold loop_action, select_contract. cbv zeta. split.
  - destruct (5 <=? weekday)%Z eqn:Hw; [discriminate | apply Z.leb_gt in Hw].
    destruct (market_open (hour W) (minute W)) eqn:Hm; [| discriminate].
    apply market_open_spec in Hm.
    destruct ((hour W =? 15)%Z && (30 <=? minute W)%Z) eqn:Hb.
    + intros _ [c Hc]. discriminate.
    + intros _ _. split; [exact Hw |].
      apply not_true_iff_false in Hb. rewrite blackout_spec in Hb. lia.
  - intros Hw H15 [H30 H45].
    rewrite (proj2 (Z.leb_gt _ _) Hw).
    rewrite (proj2 (market_open_spec _ _)) by lia. cbn [negb].
    rewrite (proj2 (blackout_spec _ _)) by lia.
    split; reflexivity.
Qed.

(** At 15:40 on a Tuesday the loop runs a cycle and no contract is
    selected, whatever the chain offers. *)
Lemma entry_window_witness :
  let W := {| today := 1; hour := 15; minute := 40; balances := Bal_error;
              positions := Pos_list [];
              expirations := fun _ => Some [8; 1]%Z;
              options_chain := fun _ _ => Some [Scenario.tsla_call];
              quote_bid := fun _ => None; place_order_ok := fun _ => true |} in
  loop_action 1 15 40 = Run_cycle /\
  select_contract CONFIG W (Scenario.call_signal 17) 500 = None.
Proof.
  intros W.
  destruct (entry_window CONFIG W (Scenario.call_signal 17) 500 1) as [_ H].
  apply H; cbn; lia.
Defined.

(** ** The sandbox and the kill switch *)

(** In the sandbox the effective capital of a cycle is the capital
    limit, whatever the broker answers. *)
Lemma sandbox_effective_capital cfg C :
  sandbox cfg = true -> Cycle.effective_capital cfg C == capital_limit cfg.
Proof.
  intros Hs. unfold Cycle.effective_capital, Cycle.get_available_capital.
  rewrite Hs. apply Q.min_l.
  unfold _dynamic_capital_limit. apply capital_limit_for_ge_base.
Qed.

(** A check of the daily loss on the capital limit keeps a sandbox
    agent out of the kill switch. *)
Lemma check_sandbox cfg W st capital :
  sandbox cfg = true ->
  0 < py_round2 (capital_limit cfg * (14#100)) ->
  capital == capital_limit cfg ->
  CycleProps.sandbox_risk cfg st ->
  CycleProps.sandbox_risk cfg (check_daily_loss_limit cfg W st capital).1 /\
  (check_daily_loss_limit cfg W st capital).2 = (false, OK).
Proof.
  intros Hs Hlim Hcap [Hk Hstart].
  unfold check_daily_loss_limit. cbv zeta.
  rewrite check_portfolio_value, Hs.
  assert (Hinv : CycleProps.sandbox_risk cfg (_reset_if_new_day W st capital)).
  { unfold _reset_if_new_day. destruct (bool_decide _); [| now split].
    split; [reflexivity |]. cbn. intros start [= <-]. exact Hcap. }
  destruct Hinv as [Hk' Hstart']. rewrite Hk'.
  destruct (_start_of_day_capital (_reset_if_new_day W st capital)) as [start |] eqn:E.
  - assert (Hl : Qleb (_dynamic_daily_loss_limit cfg W) (start - capital) = false).
    { apply Qleb_gt. unfold _dynamic_daily_loss_limit, get_account_balance.
      rewrite Hs. rewrite (Hstart' start eq_refl), Hcap. lra. }
    rewrite Hl. cbn [fst snd]. split; [| reflexivity].
    split; [exact Hk' |]. intros s Hs'. apply Hstart'. congruence.
  - cbn [fst snd]. split; [| reflexivity].
    split; [exact Hk' |]. intros s Hs'. congruence.
Qed.

Lemma run_once_sandbox cfg C a :
  sandbox cfg = true ->
  0 < py_round2 (capital_limit cfg * (14#100)) ->
  CycleProps.sandbox_risk cfg (Cycle.ag_risk a) ->
  CycleProps.sandbox_risk cfg (Cycle.ag_risk (Cycle.run_once cfg C a).1.1) /\
  CycleProps.not_killed (Cycle.run_once cfg C a).2.
Proof.
  intros Hs Hlim Hinv. unfold Cycle.run_once.
  pose proof (sandbox_effective_capital cfg C Hs) as Heff.
  destruct (check_and_exit (Cycle.at_monitor C) (Cycle.ag_monitor a)) as [m evs0].
  destruct (Qltb _ (min_capital_to_trade cfg)); [cbn; auto |].
  destruct (get_top_signals (Cycle.kernels C) (Cycle.feeds C) (min_signal_score cfg))
    as [regime top]. cbn [fst snd].
  destruct (bool_decide (top = [])); [cbn; auto |].
  destruct (Cycle.pick_trade _ _ _ _ _ _ _) as [[t best] |]; [| cbn; auto].
  pose proof (check_sandbox cfg (Cycle.at_risk C) (Cycle.ag_risk a)
                (Cycle.effective_capital cfg C) Hs Hlim Heff Hinv) as [Hinv' Hres].
  unfold can_trade.
  destruct (check_daily_loss_limit cfg (Cycle.at_risk C) (Cycle.ag_risk a)
              (Cycle.effective_capital cfg C)) as [st' [killed reason]].
  cbn [fst snd] in Hinv', Hres. injection Hres as -> ->.
  repeat match goal with
  | |- context [if ?b then _ else _] =>
      destruct b; cbn [negb fst snd Cycle.ag_risk CycleProps.not_killed
                       kill_switch_reason]; auto
  end.
Qed.

(** X8: in sandbox mode the daily-loss kill switch never fires. The
    loss is measured on the capital passed in, which [run_once] takes
    as the smaller of the capital limit and the dynamic limit, both the
    configured figure in the sandbox: the measured loss is zero cycle
    after cycle, so with a capital limit whose 14% rounds to more than
    zero no cycle, on any day and whatever the positions lost, ends on
    the kill switch. *)
Theorem sandbox_never_kills (cfg : Config) (Cs : list Cycle.CycleWorld) :
  sandbox cfg = true ->
  0 < py_round2 (capital_limit cfg * (14#100)) ->
  Forall CycleProps.not_killed (Cycle.run_cycles cfg Cs Cycle.agent_init).2 /\
  _killed_today (Cycle.ag_risk (Cycle.run_cycles cfg Cs Cycle.agent_init).1) = false.
Proof.
  intros Hs Hlim.
  assert (Hgen : forall a, CycleProps.sandbox_risk cfg (Cycle.ag_risk a) ->
            Forall CycleProps.not_killed (Cycle.run_cycles cfg Cs a).2 /\
            CycleProps.sandbox_risk cfg (Cycle.ag_risk (Cycle.run_cycles cfg Cs a).1)).
  { induction Cs as [| C Cs IH]; intros a Hinv; cbn [Cycle.run_cycles].
    - cbn. split; [constructor | exact Hinv].
    - destruct (run_once_sandbox cfg C a Hs Hlim Hinv) as [Hinv' Hout].
      destruct (Cycle.run_once cfg C a) as [[a' evs] o]. cbn [fst snd] in Hinv', Hout.
      destruct (IH a' Hinv') as [Hall Hfin].
      destruct (Cycle.run_cycles cfg Cs a') as [a'' os]. cbn [fst snd] in *.
      split; [constructor; assumption | exact Hfin]. }
  destruct (Hgen Cycle.agent_init) as [Hall [Hk _]].
  - split; [reflexivity |]. cbn. discriminate.
  - split; assumption.
Qed.

(** Two cycles of the sandbox agent of the configuration: the calm
    morning and a cycle in which a held call is closed. *)
Lemma sandbox_never_kills_witness :
  Forall CycleProps.not_killed
    (Cycle.run_cycles CONFIG [CycleScenario.calm; CycleScenario.closing_cycle]
       Cycle.agent_init).2.
Proof.
  apply (sandbox_never_kills CONFIG [CycleScenario.calm; CycleScenario.closing_cycle]).
  - reflexivity.
  - vm_compute. reflexivity.
Defined.

(** ** One position per underlying *)

Lemma leading_capitals_app (t rest : string) :
  Cycle.all_capitals t = true -> Cycle.starts_with_capital rest = false ->
  leading_capitals (t +:+ rest) = t.
Proof.
  intros Ht Hr. induction t as [| c t IH].
  - destruct rest as [| c rest]; [reflexivity |].
    cbn [Cycle.starts_with_capital] in Hr. cbv zeta in Hr.
    change ("" +:+ String c rest) with (String c rest).
    cbn [leading_capitals]. cbv zeta. now rewrite Hr.
  - cbn [Cycle.all_capitals] in Ht. cbv zeta in Ht.
    apply andb_true_iff in Ht as [Hc Ht].
    change (String c t +:+ rest) with (String c (t +:+ rest)).
    cbn [leading_capitals]. cbv zeta. rewrite Hc. now rewrite IH.
Qed.

(** X9: one position per underlying. When the broker reports an open
    position whose symbol is a ticker of capitals followed by something
    that does not start with a capital (an OCC option symbol: ticker,
    then the expiry digits), [run_once] attempts no order on that
    ticker in the cycle, submitted or failed. *)
Theorem held_ticker_not_reentered (cfg : Config) (C : Cycle.CycleWorld)
    (a a' : Cycle.AgentState) (evs : list Event) (trade : TradeCandidate)
    (l : list Position) (p : Position) (t rest : string) :
  positions (Cycle.at_open_tickers C) = Pos_list l ->
  p ∈ l ->
  p_symbol p = t +:+ rest ->
  t <> EmptyString ->
  Cycle.all_capitals t = true ->
  Cycle.starts_with_capital rest = false ->
  Cycle.run_once cfg C a = (a', evs, Cycle.Order_submitted trade) \/
  Cycle.run_once cfg C a = (a', evs, Cycle.Order_failed trade) ->
  tc_ticker trade <> t /\ sig_ticker (tc_signal trade) <> t.
Proof.
  intros Hpos Hin Hsym Hne Hcaps Hrest Hrun.
  apply run_once_order_attempted in Hrun.
  cbv zeta in Hrun. destruct Hrun as (_ & (sig & _ & Hopen & _ & Hsel) & _).
  assert (Ht : t ∈ Cycle.get_open_tickers (Cycle.at_open_tickers C)).
  { unfold Cycle.get_open_tickers. rewrite Hpos.
    apply elem_of_list_to_set, list_elem_of_omap.
    exists p. split; [exact Hin |].
    unfold match_ticker. rewrite Hsym, leading_capitals_app by assumption.
    destruct t; [contradiction | reflexivity]. }
  assert (Htick : tc_ticker trade = sig_ticker sig /\ tc_signal trade = sig).
  { clear - Hsel. unfold select_contract in Hsel. cbv zeta in Hsel.
    destruct (_ && _); [discriminate |].
    destruct (get_nearest_expiry _ _ _) as [expiry |]; [| discriminate].
    cbn [mbind option_bind] in Hsel.
    destruct (options_chain _ _ _) as [options |]; [| discriminate].
    cbn [mbind option_bind] in Hsel.
    destruct (bool_decide (options = [])); [discriminate |].
    destruct (sig_direction sig) as [d |]; [| discriminate].
    cbn [mbind option_bind] in Hsel.
    destruct (bool_decide (_ = [])); [discriminate |].
    destruct (foldl _ None _) as [[best diff] |]; [| discriminate].
    cbn [mbind option_bind] in Hsel.
    destruct (size_position _ _ _) as [n total].
    injection Hsel as <-. cbn. split; reflexivity. }
  destruct Htick as [-> ->]. split; intros <-; contradiction.
Qed.

(** With an AAPL put reported open, the calm cycle submits its order,
    and the order is not on AAPL. *)
Lemma held_ticker_not_reentered_witness :
  exists a' evs trade,
    Cycle.run_once CONFIG CycleScenario2.with_aapl_open Cycle.agent_init
      = (a', evs, Cycle.Order_submitted trade) /\
    tc_ticker trade <> "AAPL".
Proof.
  destruct (Cycle.run_once CONFIG CycleScenario2.with_aapl_open Cycle.agent_init)
    as [[a' evs] o] eqn:E.
  assert (Ho : exists trade, o = Cycle.Order_submitted trade).
  { apply (f_equal snd) in E. cbn [snd] in E. rewrite <- E.
    vm_compute. eexists. reflexivity. }
  destruct Ho as [trade ->]. exists a', evs, trade. split; [reflexivity |].
  apply (held_ticker_not_reentered CONFIG CycleScenario2.with_aapl_open
           Cycle.agent_init a' evs trade
           [CycleScenario2.aapl_put] CycleScenario2.aapl_put
           "AAPL" "250117P00200000");
    try reflexivity.
  - apply list_elem_of_here.
  - discriminate.
  - left. exact E.
Defined.

(** ** The contract selection *)

Lemma find_sorted_least (f : Z -> bool) (l : list Z) (e : Z) :
  StronglySorted Z.le l -> List.find f l = Some e ->
  e ∈ l /\ f e = true /\ forall e', e' ∈ l -> f e' = true -> (e <= e')%Z.
Proof.
  induction 1 as [| x l Hs IH Hall]; cbn; [discriminate |].
  destruct (f x) eqn:Hx.
  - intros [= <-]. split; [apply list_elem_of_here |]. split; [exact Hx |].
    intros e' He' _. apply elem_of_cons in He' as [-> | He']; [lia |].
    rewrite List.Forall_forall in Hall. apply Hall. now apply list_elem_of_In.
  - intros Hf. destruct (IH Hf) as (Hin & Hfe & Hleast).
    split; [now apply list_elem_of_further |]. split; [exact Hfe |].
    intros e' He' Hfe'. apply elem_of_cons in He' as [-> | He'];
      [congruence | now apply Hleast].
Qed.

(** X10: [get_nearest_expiry] returns the earliest listed expiration
    that is at least [days_out] days away, in whatever order the broker
    lists them, and nothing exactly when no listed expiration is that
    far away (or the broker gives no list). *)
Theorem nearest_expiry_is_earliest (W : World) (ticker : string) (days_out : Z) :
  (forall e, get_nearest_expiry W ticker days_out = Some e <->
     exists exps, expirations W ticker = Some exps /\ e ∈ exps /\
       (days_out <= e - today W)%Z /\
       forall e', e' ∈ exps -> (days_out <= e' - today W)%Z -> (e <= e')%Z) /\
  (get_nearest_expiry W ticker days_out = None <->
     forall exps, expirations W ticker = Some exps ->
       forall e, e ∈ exps -> (e - today W < days_out)%Z).
Proof.
  unfold get_nearest_expiry.
  destruct (expirations W ticker) as [exps |]; cbn [mbind option_bind].
  2:{ split.
      - intros e. split; [discriminate | intros (? & [=] & _)].
      - split; [intros _ ? [=] | reflexivity]. }
  set (f := fun exp => (days_out <=? exp - today W)%Z).
  assert (Hsorted : StronglySorted Z.le (merge_sort Z.le exps)).
  { apply StronglySorted_merge_sort; [intros x y z; apply Z.le_trans | intros x y; apply Z.le_ge_cases]. }
  assert (Hperm : forall e, e ∈ merge_sort Z.le exps <-> e ∈ exps).
  { intros e. now rewrite merge_sort_Permutation. }
  assert (Hf : forall e, f e = true <-> (days_out <= e - today W)%Z).
  { intros e. unfold f. apply Z.leb_le. }
  assert (Hfwd : forall e, List.find f (merge_sort Z.le exps) = Some e ->
            e ∈ exps /\ (days_out <= e - today W)%Z /\
            forall e', e' ∈ exps -> (days_out <= e' - today W)%Z -> (e <= e')%Z).
  { intros e He. destruct (find_sorted_least f _ e Hsorted He) as (Hin & Hfe & Hleast).
    split; [now apply Hperm |]. split; [now apply Hf |].
    intros e' He' Hd. apply Hleast; [now apply Hperm | now apply Hf]. }
  split.
  - intros e. split.
    + intros He. exists exps. split; [reflexivity |]. now apply Hfwd.
    + intros (exps' & [= <-] & Hin & Hd & Hleast).
      destruct (List.find f (merge_sort Z.le exps)) as [e0 |] eqn:E.
      * destruct (Hfwd e0 eq_refl) as (Hin0 & Hd0 & Hleast0).
        f_equal. pose proof (Hleast e0 Hin0 Hd0). pose proof (Hleast0 e Hin Hd). lia.
      * exfalso.
        assert (He : f e = false)
          by (apply (List.find_none _ _ E e), list_elem_of_In; now apply Hperm).
        unfold f in He. apply Z.leb_gt in He. lia.
  - split.
    + intros Hnone exps' [= <-] e Hin.
      pose proof (List.find_none _ _ Hnone e) as Hn.
      assert (He : f e = false) by (apply Hn, list_elem_of_In; now apply Hperm).
      unfold f in He. apply Z.leb_gt in He. lia.
    + intros Hall. destruct (List.find f (merge_sort Z.le exps)) as [e0 |] eqn:E;
        [| reflexivity].
      destruct (Hfwd e0 eq_refl) as (Hin0 & Hd0 & _).
      specialize (Hall exps eq_refl e0 Hin0). lia.
Qed.

(** The three filters of the selection loop, as one test. *)
Lemma consider_cases cfg target acc opt :
  (SelectorProps.admissible cfg opt /\
   consider cfg target acc opt
   = match acc with
     | None => Some (opt, Qabs (o_strike opt - target))
     | Some (_, best_diff) =>
         if Qltb (Qabs (o_strike opt - target)) best_diff
         then Some (opt, Qabs (o_strike opt - target)) else acc
     end) \/
  (~ SelectorProps.admissible cfg opt /\ consider cfg target acc opt = acc).
Proof.
  unfold consider, SelectorProps.admissible. cbv zeta.
  destruct (Qleb (o_ask opt) 0) eqn:E1; [apply Qleb_le in E1 | apply Qleb_gt in E1];
    cbn [orb]; [right; split; [intros ((H & _) & _); lra | reflexivity] |].
  destruct (Qltb (max_contract_price cfg) (o_ask opt)) eqn:E2;
    [apply Qltb_lt in E2 | apply Qltb_ge in E2];
    [right; split; [intros ((_ & H) & _); lra | reflexivity] |].
  destruct (Qltb (Qabs (o_delta opt)) (2#10)) eqn:E3;
    [apply Qltb_lt in E3 | apply Qltb_ge in E3];
    cbn [orb]; [right; split; [intros (_ & (H & _) & _); lra | reflexivity] |].
  destruct (Qltb (7#10) (Qabs (o_delta opt))) eqn:E4;
    [apply Qltb_lt in E4 | apply Qltb_ge in E4];
    [right; split; [intros (_ & (_ & H) & _); lra | reflexivity] |].
  destruct (Qltb 0 ((o_ask opt + o_bid opt) / 2)) eqn:E5;
    [apply Qltb_lt in E5 | apply Qltb_ge in E5]; cbn [andb].
  - destruct (Qltb (2#10) _) eqn:E6; [apply Qltb_lt in E6 | apply Qltb_ge in E6].
    + right. split; [| reflexivity]. intros (_ & _ & H). specialize (H E5). lra.
    + left. split; [| reflexivity]. repeat split; auto.
  - left. split; [| reflexivity]. repeat split; auto. intros H. lra.
Qed.

Lemma some_pair_eq {A B : Type} (x b : A) (y d : B) :
  Some (x, y) = Some (b, d) -> b = x /\ d = y.
Proof. intros H. split; congruence. Qed.

(** What the selection loop holds after any number of contracts: an
    admissible contract seen so far, with its distance to the target,
    no farther from it than any admissible contract seen so far. *)
Lemma best_closest cfg target opts : forall acc seen,
  (forall b d, acc = Some (b, d) ->
     b ∈ seen /\ SelectorProps.admissible cfg b /\ d = Qabs (o_strike b - target) /\
     forall o, o ∈ seen -> SelectorProps.admissible cfg o ->
       d <= Qabs (o_strike o - target)) ->
  (acc = None -> forall o, o ∈ seen -> ~ SelectorProps.admissible cfg o) ->
  (forall b d, foldl (consider cfg target) acc opts = Some (b, d) ->
     b ∈ seen ++ opts /\ SelectorProps.admissible cfg b /\
     forall o, o ∈ seen ++ opts -> SelectorProps.admissible cfg o ->
       Qabs (o_strike b - target) <= Qabs (o_strike o - target)) /\
  (foldl (consider cfg target) acc opts = None ->
     forall o, o ∈ seen ++ opts -> ~ SelectorProps.admissible cfg o).
Proof.
  induction opts as [| opt opts IH]; intros acc seen Hsome Hnone.
  - cbn [foldl]. rewrite app_nil_r. split.
    + intros b d Hacc. destruct (Hsome b d Hacc) as (Hin & Hadm & -> & Hleast).
      split; [exact Hin |]. split; [exact Hadm | exact Hleast].
    + exact Hnone.
  - cbn [foldl].
    replace (seen ++ opt :: opts) with ((seen ++ [opt]) ++ opts)
      by (now rewrite <- app_assoc).
    apply IH.
    + intros b d Hc.
      destruct (consider_cases cfg target acc opt) as [[Hadm Heq] | [Hadm Heq]];
        rewrite Heq in Hc.
      * destruct acc as [[b0 d0] |].
        -- destruct (Hsome b0 d0 eq_refl) as (Hin0 & Hadm0 & Hd0 & Hleast0).
           destruct (Qltb _ d0) eqn:E; [apply Qltb_lt in E | apply Qltb_ge in E].
           ++ apply some_pair_eq in Hc as [-> ->].
              split; [apply elem_of_app; right; apply list_elem_of_here |].
              split; [exact Hadm |]. split; [reflexivity |].
              intros o Ho Hoa. apply elem_of_app in Ho as [Ho | Ho].
              ** pose proof (Hleast0 o Ho Hoa). lra.
              ** apply list_elem_of_singleton in Ho as ->. lra.
           ++ apply some_pair_eq in Hc as [-> ->].
              split; [apply elem_of_app; left; exact Hin0 |].
              split; [exact Hadm0 |]. split; [exact Hd0 |].
              intros o Ho Hoa. apply elem_of_app in Ho as [Ho | Ho].
              ** now apply Hleast0.
              ** apply list_elem_of_singleton in Ho as ->. exact E.
        -- apply some_pair_eq in Hc as [-> ->].
           split; [apply elem_of_app; right; apply list_elem_of_here |].
           split; [exact Hadm |]. split; [reflexivity |].
           intros o Ho Hoa. apply elem_of_app in Ho as [Ho | Ho].
           ** now destruct (Hnone eq_refl o Ho).
           ** apply list_elem_of_singleton in Ho as ->. lra.
      * destruct (Hsome b d Hc) as (Hin & Hadm' & Hd & Hleast).
        split; [apply elem_of_app; left; exact Hin |]. split; [exact Hadm' |]. split; [exact Hd |].
        intros o Ho Hoa. apply elem_of_app in Ho as [Ho | Ho].
        -- now apply Hleast.
        -- apply list_elem_of_singleton in Ho as ->. contradiction.
    + intros Hc o Ho.
      destruct (consider_cases cfg target acc opt) as [[Hadm Heq] | [Hadm Heq]];
        rewrite Heq in Hc.
      * destruct acc as [[b0 d0] |]; [destruct (Qltb _ d0) |]; discriminate.
      * apply elem_of_app in Ho as [Ho | Ho].
        -- now apply Hnone.
        -- apply list_elem_of_singleton in Ho as ->. exact Hadm.
Qed.

(** X11: the contract [select_contract] returns is, in the chain of the
    nearest admissible expiry, a contract of the side of the signal's
    direction that passes the three filters (ask above zero and at most
    the maximum contract price, absolute delta between 0.20 and 0.70,
    spread at most 20% of the mid when the mid is positive), and no
    contract of that side passing the filters has its strike closer to
    the target strike. *)
Theorem selected_contract_closest (cfg : Config) (W : World) (signal : Signal)
    (capital : Q) (c : TradeCandidate)
    (Hsel : select_contract cfg W signal capital = Some c) :
  exists d options best,
    sig_direction signal = Some d /\
    get_nearest_expiry W (sig_ticker signal) (min_days_to_expiry cfg)
      = Some (tc_expiry c) /\
    options_chain W (sig_ticker signal) (tc_expiry c) = Some options /\
    best ∈ options /\
    SelectorProps.on_side d best /\
    SelectorProps.admissible cfg best /\
    (tc_option_symbol c = o_symbol best /\ tc_strike c = o_strike best /\
     tc_ask c = o_ask best /\ tc_bid c = o_bid best /\ tc_delta c = o_delta best) /\
    forall o, o ∈ options -> SelectorProps.on_side d o ->
      SelectorProps.admissible cfg o ->
      SelectorProps.strike_distance signal best
      <= SelectorProps.strike_distance signal o.
Proof.
  unfold select_contract in Hsel. cbv zeta in Hsel.
  destruct (_ && _); [discriminate |].
  destruct (get_nearest_expiry _ _ _) as [expiry |] eqn:Hexp; [| discriminate].
  cbn [mbind option_bind] in Hsel.
  destruct (options_chain _ _ _) as [options |] eqn:Hchain; [| discriminate].
  cbn [mbind option_bind] in Hsel.
  destruct (bool_decide (options = [])); [discriminate |].
  destruct (sig_direction signal) as [d |] eqn:Hd; [| discriminate].
  cbn [mbind option_bind] in Hsel.
  destruct (bool_decide (_ = [])); [discriminate |].
  destruct (foldl _ None _) as [[best diff] |] eqn:Hbest; [| discriminate].
  cbn [mbind option_bind] in Hsel.
  destruct (size_position _ _ _) as [n total].
  injection Hsel as <-. cbn.
  assert (Hsome : forall t l b d0, foldl (consider cfg t) None l = Some (b, d0) ->
            b ∈ l /\ SelectorProps.admissible cfg b /\
            forall o, o ∈ l -> SelectorProps.admissible cfg o ->
              Qabs (o_strike b - t) <= Qabs (o_strike o - t)).
  { intros t l. apply (best_closest cfg t l None []).
    - intros b0 d0 [=].
    - intros _ o Ho. now apply not_elem_of_nil in Ho. }
  destruct (Hsome _ _ best diff Hbest) as (Hin & Hadm & Hleast).
  apply list_elem_of_filter in Hin as [Hside Hin].
  exists d, options, best.
  split; [reflexivity |]. split; [reflexivity |]. split; [exact Hchain |].
  split; [exact Hin |]. split; [exact Hside |]. split; [exact Hadm |].
  split; [repeat split |].
  intros o Ho Hos Hoa. unfold SelectorProps.strike_distance, SelectorProps.target_strike.
  cbv zeta. rewrite Hd. apply Hleast; [| exact Hoa].
  apply list_elem_of_filter. split; assumption.
Qed.

(** The TSLA call of the morning chain is the contract selected for the
    call signal, and it passes the filters. *)
Lemma selected_contract_closest_witness :
  exists c best,
    select_contract CONFIG Scenario.morning (Scenario.call_signal 17) 500 = Some c /\
    best ∈ [Scenario.tsla_call] /\
    tc_option_symbol c = o_symbol best /\
    SelectorProps.admissible CONFIG best.
Proof.
  destruct (select_contract CONFIG Scenario.morning (Scenario.call_signal 17) 500)
    as [c |] eqn:E; [| vm_compute in E; discriminate].
  destruct (selected_contract_closest _ _ _ _ _ E)
    as (d & options & best & _ & _ & Hchain & Hin & _ & Hadm & (Hsym & _) & _).
  injection Hchain as <-.
  exists c, best. repeat split; assumption || apply Hadm.
Defined.

(** X12: [select_contract] finds a contract whenever there is one:
    outside the last half hour from 15:30, for a signal with a
    direction, when the chain of the nearest admissible expiry holds a
    contract of that side that passes the filters, a candidate is
    returned. *)
Theorem select_contract_finds (cfg : Config) (W : World) (signal : Signal)
    (capital : Q) (d : Direction) (expiry : Z) (options : list OptionQuote)
    (o : OptionQuote) :
  ~ (hour W = 15%Z /\ (30 <= minute W)%Z) ->
  sig_direction signal = Some d ->
  get_nearest_expiry W (sig_ticker signal) (min_days_to_expiry cfg) = Some expiry ->
  options_chain W (sig_ticker signal) expiry = Some options ->
  o ∈ options ->
  SelectorProps.on_side d o ->
  SelectorProps.admissible cfg o ->
  is_Some (select_contract cfg W signal capital).
Proof.
  intros Hclock Hd Hexp Hchain Hin Hside Hadm.
  unfold select_contract. cbv zeta.
  destruct (_ && _) eqn:Hb; [apply blackout_spec in Hb; contradiction |].
  rewrite Hexp. cbn [mbind option_bind]. rewrite Hchain. cbn [mbind option_bind].
  case_bool_decide as Hnil; [subst options; now apply not_elem_of_nil in Hin |].
  rewrite Hd. cbn [mbind option_bind].
  assert (Hf : o ∈ filter (fun o => lower (o_option_type o) = lower (direction_name d))
                    options).
  { apply list_elem_of_filter. split; assumption. }
  case_bool_decide as Hnil'; [rewrite Hnil' in Hf; now apply not_elem_of_nil in Hf |].
  destruct (foldl _ None _) as [[best diff] |] eqn:Hbest.
  - cbn [mbind option_bind]. destruct (size_position _ _ _). eexists. reflexivity.
  - exfalso.
    match type of Hbest with
    | foldl (consider _ ?t) None ?l = _ =>
        pose proof (proj2 (best_closest cfg t l None []
          (fun b0 d0 (H : None = Some (b0, d0)) => match H with end)
          (fun _ o0 Ho => False_ind _ (not_elem_of_nil o0 Ho))) Hbest o) as Hno
    end.
    apply Hno; [exact Hf | exact Hadm].
Qed.

Lemma select_contract_finds_witness :
  is_Some (select_contract CONFIG Scenario.morning (Scenario.call_signal 17) 500).
Proof.
  apply (select_contract_finds CONFIG Scenario.morning (Scenario.call_signal 17) 500
           CALL 1 [Scenario.tsla_call] Scenario.tsla_call).
  - cbn. lia.
  - reflexivity.
  - vm_compute. reflexivity.
  - reflexivity.
  - apply list_elem_of_here.
  - reflexivity.
  - unfold SelectorProps.admissible. cbv zeta.
    repeat split; vm_compute; reflexivity || discriminate.
Defined.

(** ** The position monitor *)





(** X14: an entry and its exit. After [record_entry] at the ask and a
    closing order that the broker takes at [bid], the entry price, the
    entry score and the peak of the symbol are gone and the records of
    other symbols are as before the entry; the realized P&L of the day
    has grown by [(bid - ask) * 100 * qty]; and the ticker is in the
    set of recently closed tickers. A closing order that fails leaves
    the monitor as it was. *)
Theorem entry_then_exit (W : World) (m : Monitor) (symbol : string)
    (ask score bid : Q) (qty : Z) :
  let m1 := record_entry m symbol ask score in
  let m2 := (_close_position W m1 symbol qty bid).1 in
  (place_order_ok W symbol = true ->
     entry_prices m2 !! symbol = None /\
     entry_prices m2 !! (symbol +:+ "_score") = None /\
     peak_prices m2 !! symbol = None /\
     (forall other, other <> symbol -> other <> symbol +:+ "_score" ->
        entry_prices m2 !! other = entry_prices m !! other) /\
     (forall other, other <> symbol -> peak_prices m2 !! other = peak_prices m !! other) /\
     daily_realized_pnl m2 == daily_realized_pnl m + (bid - ask) * 100 * inject_Z qty /\
     (forall t, match_ticker symbol = Some t -> t ∈ recently_closed m2)) /\
  (place_order_ok W symbol = false -> m2 = m1).
Proof.
  cbv zeta. unfold _close_position. split; intros Hok; rewrite Hok; cbn [fst].
  - cbn [entry_prices peak_prices daily_realized_pnl recently_closed record_entry].
    split; [| split; [| split; [| split; [| split; [| split]]]]].
    + rewrite lookup_delete_ne by (intros H; now apply (score_key_fresh symbol)).
      apply lookup_delete_eq.
    + apply lookup_delete_eq.
    + apply lookup_delete_eq.
    + intros other H1 H2. now rewrite !lookup_delete_ne, !lookup_insert_ne.
    + intros other H1. now rewrite lookup_delete_ne, lookup_insert_ne.
    + rewrite lookup_insert_ne by apply score_key_fresh.
      rewrite lookup_insert_eq. cbn. reflexivity.
    + intros t ->. set_solver.
  - reflexivity.
Qed.

(** X15: a quote request that fails ends the monitoring loop: the
    positions listed after it are not looked at in that cycle, whatever
    their prices, and what was done for the positions before it
    stays. *)
Theorem quote_failure_stops_monitoring (W : World) (m : Monitor)
    (before after : list Position) (pos : Position)
    (Hquote : quote_bid W (p_symbol pos) = None) :
  check_positions W m (before ++ pos :: after) = check_positions W m before.
Proof.
  revert m. induction before as [| p before IH]; intros m; cbn [app check_positions].
  - unfold check_position. rewrite Hquote. reflexivity.
  - destruct (check_position W m p) as [[m' evs] |]; [| reflexivity].
    now rewrite IH.
Qed.

(** With no quote for the first of two positions, the second, far
    below its stop loss, is left alone. *)
Lemma quote_failure_stops_monitoring_witness :
  let W := {| today := 1; hour := 10; minute := 0; balances := Bal_error;
              positions := Pos_list [CycleScenario2.aapl_put; Scenario.held_call];
              expirations := fun _ => None; options_chain := fun _ _ => None;
              quote_bid := fun s => if String.eqb s "AAPL250117P00200000"
                                    then None else Some (1#2);
              place_order_ok := fun _ => true |} in
  check_and_exit W Scenario.after_peak = (Scenario.after_peak, []).
Proof.
  intros W. unfold check_and_exit. cbn [positions W].
  apply (quote_failure_stops_monitoring W Scenario.after_peak []
           [Scenario.held_call] CycleScenario2.aapl_put).
  reflexivity.
Defined.

(** ** The signal engine *)

Lemma vote_step n m d r t :
  (1 <= n <= m)%Z -> SignalProps.indicator_step m t (vote n d r t).
Proof.
  intros Hn. split; cbn; [lia |]. right. exists d. split; [reflexivity | lia].
Qed.

Lemma award_step n m r t :
  (0 <= n <= m)%Z -> SignalProps.indicator_step m t (award n r t).
Proof. intros Hn. split; cbn; [lia | now left]. Qed.

Lemma keep_step m t : (0 <= m)%Z -> SignalProps.indicator_step m t t.
Proof. intros Hm. split; [lia | now left]. Qed.

Ltac indicator_cases :=
  repeat match goal with |- context [if ?b then _ else _] => destruct b end;
  first [apply vote_step; lia | apply award_step; lia | apply keep_step; lia].

Lemma tally_rsi_step label rsi rsi_prev t :
  SignalProps.indicator_step 3 t (tally_rsi label rsi rsi_prev t).
Proof.
  unfold tally_rsi.
  indicator_cases.
Qed.

Lemma tally_macd_step label h1 h2 h3 t :
  SignalProps.indicator_step 3 t (tally_macd label h1 h2 h3 t).
Proof.
  unfold tally_macd.
  indicator_cases.
Qed.

Lemma tally_squeeze_step label sq t :
  SignalProps.indicator_step 3 t (tally_squeeze label sq t).
Proof.
  unfold tally_squeeze.
  indicator_cases.
Qed.

Lemma tally_volume_step label surge obv_trend t :
  SignalProps.indicator_step 3 t (tally_volume label surge obv_trend t).
Proof.
  unfold tally_volume.
  indicator_cases.
Qed.

Lemma tally_vwap_step label dev t :
  SignalProps.indicator_step 1 t (tally_vwap label dev t).
Proof.
  unfold tally_vwap.
  indicator_cases.
Qed.

Lemma count_dir_total l :
  (count_dir CALL l + count_dir PUT l = length l)%nat.
Proof.
  unfold count_dir. induction l as [| d l IH]; [reflexivity |].
  rewrite !filter_cons. destruct d; repeat case_decide; try congruence; cbn; lia.
Qed.

Lemma majority_some c p d : majority c p = Some d -> (1 <= c + p)%nat.
Proof.
  unfold majority.
  destruct (p <? c)%nat eqn:E1; [apply Nat.ltb_lt in E1; lia |].
  destruct (c <? p)%nat eqn:E2; [apply Nat.ltb_lt in E2; lia | discriminate].
Qed.

(** The tally after some indicators: the score is between 0 and the
    sum of the maxima, there are at most as many votes as indicators,
    and a vote comes with a point. *)
Lemma steps_compose n m k t t' t'' :
  (0 <= t_score t <= n)%Z /\ (length (t_directions t) <= k)%nat /\
    (t_directions t <> [] -> (1 <= t_score t)%Z) ->
  t = t' -> SignalProps.indicator_step m t' t'' ->
  (0 <= t_score t'' <= n + m)%Z /\ (length (t_directions t'') <= S k)%nat /\
    (t_directions t'' <> [] -> (1 <= t_score t'')%Z).
Proof.
  intros (Hs & Hl & Hv) <- [Hsc Hd]. split; [lia |].
  destruct Hd as [-> | (d & -> & Hp)].
  - split; [lia |]. intros H. specialize (Hv H). lia.
  - rewrite length_app. cbn. split; [lia |]. intros _. lia.
Qed.

(** The tally of [_score_timeframe] at its end. *)
Lemma score_timeframe_bounds (K : Kernels) (df : DataFrame) (label : string)
    (s : TimeframeScore) (Hs : _score_timeframe K df label = Some s) :
  (0 <= tf_score s <= 13)%Z /\
  (forall c p, tf_votes s = Some (c, p) ->
     (c + p <= 5)%nat /\ tf_direction s = majority c p) /\
  (is_Some (tf_direction s) -> (1 <= tf_score s)%Z).
Proof.
  unfold _score_timeframe in Hs.
  destruct (_ || _).
  { injection Hs as <-. cbn. split; [lia |]. split; [discriminate |].
    intros [d Hd]. discriminate. }
  cbv zeta in Hs.
  repeat match type of Hs with
  | (match ?x with _ => _ end) = _ => destruct x; [| discriminate]
  | (mbind _ ?x) = _ => destruct x; [| discriminate]; cbn [mbind option_bind] in Hs
  end.
  match type of Hs with
  | Some {| tf_score := t_score ?t; tf_direction := _; tf_votes := _; tf_reasons := _ |} = _ =>
      set (tfin := t) in Hs;
      assert (Hfin : (0 <= t_score tfin <= 13)%Z /\ (length (t_directions tfin) <= 5)%nat
                     /\ (t_directions tfin <> [] -> (1 <= t_score tfin)%Z))
  end.
  { subst tfin.
    eapply (steps_compose 12 1 4); [| reflexivity | apply tally_vwap_step].
    eapply (steps_compose 9 3 3); [| reflexivity | apply tally_volume_step].
    eapply (steps_compose 6 3 2); [| reflexivity | apply tally_squeeze_step].
    eapply (steps_compose 3 3 1); [| reflexivity | apply tally_macd_step].
    eapply (steps_compose 0 3 0); [| reflexivity | apply tally_rsi_step].
    cbn. split; [lia |]. split; [lia | congruence]. }
  destruct Hfin as (Hsc & Hlen & Hvote).
  injection Hs as <-. cbn [tf_score tf_votes tf_direction].
  pose proof (count_dir_total (t_directions tfin)) as Htot.
  split; [exact Hsc |]. split.
  - intros c p Hcp.
    assert (Hc : c = count_dir CALL (t_directions tfin)) by congruence.
    assert (Hp : p = count_dir PUT (t_directions tfin)) by congruence.
    subst c p. split; [lia | reflexivity].
  - intros [d Hd]. apply majority_some in Hd. apply Hvote.
    intros Hnil. rewrite Hnil in Hd. cbn in Hd. lia.
Qed.

(** X16: the score of one timeframe is between 0 and 13 (3 each for
    RSI, MACD, squeeze and volume, 1 for VWAP); at most five votes are
    cast, the direction is the majority of the votes (none on a tie),
    and a direction comes with a score of at least 1. *)
Theorem score_timeframe_range (K : Kernels) (df : DataFrame) (label : string)
    (s : TimeframeScore) (Hs : _score_timeframe K df label = Some s) :
  (0 <= tf_score s <= 13)%Z /\
  (forall c p, tf_votes s = Some (c, p) ->
     (c + p <= 5)%nat /\ tf_direction s = majority c p) /\
  (is_Some (tf_direction s) -> (1 <= tf_score s)%Z).
Proof. exact (score_timeframe_bounds K df label s Hs). Qed.


(** Thirty flat bars of TSLA under the kernels of the scenarios. *)
Lemma score_timeframe_range_witness :
  exists s,
    _score_timeframe Scenario.tsla_only (repeat Scenario.flat_bar 30) "1H" = Some s /\
    (0 <= tf_score s <= 13)%Z.
Proof.
  destruct (_score_timeframe Scenario.tsla_only (repeat Scenario.flat_bar 30) "1H")
    as [s |] eqn:E; [| vm_compute in E; discriminate].
  exists s. split; [reflexivity |].
  exact (proj1 (score_timeframe_range _ _ _ _ E)).
Defined.

Lemma Zle_inject (a b : Z) : (a <= b)%Z -> inject_Z a <= inject_Z b.
Proof. intros H. now rewrite <- Zle_Qle. Qed.

(** Rounding to the nearest integer stays within whole bounds. *)
Lemma py_round_bounds x (a b : Z) :
  inject_Z a <= x -> x <= inject_Z b -> (a <= py_round x <= b)%Z.
Proof.
  intros Ha Hb.
  assert (Hfa : (a <= Qfloor x)%Z).
  { rewrite <- (Qfloor_Z a). now apply Qfloor_resp_le. }
  assert (Hfb : (Qfloor x <= b)%Z).
  { rewrite <- (Qfloor_Z b). now apply Qfloor_resp_le. }
  pose proof (Qfloor_le x) as Hfl.
  assert (Hup : 1#2 <= x - inject_Z (Qfloor x) -> (Qfloor x + 1 <= b)%Z).
  { intros Hr. destruct (Z.eq_dec (Qfloor x) b) as [E | E]; [| lia].
    rewrite E in Hr. lra. }
  unfold py_round. cbv zeta.
  destruct (Qltb _ (1#2)) eqn:E1; [lia | apply Qltb_ge in E1].
  specialize (Hup E1).
  destruct (Qltb (1#2) _); [lia |]. destruct (Z.even _); lia.
Qed.

Lemma py_round1_bounds x (a b : Z) :
  inject_Z a <= x -> x <= inject_Z b ->
  inject_Z a <= py_round1 x /\ py_round1 x <= inject_Z b.
Proof.
  intros Ha Hb. unfold py_round1.
  destruct (py_round_bounds (x * 10) (a * 10) (b * 10)) as [H1 H2].
  - rewrite inject_Z_mult. change (inject_Z 10) with 10. lra.
  - rewrite inject_Z_mult. change (inject_Z 10) with 10. lra.
  - apply Zle_inject in H1, H2.
    rewrite inject_Z_mult in H1, H2. change (inject_Z 10) with 10 in H1, H2.
    split; [apply Qle_shift_div_l | apply Qle_shift_div_r]; lra.
Qed.

(** What [score_ticker] blends: the scores of the three timeframes. *)
Lemma score_ticker_parts K ticker regime sig :
  score_ticker K ticker regime = Some sig ->
  exists df_1h df_15m df_5m s1h s15m s5m atr_1h price_1h,
    _score_timeframe K df_1h "1H" = Some s1h /\
    _score_timeframe K df_15m "15M" = Some s15m /\
    _score_timeframe K df_5m "5M" = Some s5m /\
    sig = blend ticker regime s1h s15m s5m atr_1h price_1h.
Proof.
  unfold score_ticker.
  destruct (_fetch K ticker "1h" "3mo") as [df_1h |]; [| discriminate].
  destruct (_fetch K ticker "15m" "5d") as [df_15m |]; [| discriminate].
  destruct (_fetch K ticker "5m" "2d") as [df_5m |]; [| discriminate].
  cbn [mbind option_bind].
  destruct (_ || _); [discriminate |].
  destruct (_score_timeframe K df_1h "1H") as [s1h |] eqn:H1; [| discriminate].
  destruct (_score_timeframe K df_15m "15M") as [s15m |] eqn:H2; [| discriminate].
  destruct (_score_timeframe K df_5m "5M") as [s5m |] eqn:H3; [| discriminate].
  cbn [mbind option_bind].
  destruct (iloc_neg 1 (_atr K df_1h)) as [atr_1h |]; [| discriminate].
  cbn [mbind option_bind].
  destruct (if (length df_1h =? 1)%nat then None else _) as [price_1h |];
    [| discriminate].
  cbn [mbind option_bind]. intros [= <-].
  exists df_1h, df_15m, df_5m, s1h, s15m, s5m, atr_1h, price_1h. auto.
Qed.

Lemma confluence_score_range s1h s15m s5m :
  (0 <= confluence_score s1h s15m s5m <= 4)%Z.
Proof.
  unfold confluence_score. cbv zeta.
  repeat match goal with |- context [if ?b then _ else _] => destruct b end; lia.
Qed.

Lemma regime_score_range regime final : (0 <= regime_score regime final <= 2)%Z.
Proof.
  unfold regime_score.
  repeat match goal with |- context [if ?b then _ else _] => destruct b end; lia.
Qed.

Lemma vol_score_range v : (0 <= vol_score v <= 2)%Z.
Proof.
  unfold vol_score.
  repeat match goal with |- context [if ?b then _ else _] => destruct b end; lia.
Qed.

(** X17: the score scale. A technical score of [score_ticker] is
    between 0 and 21: the weighted timeframe scores give at most 13,
    confluence at most 4, the regime and the volatility at most 2
    each. With the insider bonus (at most 5) and the catalyst bonus (at
    most 6) a signal of [get_top_signals] scores at most 32, and at
    least the minimum score asked for. *)
Theorem signal_score_range (K : Kernels) (F : Feeds) :
  (forall ticker regime sig, score_ticker K ticker regime = Some sig ->
     0 <= sig_score sig /\ sig_score sig <= 21) /\
  (forall min_score s, s ∈ (get_top_signals K F min_score).2 ->
     min_score <= sig_score s /\ sig_score s <= 32).
Proof.
  assert (Htech : forall ticker regime sig, score_ticker K ticker regime = Some sig ->
            0 <= sig_score sig /\ sig_score sig <= 21).
  { intros ticker regime sig Hsig.
    apply score_ticker_parts in Hsig
      as (d1 & d2 & d3 & s1h & s15m & s5m & atr & price & H1 & H2 & H3 & ->).
    apply score_timeframe_bounds in H1, H2, H3.
    destruct H1 as [H1 _], H2 as [H2 _], H3 as [H3 _].
    unfold blend. cbv zeta. cbn [sig_score].
    pose proof (confluence_score_range s1h s15m s5m) as Hc.
    pose proof (regime_score_range regime (final_direction s1h s15m s5m)) as Hr.
    set (vol := vol_score _).
    assert (Hv : (0 <= vol <= 2)%Z) by apply vol_score_range.
    apply (py_round1_bounds _ 0 21).
    - change (inject_Z 0) with 0.
      destruct H1 as [H1 _], H2 as [H2 _], H3 as [H3 _], Hc as [Hc _], Hr as [Hr _],
        Hv as [Hv _].
      apply Zle_inject in H1, H2, H3, Hc, Hr, Hv.
      change (inject_Z 0) with 0 in *. lra.
    - change (inject_Z 21) with 21.
      destruct H1 as [_ H1], H2 as [_ H2], H3 as [_ H3], Hc as [_ Hc], Hr as [_ Hr],
        Hv as [_ Hv].
      apply Zle_inject in H1, H2, H3, Hc, Hr, Hv.
      change (inject_Z 13) with 13 in *. change (inject_Z 4) with 4 in *.
      change (inject_Z 2) with 2 in *. lra. }
  split; [exact Htech |].
  intros min_score s Hs.
  assert (Hmin : min_score <= sig_score s).
  { revert Hs. unfold get_top_signals. cbv zeta. cbn [snd]. intros H.
    apply elem_of_sort_reverse in H.
    apply list_elem_of_omap in H as (t & _ & H).
    unfold scan_one in H.
    destruct (score_ticker K t (_market_regime K)) as [sig |]; [| discriminate].
    case_bool_decide; [| discriminate].
    destruct (Qleb min_score _) eqn:E; [| discriminate].
    apply Qleb_le in E. now injection H as <-. }
  split; [exact Hmin |].
  apply top_signal_origin in Hs as (sig & Hsig & _ & Hm).
  apply Htech in Hsig as [Hlo Hhi].
  destruct (provider_bonuses_range F (sig_ticker s)) as [Hins Hcat].
  rewrite Hm. unfold merge_bonus. cbv zeta. cbn [sig_score].
  set (ib := from_option InsiderTracker.ib_score 0%Z _).
  set (cb := from_option CatalystScanner.c_total_bonus 0%Z _).
  assert (Hib : (0 <= ib <= 5)%Z).
  { subst ib. destruct (insider_scores F !! sig_ticker s) as [b |];
      cbn [from_option]; [| lia].
    specialize (Hins b eq_refl). lia. }
  assert (Hcb : (0 <= cb <= 6)%Z).
  { subst cb. destruct (catalyst_scores F !! sig_ticker s) as [c |];
      cbn [from_option]; [| lia].
    exact (Hcat c eq_refl). }
  assert (Hsum : (0 <= ib + cb <= 11)%Z) by lia.
  destruct Hsum as [Hs0 Hs11]. apply Zle_inject in Hs0, Hs11.
  change (inject_Z 0) with 0 in Hs0. change (inject_Z 11) with 11 in Hs11.
  apply (py_round1_bounds _ 0 32).
  - change (inject_Z 0) with 0. lra.
  - change (inject_Z 32) with 32. lra.
Qed.

(** The TSLA signal of the scenarios: within the scale. *)
Lemma signal_score_range_witness :
  exists s,
    s ∈ (get_top_signals Scenario.tsla_only Scenario.tsla_news 13).2 /\
    13 <= sig_score s /\ sig_score s <= 32.
Proof.
  destruct (get_top_signals Scenario.tsla_only Scenario.tsla_news 13).2
    as [| s rest] eqn:E; [vm_compute in E; discriminate |].
  exists s.
  assert (Hin : s ∈ (get_top_signals Scenario.tsla_only Scenario.tsla_news 13).2)
    by (rewrite E; apply list_elem_of_here).
  split; [rewrite <- E; exact Hin |].
  exact (proj2 (signal_score_range Scenario.tsla_only Scenario.tsla_news) 13 s Hin).
Defined.

(** *** The ranking *)

(** The stable descending sort sorts, for a comparison whose negation
    is transitive and that never holds both ways. *)
Lemma insert_desc_sorted {A} (lt : A -> A -> bool) x l :
  (forall a b, lt a b = true -> lt b a = false) ->
  (forall a b c, lt a b = false -> lt b c = false -> lt a c = false) ->
  StronglySorted (fun a b => lt a b = false) l ->
  StronglySorted (fun a b => lt a b = false) (insert_desc lt x l).
Proof.
  intros Hasym Htrans. induction 1 as [| y l Hs IH Hall]; cbn.
  - repeat constructor.
  - destruct (lt x y) eqn:E.
    + constructor; [exact IH |].
      rewrite (insert_desc_perm lt x l). constructor; [now apply Hasym | exact Hall].
    + constructor; [now constructor |].
      constructor; [exact E |].
      eapply Forall_impl; [exact Hall |]. intros z Hz. now apply (Htrans x y z).
Qed.

Lemma sort_reverse_sorted {A} (lt : A -> A -> bool) l :
  (forall a b, lt a b = true -> lt b a = false) ->
  (forall a b c, lt a b = false -> lt b c = false -> lt a c = false) ->
  StronglySorted (fun a b => lt a b = false) (sort_reverse lt l).
Proof.
  intros Hasym Htrans. induction l as [| x l IH]; [constructor |].
  change (sort_reverse lt (x :: l)) with (insert_desc lt x (sort_reverse lt l)).
  now apply insert_desc_sorted.
Qed.

Lemma signal_lt_spec x y :
  signal_lt x y = false <->
  (sig_confluence y < sig_confluence x)%Z \/
  (sig_confluence x = sig_confluence y /\ sig_score y <= sig_score x).
Proof.
  unfold signal_lt.
  destruct (sig_confluence x <? sig_confluence y)%Z eqn:E1;
    [apply Z.ltb_lt in E1 | apply Z.ltb_ge in E1]; cbn [orb].
  { split; [discriminate | intros [H | [H _]]; lia]. }
  destruct (sig_confluence x =? sig_confluence y)%Z eqn:E2;
    [apply Z.eqb_eq in E2 | apply Z.eqb_neq in E2]; cbn [andb].
  - rewrite Qltb_ge. split; [auto | intros [H | [_ H]]; [lia | exact H]].
  - split; [intros _; left; lia | reflexivity].
Qed.

Lemma dedup_from_spec seen l :
  NoDup (dedup_from seen l) /\
  forall x, x ∈ dedup_from seen l <-> x ∈ l /\ x ∉ seen.
Proof.
  revert seen. induction l as [| y l IH]; intros seen; cbn.
  - split; [constructor |]. intros x. rewrite elem_of_nil. tauto.
  - case_bool_decide as Hy.
    + destruct (IH seen) as [Hnd Hin]. split; [exact Hnd |].
      intros x. rewrite Hin, elem_of_cons. split; [tauto |].
      intros [[-> | Hx] Hns]; [contradiction | tauto].
    + destruct (IH (y :: seen)) as [Hnd Hin]. split.
      * constructor; [| exact Hnd]. rewrite Hin, elem_of_cons. tauto.
      * intros x. rewrite !elem_of_cons, Hin, elem_of_cons.
        destruct (decide (x = y)) as [-> | Hne]; tauto.
Qed.

Lemma omap_keyed_NoDup {A B} (f : A -> option B) (key : B -> A) l :
  (forall a b, f a = Some b -> key b = a) ->
  NoDup l -> NoDup (map key (omap f l)).
Proof.
  intros Hkey. induction 1 as [| a l Ha Hnd IH]; cbn; [constructor |].
  destruct (f a) as [b |] eqn:E; [| exact IH].
  cbn. constructor; [| exact IH].
  rewrite (Hkey a b E). intros Hin.
  apply list_elem_of_fmap in Hin as (b' & Hb' & Hin').
  apply list_elem_of_omap in Hin' as (a' & Ha' & Hf).
  apply Hkey in Hf. congruence.
Qed.

Lemma scan_one_ticker K ins cat regime min_score t s :
  scan_one K ins cat regime min_score t = Some s -> sig_ticker s = t.
Proof.
  unfold scan_one.
  destruct (score_ticker K t regime) as [sig |] eqn:Hsig; [| discriminate].
  case_bool_decide; [| discriminate].
  destruct (Qleb min_score _); [| discriminate].
  intros [= <-]. cbn [merge_bonus sig_ticker].
  apply score_ticker_blend in Hsig as (? & ? & ? & ? & ? & ->). reflexivity.
Qed.

Lemma sorted_keyed_NoDup {A B} (lt : B -> B -> bool) (f : A -> option B)
    (key : B -> A) l :
  (forall a b, f a = Some b -> key b = a) ->
  NoDup l -> NoDup (map key (sort_reverse lt (omap f l))).
Proof.
  intros Hkey Hnd. rewrite sort_reverse_perm. now apply omap_keyed_NoDup.
Qed.

Lemma signal_lt_asym a b : signal_lt a b = true -> signal_lt b a = false.
Proof.
  intros Hab. apply signal_lt_spec.
  unfold signal_lt in Hab. apply orb_true_iff in Hab as [H | H].
  - apply Z.ltb_lt in H. now left.
  - apply andb_true_iff in H as [H1 H2]. apply Z.eqb_eq in H1.
    apply Qltb_lt in H2. right. split; [congruence | lra].
Qed.

Lemma signal_lt_trans a b c :
  signal_lt a b = false -> signal_lt b c = false -> signal_lt a c = false.
Proof.
  intros Hab Hbc. apply signal_lt_spec in Hab, Hbc. apply signal_lt_spec.
  destruct Hab as [Hab | [Hab1 Hab2]], Hbc as [Hbc | [Hbc1 Hbc2]];
    try (left; lia). right. split; [congruence | lra].
Qed.

(** The ranking, for any lists of insider and catalyst tickers. *)
Lemma ranking_of_scan K ins cat regime min_score (more : list string) :
  let top :=
    sort_reverse signal_lt
      (omap (scan_one K ins cat regime min_score) (dedup_first (WATCHLIST ++ more))) in
  StronglySorted SignalProps.ranks_above top /\
  NoDup (map sig_ticker top) /\
  (forall s, s ∈ top -> sig_ticker s ∈ WATCHLIST ++ more).
Proof.
  cbv zeta. generalize (WATCHLIST ++ more). intros tickers. split; [| split].
  - apply sort_reverse_sorted; [exact signal_lt_asym | exact signal_lt_trans].
  - apply sorted_keyed_NoDup; [| apply dedup_from_spec].
    intros t s. apply scan_one_ticker.
  - intros s Hs. apply elem_of_sort_reverse in Hs.
    apply list_elem_of_omap in Hs as (t & Ht & Hs).
    apply scan_one_ticker in Hs. rewrite Hs.
    unfold dedup_first in Ht. now apply dedup_from_spec in Ht as [Ht _].
Qed.

(** The list [get_top_signals] returns. *)
Lemma get_top_signals_snd K F min_score :
  (get_top_signals K F min_score).2
  = sort_reverse signal_lt
      (omap (scan_one K (insider_scores F) (catalyst_scores F) (_market_regime K) min_score)
         (dedup_first (WATCHLIST ++ map InsiderTracker.ib_ticker (insider_buys_today F)
                       ++ map CatalystScanner.c_ticker (catalyst_top F)))).
Proof. reflexivity. Qed.

(** X18: the ranking of [get_top_signals]. The signals come best
    first: no signal is followed by one with a higher confluence, or
    with the same confluence and a higher score. No ticker appears
    twice, and every ticker is of the watchlist, of the insider buys of
    the day or of the catalyst tickers. *)
Theorem top_signals_ranked (K : Kernels) (F : Feeds) (min_score : Q) :
  let top := (get_top_signals K F min_score).2 in
  StronglySorted SignalProps.ranks_above top /\
  (forall x y, SignalProps.ranks_above x y <->
     (sig_confluence y < sig_confluence x)%Z \/
     (sig_confluence x = sig_confluence y /\ sig_score y <= sig_score x)) /\
  NoDup (map sig_ticker top) /\
  (forall s, s ∈ top ->
     sig_ticker s ∈ WATCHLIST \/
     sig_ticker s ∈ map InsiderTracker.ib_ticker (insider_buys_today F) \/
     sig_ticker s ∈ map CatalystScanner.c_ticker (catalyst_top F)).
Proof.
  cbv zeta. rewrite get_top_signals_snd.
  destruct (ranking_of_scan K (insider_scores F) (catalyst_scores F) (_market_regime K)
              min_score
              (map InsiderTracker.ib_ticker (insider_buys_today F)
               ++ map CatalystScanner.c_ticker (catalyst_top F)))
    as (Hsorted & Hnd & Hin).
  split; [exact Hsorted |]. split; [exact signal_lt_spec |]. split; [exact Hnd |].
  intros s Hs. apply Hin in Hs. rewrite !elem_of_app in Hs. exact Hs.
Qed.

(** *** The market regime *)

Lemma iloc_neg_last {A} (l : list A) : iloc_neg 1 l = last l.
Proof.
  unfold iloc_neg. destruct l as [| x l] using rev_ind; [reflexivity |].
  rewrite rev_unit, last_snoc. reflexivity.
Qed.

(** The two moving averages of [_market_regime] over a rising series:
    the average of span 50 lags behind the one of span 20, which lags
    behind the price. *)
Lemma ewm_rising l : forall ema20 ema50 price,
  ema50 <= ema20 -> ema20 <= price -> SignalProps.rising_from price l -> l <> [] ->
  exists p, last (price :: l) = Some p /\
    ewm_from (2#21) ema20 l < p /\ ewm_from (2#51) ema50 l < ewm_from (2#21) ema20 l.
Proof.
  induction l as [| x l IH]; intros ema20 ema50 price H1 H2 Hr Hne; [contradiction |].
  destruct Hr as [Hx Hr]. cbn [ewm_from].
  set (e20 := (1 - (2#21)) * ema20 + (2#21) * x).
  set (e50 := (1 - (2#51)) * ema50 + (2#51) * x).
  assert (He20 : e20 < x) by (subst e20; lra).
  assert (He50 : e50 < e20) by (subst e20 e50; lra).
  destruct l as [| y l].
  - exists x. cbn. auto.
  - destruct (IH e20 e50 x) as (p & Hp & Hres); [lra | lra | exact Hr | discriminate |].
    exists p. split; [exact Hp | exact Hres].
Qed.

Lemma ewm_falling l : forall ema20 ema50 price,
  ema20 <= ema50 -> price <= ema20 -> SignalProps.falling_from price l -> l <> [] ->
  exists p, last (price :: l) = Some p /\
    p < ewm_from (2#21) ema20 l /\ ewm_from (2#21) ema20 l < ewm_from (2#51) ema50 l.
Proof.
  induction l as [| x l IH]; intros ema20 ema50 price H1 H2 Hr Hne; [contradiction |].
  destruct Hr as [Hx Hr]. cbn [ewm_from].
  set (e20 := (1 - (2#21)) * ema20 + (2#21) * x).
  set (e50 := (1 - (2#51)) * ema50 + (2#51) * x).
  assert (He20 : x < e20) by (subst e20; lra).
  assert (He50 : e20 < e50) by (subst e20 e50; lra).
  destruct l as [| y l].
  - exists x. cbn. auto.
  - destruct (IH e20 e50 x) as (p & Hp & Hres); [lra | lra | exact Hr | discriminate |].
    exists p. split; [exact Hp | exact Hres].
Qed.

Lemma ewm_flat alpha x l : forall y,
  y == x -> Forall (fun z => z = x) l -> ewm_from alpha y l == x.
Proof.
  induction l as [| z l IH]; intros y Hy Hall; cbn [ewm_from]; [exact Hy |].
  apply Forall_cons in Hall as [-> Hall].
  apply IH; [| exact Hall]. rewrite Hy. ring.
Qed.

(** X19: the regime follows the trend of SPY. Over a series of at
    least two daily closes that rises from each day to the next, the
    price is above its 20-day average and that above the 50-day
    average: the regime is bull; over a falling series it is bear; over
    a flat one, as without data, it is neutral. *)
Theorem regime_follows_trend (K : Kernels) (spy : DataFrame) (x : Q) (l : list Q)
    (Hfetch : _fetch K "SPY" "1d" "3mo" = Some spy)
    (Hclose : map Close spy = x :: l) (Hlen : l <> []) :
  (SignalProps.rising_from x l -> _market_regime K = bull) /\
  (SignalProps.falling_from x l -> _market_regime K = bear) /\
  (Forall (fun y => y = x) l -> _market_regime K = neutral).
Proof.
  unfold _market_regime. rewrite Hfetch, Hclose.
  assert (Hl : (length (x :: l) <=? 1)%nat = false).
  { destruct l; [contradiction | reflexivity]. }
  rewrite Hl, iloc_neg_last. unfold ewm_last.
  change (2 / (inject_Z 20 + 1)) with (2#21).
  change (2 / (inject_Z 50 + 1)) with (2#51).
  split; [| split].
  - intros Hr.
    destruct (ewm_rising l x x x) as (p & -> & H20 & H50);
      [lra | lra | exact Hr | exact Hlen |].
    now rewrite (proj2 (Qltb_lt _ _) H20), (proj2 (Qltb_lt _ _) H50).
  - intros Hf.
    destruct (ewm_falling l x x x) as (p & -> & H20 & H50);
      [lra | lra | exact Hf | exact Hlen |].
    rewrite (proj2 (Qltb_ge (ewm_from (2#21) x l) p)) by lra. cbn [andb].
    now rewrite (proj2 (Qltb_lt _ _) H20), (proj2 (Qltb_lt _ _) H50).
  - intros Hflat.
    assert (Hp : last (x :: l) = Some x).
    { assert (H : forall y, y = x -> last (y :: l) = Some x).
      { clear - Hflat. induction Hflat as [| z l -> _ IH]; intros y ->; [reflexivity |].
        exact (IH x eq_refl). }
      exact (H x eq_refl). }
    rewrite Hp.
    pose proof (ewm_flat (2#21) x l x (Qeq_refl x) Hflat) as E20.
    rewrite (proj2 (Qltb_ge (ewm_from (2#21) x l) x)) by lra. cbn [andb].
    rewrite (proj2 (Qltb_ge x (ewm_from (2#21) x l))) by lra. reflexivity.
Qed.

(** SPY at 500, 505 and 512: bull. *)
Lemma regime_follows_trend_witness :
  _market_regime RegimeScenario.spy_rising = bull.
Proof.
  apply (regime_follows_trend RegimeScenario.spy_rising
           [RegimeScenario.day 500; RegimeScenario.day 505; RegimeScenario.day 512]
           500 [505; 512]).
  - reflexivity.
  - reflexivity.
  - discriminate.
  - cbn. split; [| split]; [reflexivity | reflexivity | exact I].
Defined.

(** ** The catalyst scanner *)

(** When [scan] gives a ticker a direction bias: the gap scores at
    least 2, that is, the gap is at least 5%, or at least 2% on at
    least twice the usual volume; the bias is the side of the gap. *)
Lemma scan_ticker_bias earnings gaps ticker bias :
  CatalystScanner.c_direction_bias (CatalystScanner.scan_ticker earnings gaps ticker)
    = Some bias ->
  exists g, gaps ticker = Some g /\
    bias = CatalystScanner.gap_direction g /\
    (5 <= Qabs (CatalystScanner.gap_pct g) \/
     (2 <= Qabs (CatalystScanner.gap_pct g) /\ 2 <= CatalystScanner.vol_ratio g)).
Proof.
  unfold CatalystScanner.scan_ticker.
  destruct (CatalystScanner.score_earnings _) as [e er].
  unfold CatalystScanner.score_gap.
  destruct (gaps ticker) as [g |]; [| cbn; discriminate].
  destruct (Qltb (Qabs (CatalystScanner.gap_pct g)) 2) eqn:E2;
    [cbn; discriminate | apply Qltb_ge in E2].
  destruct (Qleb 8 _) eqn:E8; [apply Qleb_le in E8 | apply Qleb_gt in E8].
  { destruct (Qleb 2 (CatalystScanner.vol_ratio g)); cbn;
      intros [= <-]; exists g; (split; [reflexivity |]);
      (split; [reflexivity |]); left; lra. }
  destruct (Qleb 5 _) eqn:E5; [apply Qleb_le in E5 | apply Qleb_gt in E5].
  { destruct (Qleb 2 (CatalystScanner.vol_ratio g)); cbn;
      intros [= <-]; exists g; (split; [reflexivity |]);
      (split; [reflexivity |]); left; lra. }
  destruct (Qleb 2 (CatalystScanner.vol_ratio g)) eqn:Ev;
    [apply Qleb_le in Ev | cbn; discriminate].
  cbn. intros [= <-]. exists g. split; [reflexivity |]. split; [reflexivity |].
  right. split; assumption.
Qed.

Lemma scan_ticker_ticker earnings gaps ticker :
  CatalystScanner.c_ticker (CatalystScanner.scan_ticker earnings gaps ticker) = ticker.
Proof.
  unfold CatalystScanner.scan_ticker.
  destruct (CatalystScanner.score_earnings _) as [e er].
  now destruct (CatalystScanner.score_gap _) as [[g gr] gd].
Qed.

Lemma make_gap_direction prev_close current vol_ratio g :
  CatalystScanner.make_gap_data prev_close current vol_ratio = Some g ->
  0 < prev_close /\ 0 < current /\
  CatalystScanner.gap_pct g = (current - prev_close) / prev_close * 100 /\
  (CatalystScanner.gap_direction g = CALL <-> prev_close < current) /\
  (CatalystScanner.gap_direction g = PUT <-> current <= prev_close).
Proof.
  unfold CatalystScanner.make_gap_data.
  destruct (Qleb prev_close 0) eqn:E1; [discriminate | apply Qleb_gt in E1].
  destruct (Qleb current 0) eqn:E2; [discriminate | apply Qleb_gt in E2].
  cbn [orb]. intros [= <-]. cbn.
  split; [exact E1 |]. split; [exact E2 |]. split; [reflexivity |].
  assert (Hsign : 0 < (current - prev_close) / prev_close * 100 <-> prev_close < current).
  { split; intros H.
    - assert (H' : 0 < (current - prev_close) / prev_close) by lra.
      apply (Qmult_lt_r _ _ prev_close) in H'; [| exact E1].
      assert (Hd : (current - prev_close) / prev_close * prev_close == current - prev_close)
        by (field; lra).
      lra.
    - assert (H' : 0 < (current - prev_close) / prev_close).
      { apply Qlt_shift_div_l; lra. }
      lra. }
  destruct (Qltb 0 _) eqn:E; [apply Qltb_lt in E | apply Qltb_ge in E].
  - apply Hsign in E. split; split; auto; try discriminate. intros H. lra.
  - split; split; try discriminate.
    + intros H. apply Hsign in H. lra.
    + intros _. destruct (Qlt_le_dec prev_close current) as [H | H]; [| exact H].
      apply Hsign in H. lra.
    + reflexivity.
Qed.

(** X20: a strong gap decides the direction. For a ticker that the
    catalyst scan of [get_top_signals] lists with a direction bias, the
    merged signal takes the bias, whatever direction the timeframes
    voted for: CALL when the last price is above the previous close,
    PUT otherwise. The bias is there exactly for a gap of at least 5%,
    or of at least 2% on at least twice the usual volume. Without a
    bias the technical direction stays. *)
Theorem gap_decides_direction (K : Kernels) (F : Feeds) (ticker : string) (sig : Signal) :
  let merged := merge_bonus (insider_scores F) (catalyst_scores F) ticker sig in
  (forall c bias,
     catalyst_scores F !! ticker = Some c ->
     CatalystScanner.c_direction_bias c = Some bias ->
     sig_direction merged = Some bias /\
     exists prev_close current vol_ratio g,
       gap_quotes F (CatalystScanner.c_ticker c) = Some (prev_close, current, vol_ratio) /\
       CatalystScanner.make_gap_data prev_close current vol_ratio = Some g /\
       (bias = CALL <-> prev_close < current) /\
       (5 <= Qabs (CatalystScanner.gap_pct g) \/
        (2 <= Qabs (CatalystScanner.gap_pct g) /\ 2 <= vol_ratio))) /\
  (catalyst_scores F !! ticker ≫= CatalystScanner.c_direction_bias = None ->
   forall d, sig_direction sig = Some d -> sig_direction merged = Some d).
Proof.
  cbv zeta. split.
  - intros c bias Hc Hbias.
    assert (Hin : c ∈ catalyst_top F).
    { now apply (dict_by_lookup CatalystScanner.c_ticker (catalyst_top F)) in Hc. }
    assert (Horigin : (2 <= CatalystScanner.c_total_bonus c)%Z /\
              c = CatalystScanner.scan_ticker (earnings_dates F)
                    (CatalystScanner.get_premarket_gaps (gap_quotes F))
                    (CatalystScanner.c_ticker c)).
    { revert Hin. unfold catalyst_top, CatalystScanner.get_top_catalyst_tickers.
      generalize CatalystScanner.universe. intros universe H.
      apply elem_of_sort_reverse in H. apply list_elem_of_filter in H as [Hmin H].
      split; [exact Hmin |].
      unfold CatalystScanner.scan in H.
      apply list_elem_of_fmap in H as (t & Ht & _).
      rewrite Ht at 1. now rewrite Ht, scan_ticker_ticker. }
    destruct Horigin as [Hmin Hscan]. split.
    + cbn [merge_bonus sig_direction]. rewrite Hc. cbn [mbind option_bind from_option].
      rewrite Hbias. now rewrite (proj2 (Z.leb_le _ _) Hmin).
    + rewrite Hscan in Hbias. apply scan_ticker_bias in Hbias as (g & Hg & Hb & Hsize).
      unfold CatalystScanner.get_premarket_gaps in Hg.
      destruct (gap_quotes F (CatalystScanner.c_ticker c)) as [[[pc cur] vr] |];
        [| discriminate].
      cbn [mbind option_bind] in Hg.
      exists pc, cur, vr, g. split; [reflexivity |]. split; [exact Hg |].
      pose proof (make_gap_direction _ _ _ _ Hg) as (_ & _ & _ & Hcall & _).
      assert (Hvr : CatalystScanner.vol_ratio g = vr).
      { clear - Hg. unfold CatalystScanner.make_gap_data in Hg.
        destruct (_ || _); [discriminate |]. now injection Hg as <-. }
      rewrite Hb, Hvr in *. split; [exact Hcall | exact Hsize].
  - intros Hnone d Hd. cbn [merge_bonus sig_direction]. rewrite Hnone, Hd.
    rewrite (bool_decide_eq_false_2 (Some d = None)) by discriminate.
    now rewrite andb_false_r.
Qed.

(** TSLA gaps up 6%: the PUT of the timeframes becomes a CALL. *)
Lemma gap_decides_direction_witness :
  sig_direction
    (merge_bonus (insider_scores GapScenario.tsla_gap_up)
       (catalyst_scores GapScenario.tsla_gap_up) "TSLA" GapScenario.put_signal)
  = Some CALL.
Proof.
  destruct (catalyst_scores GapScenario.tsla_gap_up !! "TSLA"%string) as [c |] eqn:Hc;
    [| vm_compute in Hc; discriminate].
  assert (Hb : CatalystScanner.c_direction_bias c = Some CALL).
  { assert (H : catalyst_scores GapScenario.tsla_gap_up !! "TSLA"%string
                ≫= CatalystScanner.c_direction_bias = Some CALL)
      by (vm_compute; reflexivity).
    rewrite Hc in H. exact H. }
  destruct (gap_decides_direction Scenario.tsla_only GapScenario.tsla_gap_up "TSLA"
              GapScenario.put_signal) as [H _].
  exact (proj1 (H c CALL Hc Hb)).
Defined.

Lemma StronglySorted_weaken {A} (R S : A -> A -> Prop) l :
  (forall x y, R x y -> S x y) -> StronglySorted R l -> StronglySorted S l.
Proof.
  intros HRS. induction 1 as [| x l Hs IH Hall]; constructor; [exact IH |].
  eapply Forall_impl; [exact Hall | intros y; apply HRS].
Qed.

(** X21: the catalyst list. [get_top_catalyst_tickers] returns exactly
    the tickers of the universe whose bonus reaches [min_bonus], each
    once, with the entry [scan] computes for it, the highest bonus
    first; a bonus is at most 6. *)
Theorem top_catalysts_ranked (earnings_dates : string -> option Z)
    (gap_data : string -> option CatalystScanner.GapData) (min_bonus : Z) :
  let top := CatalystScanner.get_top_catalyst_tickers earnings_dates gap_data min_bonus in
  let entry := CatalystScanner.scan_ticker earnings_dates gap_data in
  StronglySorted
    (fun x y => (CatalystScanner.c_total_bonus y <= CatalystScanner.c_total_bonus x)%Z) top /\
  NoDup (map CatalystScanner.c_ticker top) /\
  (forall c, c ∈ top <->
     CatalystScanner.c_ticker c ∈ CatalystScanner.universe /\
     c = entry (CatalystScanner.c_ticker c) /\
     (min_bonus <= CatalystScanner.c_total_bonus c <= 6)%Z).
Proof.
  cbv zeta. unfold CatalystScanner.get_top_catalyst_tickers.
  generalize CatalystScanner.universe. intros universe.
  split; [| split].
  - eapply StronglySorted_weaken;
      [| apply (sort_reverse_sorted CatalystScanner.bonus_lt)].
    + intros x y H. unfold CatalystScanner.bonus_lt in H. now apply Z.ltb_ge in H.
    + intros a b H. unfold CatalystScanner.bonus_lt in *.
      apply Z.ltb_lt in H. apply Z.ltb_ge. lia.
    + intros a b c H1 H2. unfold CatalystScanner.bonus_lt in *.
      apply Z.ltb_ge in H1, H2. apply Z.ltb_ge. lia.
  - rewrite sort_reverse_perm.
    assert (Hnd : NoDup (map CatalystScanner.c_ticker
                           (CatalystScanner.scan earnings_dates gap_data universe))).
    { unfold CatalystScanner.scan. rewrite map_map.
      erewrite map_ext; [| intros t; apply scan_ticker_ticker].
      rewrite map_id. apply dedup_from_spec. }
    revert Hnd. generalize (CatalystScanner.scan earnings_dates gap_data universe).
    intros l. induction l as [| c l IH]; [constructor |].
    intros Hnd. cbn [map] in Hnd. apply NoDup_cons in Hnd as [Hc Hnd].
    rewrite filter_cons. case_decide; [| now apply IH].
    cbn [map]. constructor; [| now apply IH].
    intros Hin. apply Hc.
    apply list_elem_of_fmap in Hin as (c' & -> & Hin).
    apply list_elem_of_filter in Hin as [_ Hin].
    apply list_elem_of_fmap. eauto.
  - intros c. rewrite elem_of_sort_reverse, list_elem_of_filter.
    unfold CatalystScanner.scan. rewrite list_elem_of_fmap. split.
    + intros [Hmin (t & -> & Ht)]. rewrite scan_ticker_ticker.
      apply dedup_from_spec in Ht as [Ht _].
      split; [exact Ht |]. split; [reflexivity |].
      pose proof (scan_ticker_range earnings_dates gap_data t). lia.
    + intros (Hu & Hc & Hmin & _). split; [exact Hmin |].
      exists (CatalystScanner.c_ticker c). split; [exact Hc |].
      apply dedup_from_spec. split; [exact Hu | apply not_elem_of_nil].
Qed.

(** ** The insider tracker *)

Lemma upsert_spec ticker val role agg :
  InsiderTracker.MIN_BUY_VALUE <= val ->
  ticker <> EmptyString -> (String.length ticker <= 6)%nat ->
  Forall InsiderFilings.qualifying agg ->
  NoDup (map InsiderTracker.a_ticker agg) ->
  Forall InsiderFilings.qualifying (InsiderFilings.upsert ticker val role agg) /\
  NoDup (map InsiderTracker.a_ticker (InsiderFilings.upsert ticker val role agg)) /\
  (forall t, t ∈ map InsiderTracker.a_ticker (InsiderFilings.upsert ticker val role agg) <->
     t = ticker \/ t ∈ map InsiderTracker.a_ticker agg).
Proof.
  intros Hval Hne Hlen. unfold InsiderTracker.MIN_BUY_VALUE in Hval.
  induction agg as [| d agg IH]; intros Hq Hnd; cbn [InsiderFilings.upsert].
  - split; [| split].
    + constructor; [| constructor]. unfold InsiderFilings.qualifying.
      cbn [InsiderTracker.a_filing_count InsiderTracker.a_total_buy_value
           InsiderTracker.a_ticker].
      split; [lia |]. split; [| split; assumption].
      unfold InsiderTracker.MIN_BUY_VALUE. change (inject_Z (0 + 1)) with 1. lra.
    + cbn. repeat constructor. apply not_elem_of_nil.
    + intros t. cbn. rewrite list_elem_of_singleton, elem_of_nil. tauto.
  - apply Forall_cons in Hq as [Hd Hq]. cbn [map] in Hnd.
    apply NoDup_cons in Hnd as [Hdn Hnd].
    case_bool_decide as Ht.
    + split; [| split].
      * constructor; [| exact Hq].
        destruct Hd as (Hc & Hv & Hn & Hl). unfold InsiderFilings.qualifying.
        cbn [InsiderTracker.a_filing_count InsiderTracker.a_total_buy_value
             InsiderTracker.a_ticker].
        split; [lia |]. split; [| split; assumption].
        unfold InsiderTracker.MIN_BUY_VALUE in *.
        rewrite inject_Z_plus. change (inject_Z 1) with 1. lra.
      * cbn [map InsiderTracker.a_ticker]. now constructor.
      * intros t. cbn [map InsiderTracker.a_ticker]. rewrite !elem_of_cons.
        rewrite Ht. tauto.
    + destruct (IH Hq Hnd) as (Hq' & Hnd' & Hin').
      split; [| split].
      * now constructor.
      * cbn [map]. constructor; [| exact Hnd'].
        rewrite Hin'. intros [H | H]; [congruence | contradiction].
      * intros t. cbn [map]. rewrite !elem_of_cons, Hin'. tauto.
Qed.

Lemma aggregate_one_spec ticker_map parse agg filing :
  Forall InsiderFilings.qualifying agg ->
  NoDup (map InsiderTracker.a_ticker agg) ->
  Forall InsiderFilings.qualifying (InsiderFilings.aggregate_one ticker_map parse agg filing) /\
  NoDup (map InsiderTracker.a_ticker
           (InsiderFilings.aggregate_one ticker_map parse agg filing)).
Proof.
  intros Hq Hnd. unfold InsiderFilings.aggregate_one.
  destruct filing as [cik accession].
  destruct (parse cik accession) as [parsed |]; [| auto].
  case_bool_decide; [auto |]. cbv zeta.
  set (ticker := if bool_decide (InsiderFilings.pf_ticker parsed = "") then _ else _).
  case_bool_decide as Hne; cbn [orb]; [auto |].
  destruct (6 <? String.length ticker)%nat eqn:Hlen; [auto | apply Nat.ltb_ge in Hlen].
  destruct (Qltb _ InsiderTracker.MIN_BUY_VALUE) eqn:Hval; [auto | apply Qltb_ge in Hval].
  destruct (upsert_spec ticker (InsiderFilings.total_buy_value parsed)
              (InsiderFilings.pf_role parsed) agg Hval Hne Hlen Hq Hnd) as (H1 & H2 & _).
  auto.
Qed.

Lemma aggregate_spec ticker_map parse filings :
  Forall InsiderFilings.qualifying (InsiderFilings.aggregate ticker_map parse filings) /\
  NoDup (map InsiderTracker.a_ticker (InsiderFilings.aggregate ticker_map parse filings)).
Proof.
  unfold InsiderFilings.aggregate. generalize (take 300 filings). intros l.
  assert (H : forall agg, Forall InsiderFilings.qualifying agg ->
            NoDup (map InsiderTracker.a_ticker agg) ->
            Forall InsiderFilings.qualifying
              (foldl (InsiderFilings.aggregate_one ticker_map parse) agg l) /\
            NoDup (map InsiderTracker.a_ticker
              (foldl (InsiderFilings.aggregate_one ticker_map parse) agg l))).
  { induction l as [| f l IH]; intros agg Hq Hnd; cbn [foldl]; [auto |].
    destruct (aggregate_one_spec ticker_map parse agg f Hq Hnd) as [Hq' Hnd'].
    now apply IH. }
  apply H; constructor.
Qed.

Lemma score_insider_fields d :
  InsiderTracker.ib_ticker (InsiderTracker.score_insider d) = InsiderTracker.a_ticker d /\
  InsiderTracker.ib_total_buy_value (InsiderTracker.score_insider d)
    = InsiderTracker.a_total_buy_value d /\
  InsiderTracker.ib_filing_count (InsiderTracker.score_insider d)
    = InsiderTracker.a_filing_count d /\
  InsiderTracker.ib_direction (InsiderTracker.score_insider d) = CALL.
Proof.
  unfold InsiderTracker.score_insider. cbv zeta.
  destruct (2 <=? InsiderTracker.a_filing_count d)%Z;
    destruct (Qleb 500000 (InsiderTracker.a_total_buy_value d));
    destruct (Qleb 100000 (InsiderTracker.a_total_buy_value d));
    destruct (InsiderTracker.first_csuite_role (InsiderTracker.a_roles d)); cbn; auto.
Qed.

Lemma rank_lt_spec x y :
  InsiderTracker.rank_lt x y = false <->
  (InsiderTracker.ib_score y < InsiderTracker.ib_score x)%Z \/
  (InsiderTracker.ib_score x = InsiderTracker.ib_score y /\
   InsiderTracker.ib_total_buy_value y <= InsiderTracker.ib_total_buy_value x).
Proof.
  unfold InsiderTracker.rank_lt.
  destruct (_ <? _)%Z eqn:E1; [apply Z.ltb_lt in E1 | apply Z.ltb_ge in E1]; cbn [orb].
  { split; [discriminate | intros [H | [H _]]; lia]. }
  destruct (_ =? _)%Z eqn:E2; [apply Z.eqb_eq in E2 | apply Z.eqb_neq in E2]; cbn [andb].
  - rewrite Qltb_ge. split; [auto | intros [H | [_ H]]; [lia | exact H]].
  - split; [intros _; left; lia | reflexivity].
Qed.

(** X22: the insider buys of the day. From whatever filings the SEC
    lists, [get_todays_insider_buys] returns at most 20 entries, no
    ticker twice, ranked by score and then by total value, highest
    first. Every entry is a CALL with a score from 2 to 5, for a ticker
    of one to six characters, and sums at least one filing, each of at
    least $50,000 in purchases. *)
Theorem insider_buys_qualified (ticker_map : gmap string string)
    (_parse_form4 : string -> string -> option InsiderFilings.Parsed)
    (filings : list (string * string)) :
  let buys := InsiderFilings.todays_insider_buys ticker_map _parse_form4 filings in
  (length buys <= 20)%nat /\
  NoDup (map InsiderTracker.ib_ticker buys) /\
  StronglySorted (fun x y => InsiderTracker.rank_lt x y = false) buys /\
  (forall x y, InsiderTracker.rank_lt x y = false <->
     (InsiderTracker.ib_score y < InsiderTracker.ib_score x)%Z \/
     (InsiderTracker.ib_score x = InsiderTracker.ib_score y /\
      InsiderTracker.ib_total_buy_value y <= InsiderTracker.ib_total_buy_value x)) /\
  Forall (fun b =>
            (2 <= InsiderTracker.ib_score b <= 5)%Z /\
            InsiderTracker.ib_direction b = CALL /\
            (1 <= InsiderTracker.ib_filing_count b)%Z /\
            50000 * inject_Z (InsiderTracker.ib_filing_count b)
              <= InsiderTracker.ib_total_buy_value b /\
            InsiderTracker.ib_ticker b <> EmptyString /\
            (String.length (InsiderTracker.ib_ticker b) <= 6)%nat) buys.
Proof.
  cbv zeta. unfold InsiderFilings.todays_insider_buys.
  case_bool_decide as Hnil.
  { cbn. split; [lia |]. split; [constructor |]. split; [constructor |].
    split; [exact rank_lt_spec | constructor]. }
  destruct (aggregate_spec ticker_map _parse_form4 filings) as [Hq Hnd].
  revert Hq Hnd. generalize (InsiderFilings.aggregate ticker_map _parse_form4 filings).
  intros agg Hq Hnd. unfold InsiderTracker.get_todays_insider_buys.
  set (ranked := sort_reverse InsiderTracker.rank_lt (map InsiderTracker.score_insider agg)).
  assert (Hsorted : StronglySorted (fun x y => InsiderTracker.rank_lt x y = false) ranked).
  { apply sort_reverse_sorted.
    - intros a b Hab. apply rank_lt_spec.
      unfold InsiderTracker.rank_lt in Hab. apply orb_true_iff in Hab as [H | H].
      + apply Z.ltb_lt in H. now left.
      + apply andb_true_iff in H as [H1 H2]. apply Z.eqb_eq in H1.
        apply Qltb_lt in H2. right. split; [congruence | lra].
    - intros a b c Hab Hbc. apply rank_lt_spec in Hab, Hbc. apply rank_lt_spec.
      destruct Hab as [Hab | [Hab1 Hab2]], Hbc as [Hbc | [Hbc1 Hbc2]];
        try (left; lia). right. split; [congruence | lra]. }
  assert (Hnd' : NoDup (map InsiderTracker.ib_ticker ranked)).
  { subst ranked. rewrite sort_reverse_perm, map_map.
    erewrite map_ext; [exact Hnd |]. intros d. apply score_insider_fields. }
  assert (Hall : forall b, b ∈ ranked -> exists d, d ∈ agg /\ b = InsiderTracker.score_insider d).
  { intros b Hb. subst ranked. apply elem_of_sort_reverse in Hb.
    apply list_elem_of_fmap in Hb as (d & -> & Hd). eauto. }
  rewrite <- (take_drop InsiderTracker.MAX_RESULTS ranked) in Hsorted, Hnd'.
  rewrite map_app in Hnd'. apply NoDup_app in Hnd' as [Hnd' _].
  apply StronglySorted_app_1_l in Hsorted.
  split; [apply firstn_le_length |]. split; [exact Hnd' |]. split; [exact Hsorted |].
  split; [exact rank_lt_spec |].
  apply Forall_forall. intros b Hb. apply subseteq_take in Hb.
  destruct (Hall b Hb) as (d & Hd & ->).
  rewrite Forall_forall in Hq. destruct (Hq d Hd) as (Hc & Hv & Hn & Hl).
  destruct (score_insider_fields d) as (-> & -> & -> & ->).
  split; [apply score_insider_range |]. split; [reflexivity |].
  unfold InsiderTracker.MIN_BUY_VALUE in Hv. auto.
Qed.

(** Two filings of purchases of TSLA by its CEO, of $300,000 each. *)
Lemma insider_buys_qualified_witness :
  exists b,
    InsiderFilings.todays_insider_buys InsiderFilings.tsla_ciks InsiderFilings.tsla_parser
      InsiderFilings.two_filings = [b] /\
    InsiderTracker.ib_ticker b = "TSLA"%string /\
    50000 * inject_Z (InsiderTracker.ib_filing_count b)
      <= InsiderTracker.ib_total_buy_value b.
Proof.
  destruct (insider_buys_qualified InsiderFilings.tsla_ciks InsiderFilings.tsla_parser
              InsiderFilings.two_filings) as (_ & _ & _ & _ & Hall).
  destruct (InsiderFilings.todays_insider_buys InsiderFilings.tsla_ciks
              InsiderFilings.tsla_parser InsiderFilings.two_filings) as [| b rest] eqn:E;
    [vm_compute in E; discriminate |].
  assert (Hrest : rest = []).
  { apply (f_equal (@length _)) in E. vm_compute in E. now destruct rest. }
  subst rest. exists b. split; [reflexivity |].
  apply Forall_cons in Hall as [(_ & _ & _ & Hv & _) _].
  split; [| exact Hv].
  apply (f_equal (fun l => map InsiderTracker.ib_ticker l)) in E.
  vm_compute in E. now injection E.
Defined.

(** ** The report on the trade log *)

(** X23: the report on the agent's own log. The lines [run_once]
    writes to [trades.json] carry the score at top level and no
    ["signal"] entry, and [analyze_trades] reads scores and bonuses
    from the ["signal"] entry only: for a log of such lines the trade
    count, the capital deployed and the average cost are those of the
    trades, but the average signal score, the average insider and
    catalyst bonuses and the counts of trades they helped are 0,
    whatever the scores were. *)
Theorem report_of_logged_trades (logged : list (TradeCandidate * Q))
    (Hlogged : logged <> []) :
  let lines := map (fun entry => Report.log_line entry.1 entry.2) logged in
  exists stats,
    Report.analyze_trades lines = Some stats /\
    Report.total_trades stats = length logged /\
    Report.total_deployed stats = Report.sum_Q (map (fun entry => tc_total_cost entry.1) logged) /\
    Report.avg_trade_cost stats
      = Report.total_deployed stats / inject_Z (Z.of_nat (length logged)) /\
    Report.avg_score stats = 0 /\
    Report.avg_insider_bonus stats = 0 /\
    Report.avg_catalyst_bonus stats = 0 /\
    Report.insider_helped stats = 0%nat /\
    Report.catalyst_helped stats = 0%nat.
Proof.
  cbv zeta. unfold Report.analyze_trades.
  case_bool_decide as Hnil.
  { destruct logged; [contradiction | discriminate]. }
  assert (Hsig : omap Report.r_signal
                   (map (fun entry => Report.log_line entry.1 entry.2) logged) = []).
  { clear. induction logged as [| e l IH]; [reflexivity | exact IH]. }
  cbv zeta. rewrite Hsig. eexists. split; [reflexivity |].
  cbn [Report.total_trades Report.total_deployed Report.avg_trade_cost Report.avg_score
       Report.avg_insider_bonus Report.avg_catalyst_bonus Report.insider_helped
       Report.catalyst_helped].
  rewrite length_map, map_map. cbn [Report.log_line Report.r_total_cost default].
  repeat split; reflexivity.
Qed.

(** One logged trade with a score of 17: the report averages 0. *)
Lemma report_of_logged_trades_witness :
  exists stats,
    Report.analyze_trades [Report.log_line (Scenario.one_call 17) 17] = Some stats /\
    Report.avg_score stats = 0 /\ Report.total_trades stats = 1%nat.
Proof.
  destruct (report_of_logged_trades [(Scenario.one_call 17, 17)])
    as (stats & Hrun & Hn & _ & _ & Hs & _); [discriminate |].
  exists stats. split; [exact Hrun |]. split; [exact Hs | exact Hn].
Defined.

(** ** The congress tracker *)

Lemma update_data_spec (P : CongressTracker.TickerData -> Prop) ticker f data :
  (forall d, CongressTracker.td_ticker (f d) = CongressTracker.td_ticker d) ->
  (forall d, CongressTracker.td_ticker d = ticker ->
     (P d \/ d = CongressTracker.no_data ticker) -> P (f d)) ->
  Forall P data ->
  NoDup (map CongressTracker.td_ticker data) ->
  Forall P (CongressTracker.update_data ticker f data) /\
  NoDup (map CongressTracker.td_ticker (CongressTracker.update_data ticker f data)) /\
  (forall t, t ∈ map CongressTracker.td_ticker (CongressTracker.update_data ticker f data)
     <-> t = ticker \/ t ∈ map CongressTracker.td_ticker data).
Proof.
  intros Hkey Hf. induction data as [| d data IH]; intros HP Hnd;
    cbn [CongressTracker.update_data].
  - split; [| split].
    + constructor; [| constructor]. apply Hf; [reflexivity | now right].
    + cbn [map]. rewrite Hkey. cbn. constructor; [apply not_elem_of_nil | constructor].
    + intros t. cbn [map]. rewrite Hkey. cbn.
      rewrite list_elem_of_singleton, elem_of_nil. tauto.
  - apply Forall_cons in HP as [Hd HP]. cbn [map] in Hnd.
    apply NoDup_cons in Hnd as [Hdn Hnd].
    case_bool_decide as Ht.
    + split; [| split].
      * constructor; [| exact HP]. apply Hf; [exact Ht | now left].
      * cbn [map]. rewrite Hkey. now constructor.
      * intros t. cbn [map]. rewrite Hkey, !elem_of_cons, Ht. tauto.
    + destruct (IH HP Hnd) as (HP' & Hnd' & Hin').
      split; [| split].
      * now constructor.
      * cbn [map]. constructor; [| exact Hnd'].
        rewrite Hin'. intros [H | H]; [congruence | contradiction].
      * intros t. cbn [map]. rewrite !elem_of_cons, Hin'. tauto.
Qed.

Lemma add_trade_spec parse upper_strip isalpha tickers data trade :
  let P := fun d => CongressTracker.traded d /\
                    CongressTracker.accepted isalpha tickers (CongressTracker.td_ticker d) in
  Forall P data -> NoDup (map CongressTracker.td_ticker data) ->
  Forall P (CongressTracker.add_trade parse upper_strip isalpha tickers data trade) /\
  NoDup (map CongressTracker.td_ticker
           (CongressTracker.add_trade parse upper_strip isalpha tickers data trade)).
Proof.
  intros P HP Hnd. unfold CongressTracker.add_trade. cbv zeta.
  set (ticker := upper_strip (CongressTracker.tr_ticker trade)).
  case_bool_decide as Hne; cbn [orb]; [auto |].
  destruct (6 <? String.length ticker)%nat eqn:Hlen; cbn [orb];
    [auto | apply Nat.ltb_ge in Hlen].
  destruct (isalpha ticker) eqn:Halpha; cbn [negb]; [| auto].
  destruct (negb (bool_decide _) && negb (bool_decide _)) eqn:Hfilter; [auto |].
  assert (Hacc : CongressTracker.accepted isalpha tickers ticker).
  { split; [exact Hne |]. split; [exact Hlen |]. split; [exact Halpha |].
    intros Hts. apply andb_false_iff in Hfilter as [H | H].
    - apply negb_false_iff, bool_decide_eq_true in H. contradiction.
    - now apply negb_false_iff, bool_decide_eq_true in H. }
  clear Hfilter.
  destruct (negb (CongressTracker.is_buy _) && negb (CongressTracker.is_sell _)); [auto |].
  destruct (CongressTracker.is_buy _).
  - edestruct (update_data_spec P ticker) as (H1 & H2 & _);
      [| | exact HP | exact Hnd | split; [exact H1 | exact H2]].
    + reflexivity.
    + intros d Hd _. split; [| cbn; now rewrite Hd].
      left. cbn. now destruct (CongressTracker.td_buys d).
  - edestruct (update_data_spec P ticker) as (H1 & H2 & _);
      [| | exact HP | exact Hnd | split; [exact H1 | exact H2]].
    + reflexivity.
    + intros d Hd _. split; [| cbn; now rewrite Hd].
      right. cbn. now destruct (CongressTracker.td_sells d).
Qed.

Lemma score_data_spec d r :
  CongressTracker.score_data d = Some r ->
  CongressTracker.cs_ticker r = CongressTracker.td_ticker d /\
  CongressTracker.cs_buys r = CongressTracker.td_buys d /\
  CongressTracker.cs_sells r = CongressTracker.td_sells d /\
  ((CongressTracker.td_buys d <> [] /\ CongressTracker.cs_direction r = CALL /\
    (2 <= CongressTracker.cs_score r <= 4)%Z) \/
   (CongressTracker.td_buys d = [] /\ CongressTracker.td_sells d <> [] /\
    CongressTracker.cs_direction r = PUT /\ CongressTracker.cs_score r = (-1)%Z)).
Proof.
  unfold CongressTracker.score_data.
  destruct (bool_decide (CongressTracker.td_buys d = [])) eqn:Hb;
    [apply bool_decide_eq_true in Hb | apply bool_decide_eq_false in Hb]; cbn [negb].
  - destruct (bool_decide (CongressTracker.td_sells d = [])) eqn:Hs;
      [apply bool_decide_eq_true in Hs | apply bool_decide_eq_false in Hs]; cbn [negb].
    + cbn. discriminate.
    + cbn. intros [= <-]. cbn. repeat split; auto.
  - destruct (2 <=? size (CongressTracker.td_members d))%nat;
      destruct (negb (bool_decide (CongressTracker.td_senators d = ∅)));
      destruct (negb (bool_decide (CongressTracker.td_notable d = ∅)));
      cbn; intros [= <-]; cbn; (split; [reflexivity |]); (split; [reflexivity |]);
      (split; [reflexivity |]); left; (split; [exact Hb |]);
      (split; [reflexivity | lia]).
Qed.

Lemma congress_data_spec parse upper_strip isalpha tickers trades :
  Forall (fun d => CongressTracker.traded d /\
                   CongressTracker.accepted isalpha tickers (CongressTracker.td_ticker d))
    (foldl (CongressTracker.add_trade parse upper_strip isalpha tickers) [] trades) /\
  NoDup (map CongressTracker.td_ticker
           (foldl (CongressTracker.add_trade parse upper_strip isalpha tickers) [] trades)).
Proof.
  assert (H : forall data,
            Forall (fun d => CongressTracker.traded d /\
                      CongressTracker.accepted isalpha tickers (CongressTracker.td_ticker d))
              data ->
            NoDup (map CongressTracker.td_ticker data) ->
            Forall (fun d => CongressTracker.traded d /\
                      CongressTracker.accepted isalpha tickers (CongressTracker.td_ticker d))
              (foldl (CongressTracker.add_trade parse upper_strip isalpha tickers) data trades)
            /\ NoDup (map CongressTracker.td_ticker
                 (foldl (CongressTracker.add_trade parse upper_strip isalpha tickers)
                    data trades))).
  { induction trades as [| t trades IH]; intros data HP Hnd; cbn [foldl]; [auto |].
    destruct (add_trade_spec parse upper_strip isalpha tickers data t HP Hnd) as [HP' Hnd'].
    now apply IH. }
  apply H; constructor.
Qed.

Lemma congress_scores_spec parse upper_strip isalpha tickers trades :
  let scores :=
    CongressTracker.get_congress_scores parse upper_strip isalpha tickers trades in
  NoDup (map CongressTracker.cs_ticker scores) /\
  Forall (fun r =>
            CongressTracker.accepted isalpha tickers (CongressTracker.cs_ticker r) /\
            ((CongressTracker.cs_buys r <> [] /\ CongressTracker.cs_direction r = CALL /\
              (2 <= CongressTracker.cs_score r <= 4)%Z) \/
             (CongressTracker.cs_buys r = [] /\ CongressTracker.cs_sells r <> [] /\
              CongressTracker.cs_direction r = PUT /\
              CongressTracker.cs_score r = (-1)%Z))) scores.
Proof.
  cbv zeta. unfold CongressTracker.get_congress_scores.
  case_bool_decide; [split; constructor |].
  destruct (congress_data_spec parse upper_strip isalpha tickers trades) as [HP Hnd].
  revert HP Hnd.
  generalize (foldl (CongressTracker.add_trade parse upper_strip isalpha tickers) [] trades).
  intros data HP Hnd. split.
  - clear HP. induction data as [| d data IH]; [constructor |].
    cbn [map] in Hnd. apply NoDup_cons in Hnd as [Hd Hnd].
    cbn [omap list_omap]. destruct (CongressTracker.score_data d) as [r |] eqn:Hr;
      [| now apply IH].
    cbn [map]. constructor; [| now apply IH].
    apply score_data_spec in Hr as (-> & _). intros Hin. apply Hd.
    apply list_elem_of_fmap in Hin as (r' & -> & Hin).
    apply list_elem_of_omap in Hin as (d' & Hd' & Hr').
    apply score_data_spec in Hr' as (-> & _).
    apply list_elem_of_fmap. eauto.
  - apply Forall_forall. intros r Hr.
    apply list_elem_of_omap in Hr as (d & Hd & Hr).
    rewrite Forall_forall in HP. destruct (HP d Hd) as [_ Hacc].
    apply score_data_spec in Hr as (-> & -> & -> & Hcases).
    split; [exact Hacc | exact Hcases].
Qed.

(** X24: the congress scores. [get_congress_scores] lists no ticker
    twice, and only tickers of one to six letters (of the given
    tickers, when some are given). A ticker with a disclosed purchase
    is a CALL with a score from 2 to 4, whatever was sold; a ticker
    with sales only is a PUT with the score -1; no score is 0 or 1. So
    the watchlist from a minimum score of 0 or more holds purchases
    only, the highest score first. *)
Theorem congress_scores_shape (_parse_amount : string -> Q)
    (upper_strip : string -> string) (isalpha : string -> bool)
    (tickers : list string) (all_trades : list CongressTracker.Trade) :
  let scores :=
    CongressTracker.get_congress_scores _parse_amount upper_strip isalpha tickers
      all_trades in
  NoDup (map CongressTracker.cs_ticker scores) /\
  Forall (fun r =>
            CongressTracker.accepted isalpha tickers (CongressTracker.cs_ticker r) /\
            ((CongressTracker.cs_buys r <> [] /\ CongressTracker.cs_direction r = CALL /\
              (2 <= CongressTracker.cs_score r <= 4)%Z) \/
             (CongressTracker.cs_buys r = [] /\ CongressTracker.cs_sells r <> [] /\
              CongressTracker.cs_direction r = PUT /\
              CongressTracker.cs_score r = (-1)%Z))) scores /\
  (forall min_score, (0 <= min_score)%Z ->
     let watchlist :=
       CongressTracker.get_congress_watchlist _parse_amount upper_strip isalpha
         min_score all_trades in
     StronglySorted
       (fun x y => (CongressTracker.cs_score y <= CongressTracker.cs_score x)%Z)
       watchlist /\
     Forall (fun r => CongressTracker.cs_direction r = CALL /\
                      CongressTracker.cs_buys r <> [] /\
                      (2 <= CongressTracker.cs_score r <= 4)%Z /\
                      (min_score <= CongressTracker.cs_score r)%Z) watchlist).
Proof.
  cbv zeta.
  destruct (congress_scores_spec _parse_amount upper_strip isalpha tickers all_trades)
    as [Hnd Hall].
  split; [exact Hnd |]. split; [exact Hall |].
  intros min_score Hmin. unfold CongressTracker.get_congress_watchlist. split.
  - eapply StronglySorted_weaken; [| apply (sort_reverse_sorted CongressTracker.score_lt)].
    + intros x y H. unfold CongressTracker.score_lt in H. now apply Z.ltb_ge in H.
    + intros a b H. unfold CongressTracker.score_lt in *.
      apply Z.ltb_lt in H. apply Z.ltb_ge. lia.
    + intros a b c H1 H2. unfold CongressTracker.score_lt in *.
      apply Z.ltb_ge in H1, H2. apply Z.ltb_ge. lia.
  - apply Forall_forall. intros r Hr.
    apply elem_of_sort_reverse in Hr. apply list_elem_of_filter in Hr as [Hge Hr].
    destruct (congress_scores_spec _parse_amount upper_strip isalpha [] all_trades)
      as [_ Hall0].
    rewrite Forall_forall in Hall0.
    destruct (Hall0 r Hr) as [_ [(Hb & Hd & Hs) | (_ & _ & _ & Hs)]]; [auto | lia].
Qed.

(** A purchase of NVDA by a senator and a sale of INTC: NVDA is a
    CALL, INTC a PUT with the score -1, and only NVDA is on the
    watchlist. *)
Lemma congress_scores_shape_witness :
  exists nvda intc,
    CongressTracker.get_congress_scores (fun _ => 8000) (fun s => s) (fun _ => true) []
      CongressTracker.two_trades = [nvda; intc] /\
    CongressTracker.cs_direction nvda = CALL /\
    CongressTracker.cs_direction intc = PUT /\
    CongressTracker.cs_score intc = (-1)%Z.
Proof.
  destruct (congress_scores_shape (fun _ => 8000) (fun s => s) (fun _ => true) []
              CongressTracker.two_trades) as (_ & Hall & _).
  destruct (CongressTracker.get_congress_scores (fun _ => 8000) (fun s => s)
              (fun _ => true) [] CongressTracker.two_trades) as [| nvda [| intc rest]] eqn:E;
    [vm_compute in E; discriminate | vm_compute in E; discriminate |].
  assert (Hrest : rest = []).
  { apply (f_equal (@length _)) in E. vm_compute in E. now destruct rest. }
  subst rest. exists nvda, intc. split; [reflexivity |].
  assert (Hl : map (fun r => length (CongressTracker.cs_buys r))
                 (CongressTracker.get_congress_scores (fun _ => 8000) (fun s => s)
                    (fun _ => true) [] CongressTracker.two_trades) = [1; 0]%nat)
    by (vm_compute; reflexivity).
  rewrite E in Hl. cbn [map] in Hl. injection Hl as E1 E2.
  assert (Hb : CongressTracker.cs_buys nvda <> [] /\ CongressTracker.cs_buys intc = []).
  { split.
    - intros H. rewrite H in E1. discriminate E1.
    - now destruct (CongressTracker.cs_buys intc). }
  destruct Hb as [Hb1 Hb2].
  apply Forall_cons in Hall as [[_ H1] Hall]. apply Forall_cons in Hall as [[_ H2] _].
  destruct H1 as [(_ & H1 & _) | (H1 & _)]; [| contradiction].
  destruct H2 as [(H2 & _) | (_ & _ & H2 & H2')]; [contradiction |].
  auto.
Defined.
